(** * CanvasGrid: cell addressing, colour sampling and grid scanning

    A shallow embedding of the TypeScript sources of CanvasGrid
    (MouseInteractions.ts, ColorSampler.ts, TooltipDetector.ts and
    GridScanner.ts) together with the properties of the specification
    that were checked against them.

    Conventions of the embedding.
    - A JavaScript [number] that may be fractional (page pixels,
      tolerances, delays) is a rational [Q]; the arithmetic is the exact
      one, so IEEE rounding is idealised.  Numbers that the code only uses
      as integers (grid sizes, cell indices, counts) are [Z].  Where a
      property would depend on the exact arithmetic (sums that cancel,
      rectangles that touch) it is stated for whole numbers in the range
      doubles represent exactly.
    - An [await]ed call on a collaborator (the Playwright page, a locator,
      an injected component) either resolves with a value or rejects; the
      scanner and the detector thread an abstract world through these
      calls and keep a journal of the calls they made.  The promise of
      [ColorSampler.sampleCell] can also stay pending for good, and so
      can the call of the scanner that awaits it.
    - [try { ... } catch (e) { ... }] is [try_catch]. *)

From Stdlib Require Import ZArith QArith Qround Qabs Reals Qreals Lia Psatz List Sorted String Bool.
From Stdlib Require Floats.PrimFloat.
From stdpp Require Import gmap strings pretty.
Import ListNotations.

Local Open Scope Z_scope.

(** ** JavaScript numbers and the [Math] functions the sources use *)

Module Js.

Definition Math_floor (x : Q) : Q := inject_Z (Qfloor x).

(** [Math.round] rounds to the nearest integer, halves upwards;
    [round_Z] is its value as an integer. *)
Definition round_Z (x : Q) : Z := Qfloor (x + (1 # 2)).

Definition Math_round (x : Q) : Q := inject_Z (round_Z x).

Definition Math_max (a b : Q) : Q := if Qle_bool a b then b else a.

Definition Math_min (a b : Q) : Q := if Qle_bool a b then a else b.

Definition Math_abs (x : Q) : Q := Qabs x.

(** [a.every((v, i) => f(v, i))], the index counted from [i]. *)
Fixpoint every_from {A : Type} (f : A -> nat -> bool) (i : nat) (a : list A) : bool :=
  match a with
  | [] => true
  | v :: rest => if f v i then every_from f (S i) rest else false
  end.

Definition every {A : Type} (f : A -> nat -> bool) (a : list A) : bool :=
  every_from f 0%nat a.

End Js.

(** ** Data model *)

(** [type Grid = { cols: number; rows: number }] *)
Record Grid : Type := mkGrid { cols : Z; rows : Z }.

(** The box a locator's [boundingBox()] resolves to. *)
Module BoundingBox.
Record t : Type := mk { x : Q; y : Q; width : Q; height : Q }.
End BoundingBox.

(** The point [{ x, y }] a cell is clicked or hovered at. *)
Module Point.
Record t : Type := mk { x : Q; y : Q }.
End Point.

(** [type RGBA = [number, number, number, number]]: an array of four
    channels. *)
Definition RGBA : Type := list Q.

Definition is_rgba (c : RGBA) : Prop := length c = 4%nat.

(** The result of an awaited call: resolved with a value, or rejected with
    an [Error] carrying a message. *)
Inductive outcome (A : Type) : Type :=
| Ok (a : A)
| Throw (message : string).
Arguments Ok {A} a.
Arguments Throw {A} message.

(** ** MouseInteractions.getCellCenter *)

Module MouseInteractions.

(** [box] is what [await this.canvas.boundingBox()] resolved to, [None]
    for [null]. *)
Definition getCellCenter (box : option BoundingBox.t) (grid : Grid) (col row : Z)
  : outcome Point.t :=
  match box with
  | None => Throw "no canvas bbox"
  | Some box =>
      let x := (BoundingBox.x box + (BoundingBox.width box / inject_Z (cols grid)) * (inject_Z col + (1 # 2)))%Q in
      let y := (BoundingBox.y box + (BoundingBox.height box / inject_Z (rows grid)) * (inject_Z row + (1 # 2)))%Q in
      Ok {| Point.x := x; Point.y := y |}
  end.

End MouseInteractions.

(** ** Awaited calls on collaborators

    The page and the injected components are outside the repository.  A
    call on one of them takes the current world to a new world and either
    resolves or rejects.  Every call is entered in a journal together with
    whether it resolved, so that statements can speak about what was done to
    the page and in which order. *)

Record HoverOptions : Type :=
  mkHoverOptions { moveSteps : Q; jitterAmount : Q; dwellTime : Q }.

Inductive call : Type :=
| CallHoverCell (col row : Z) (options : HoverOptions)
| CallWaitForTimeout (ms : Q)
| CallGetVisibleTooltips
| CallMouseMove (x y : Q)
| CallSampleCell (col row : Z)
| CallProgress (current total col row : Z)
| CallWaitFor (selector : string) (timeout : Q)
| CallTextContent (selector : string)
| CallInnerHTML (selector : string)
| CallBoundingBox (selector : string).

Section Effects.

Context {W : Type}.

Record state : Type := mkState { world : W; journal : list (call * bool) }.

Definition M (A : Type) : Type := state -> outcome A * state.

Definition ret {A : Type} (a : A) : M A := fun s => (Ok a, s).

Definition throw {A : Type} (message : string) : M A := fun s => (Throw message, s).

Definition bind {A B : Type} (m : M A) (k : A -> M B) : M B :=
  fun s =>
    match m s with
    | (Ok a, s') => k a s'
    | (Throw e, s') => (Throw e, s')
    end.

(** [try { body } catch (e) { handler(e) }]: what [body] did to the world
    before it threw stays done. *)
Definition try_catch {A : Type} (body : M A) (handler : string -> M A) : M A :=
  fun s =>
    match body s with
    | (Ok a, s') => (Ok a, s')
    | (Throw e, s') => handler e s'
    end.

Definition resolved {A : Type} (r : outcome A) : bool :=
  match r with Ok _ => true | Throw _ => false end.

(** [await op(...)] on a collaborator, journalled as [c]. *)
Definition await {A : Type} (c : call) (op : W -> outcome A * W) : M A :=
  fun s =>
    let (r, w') := op (world s) in
    (r, {| world := w'; journal := journal s ++ [(c, resolved r)] |}).

(** [for (let i = lo; i < hi; i += step) acc = body(i, acc)].  The loop
    counter is a JavaScript number, so the recursion is on a budget of
    iterations; the callers pass [hi - lo], which a loop with [step >= 1]
    never exceeds (lemma [for_lt_budget]). *)
Fixpoint for_lt {A : Type} (budget : nat) (i hi step : Z)
    (body : Z -> A -> M A) (acc : A) : M A :=
  match budget with
  | O => ret acc
  | S budget' =>
      if i <? hi
      then bind (body i acc) (fun acc' => for_lt budget' (i + step) hi step body acc')
      else ret acc
  end.

(** The same traversal written over the list of the indices, used to
    reason about the loops. *)
Fixpoint foldM {A I : Type} (body : I -> A -> M A) (l : list I) (acc : A) : M A :=
  match l with
  | [] => ret acc
  | i :: rest => bind (body i acc) (fun acc' => foldM body rest acc')
  end.

End Effects.

Arguments state W : clear implicits.
Arguments M W A : clear implicits.

Notation "'let*' x ':=' m 'in' k" := (bind m (fun x => k))
  (at level 10, x name, m at level 100, k at level 200, only parsing).

(** [range lo n] is [lo; lo+1; ...; lo+n-1]. *)
Fixpoint range (lo : Z) (n : nat) : list Z :=
  match n with
  | O => []
  | S n' => lo :: range (lo + 1) n'
  end.

(** [v || undefined] for an optional string: the empty string is falsy. *)
Definition or_undefined (v : option string) : option string :=
  match v with
  | Some EmptyString => None
  | other => other
  end.

(** Truthiness of an optional string and of an optional object. *)
Definition truthy_string (v : option string) : bool :=
  match or_undefined v with Some _ => true | None => false end.

Definition truthy {A : Type} (v : option A) : bool :=
  match v with Some _ => true | None => false end.

(** An element of the array [getVisibleTooltips()] resolves to. *)
Record Tooltip : Type := mkTooltip {
  selector : string;
  index : Z;
  text : option string;
  html : string;
  boundingBox : option BoundingBox.t
}.

(** ** TooltipDetector.waitForTooltip *)

Module TooltipDetector.

(** What the detector does with [this.page.locator(selector)]:
    [waitFor({ state: 'visible', timeout })], [textContent()],
    [innerHTML()] and [boundingBox()]. *)
Record Deps (W : Type) : Type := mkDeps {
  waitFor : string -> Q -> W -> outcome unit * W;
  textContent : string -> W -> outcome (option string) * W;
  innerHTML : string -> W -> outcome string * W;
  locatorBoundingBox : string -> W -> outcome (option BoundingBox.t) * W
}.
Arguments waitFor {W} _ _ _ _.
Arguments textContent {W} _ _ _.
Arguments innerHTML {W} _ _ _.
Arguments locatorBoundingBox {W} _ _ _.

(** The double quote character. *)
Definition quote : string := String (Ascii.ascii_of_nat 34) EmptyString.

Definition defaultSelectors : list string :=
  [ "[role=" +:+ quote +:+ "tooltip" +:+ quote +:+ "]";
    ".tooltip"; ".hover-info"; ".chart-tooltip";
    ".data-tooltip"; "[data-tooltip]"; ".tippy-content"; ".d3-tip" ].

(** The options of [waitForTooltip].  The timeout is taken in whole
    milliseconds; the message of the error prints it in decimal, as
    JavaScript does for whole numbers below 10^21. *)
Record WaitOptions : Type := mkWaitOptions {
  timeout : option Z;
  tooltipSelectors : option (list string)
}.

Definition noWaitOptions : WaitOptions := mkWaitOptions None None.

(** What [waitForTooltip] resolves to. *)
Module TooltipInfo.
Record t : Type := mk {
  selector : string;
  text : option string;
  html : string;
  boundingBox : option BoundingBox.t
}.
End TooltipInfo.

(** The message of the [Error] thrown after the loop. *)
Definition timeoutMessage (timeout : Z) (selectors : list string) : string :=
  "No tooltip found within " +:+ pretty timeout +:+ "ms using selectors: "
    +:+ String.concat ", " selectors.

Section WithDeps.

Context {W : Type} (deps : Deps W).

(** One iteration of [for (const selector of tooltipSelectors)]: the
    [return] sits inside the [try], so a rejected read is caught like a
    rejected wait. *)
Definition trySelector (share : Q) (selector : string) : M W (option TooltipInfo.t) :=
  try_catch
    (let* _ := await (CallWaitFor selector share) (waitFor deps selector share) in
     let* text := await (CallTextContent selector) (textContent deps selector) in
     let* html := await (CallInnerHTML selector) (innerHTML deps selector) in
     let* box := await (CallBoundingBox selector) (locatorBoundingBox deps selector) in
     ret (Some {| TooltipInfo.selector := selector; TooltipInfo.text := or_undefined text;
                  TooltipInfo.html := html; TooltipInfo.boundingBox := box |}))
    (fun _ => ret None).

Fixpoint trySelectors (share : Q) (selectors : list string) : M W (option TooltipInfo.t) :=
  match selectors with
  | [] => ret None
  | selector :: rest =>
      let* r := trySelector share selector in
      match r with
      | Some info => ret (Some info)
      | None => trySelectors share rest
      end
  end.

Definition waitForTooltip (options : option WaitOptions) : M W TooltipInfo.t :=
  let options := match options with Some o => o | None => noWaitOptions end in
  let timeout := match timeout options with Some t => t | None => 3000 end in
  let tooltipSelectors :=
    match tooltipSelectors options with Some l => l | None => defaultSelectors end in
  let share := (inject_Z timeout / inject_Z (Z.of_nat (length tooltipSelectors)))%Q in
  let* r := trySelectors share tooltipSelectors in
  match r with
  | Some info => ret info
  | None => throw (timeoutMessage timeout tooltipSelectors)
  end.

End WithDeps.

End TooltipDetector.

(** ** ColorSampler *)

Module ColorSampler.

(** [actual.every((v, i) => Math.abs(v - expected[i]) <= tol)].
    [expected[i]] past the end of the array is [undefined], the
    difference is then [NaN] and the comparison false. *)
Definition within (actual expected : RGBA) (tol : Q) : bool :=
  Js.every
    (fun v i =>
       match nth_error expected i with
       | Some e => Qle_bool (Js.Math_abs (v - e)) tol
       | None => false
       end)
    actual.

(** The default tolerance of [within(actual, expected, tol = 12)]. *)
Definition default_tol : Q := 12.

(** The clip rectangle of the screenshot fallback of [sampleCell], in
    exact arithmetic; for grid extents other than 0. *)
Module Clip.
Record t : Type := mk { x : Q; y : Q; width : Q; height : Q }.
End Clip.

Definition cellClip (box : BoundingBox.t) (grid : Grid) (col row : Z) : Clip.t :=
  let cellW := (BoundingBox.width box / inject_Z (cols grid))%Q in
  let cellH := (BoundingBox.height box / inject_Z (rows grid))%Q in
  {| Clip.x := (BoundingBox.x box + cellW * inject_Z col)%Q;
     Clip.y := (BoundingBox.y box + cellH * inject_Z row)%Q;
     Clip.width := Js.Math_max 2 (Js.Math_floor cellW);
     Clip.height := Js.Math_max 2 (Js.Math_floor cellH) |}.

(** *** sampleCell *)

(** How a promise ends: resolved, rejected, or never settled. *)
Inductive settlement (A : Type) : Type :=
| Resolved (a : A)
| Rejected (message : string)
| Pending.
Arguments Resolved {A} a.
Arguments Rejected {A} message.
Arguments Pending {A}.

(** The four bytes of one pixel, as [readPixels] and [getImageData]
    deliver them. *)
Record Pixel : Type := mkPixel { red : Z; green : Z; blue : Z; alpha : Z }.

(** The canvas as the script injected by [sampleCell] sees it:
    [getBoundingClientRect()] (its [left], [top], [width], [height] as a
    box), [width] and [height] of the bitmap,
    [getContext('webgl2') || getContext('webgl')] as its
    [readPixels(x, y, 1, 1, RGBA, UNSIGNED_BYTE, x)], which writes into
    the buffer [x] it is given, and [getContext('2d')] as
    [getImageData(x, y, 1, 1).data], which throws on a canvas that is not
    origin-clean. *)
Record Canvas : Type := mkCanvas {
  clientRect : BoundingBox.t;
  canvasWidth : Z;
  canvasHeight : Z;
  webgl : option (Z -> Z -> Pixel -> Pixel);
  context2d : option (Z -> Z -> outcome Pixel)
}.

(** The element behind the handle: a canvas, or some other element the
    locator matched (it has no [getContext]). *)
Inductive Element : Type :=
| CanvasElement (can : Canvas)
| OtherElement (clientRect : BoundingBox.t).

(** A decoded capture: [createImageBitmap] of the PNG drawn on an
    [OffscreenCanvas]. *)
Record Bitmap : Type := mkBitmap {
  bitmapWidth : Z;
  bitmapHeight : Z;
  pixelAt : Z -> Z -> Pixel
}.

(** What the collaborators answer during one call of [sampleCell]:
    [canvas.elementHandle()], whether the page can still run an injected
    script ([page.evaluate] rejects otherwise), [canvas.boundingBox()],
    [page.screenshot({ clip, type: 'png' })] and the
    [createImageBitmap] of its bytes. *)
Record Env (Png : Type) : Type := mkEnv {
  elementHandle : outcome (option Element);
  directReadRuns : bool;
  boundingBox : outcome (option BoundingBox.t);
  screenshot : Clip.t -> outcome Png;
  captureReadRuns : bool;
  createImageBitmap : Png -> outcome Bitmap
}.
Arguments elementHandle {Png} _.
Arguments directReadRuns {Png} _.
Arguments boundingBox {Png} _.
Arguments screenshot {Png} _ _.
Arguments captureReadRuns {Png} _.
Arguments createImageBitmap {Png} _ _.

(** The steps [sampleCell] takes on its collaborators. *)
Inductive step : Type :=
| StepElementHandle
| StepDirectRead
| StepBoundingBox
| StepScreenshot (clip : Clip.t)
| StepCaptureRead.

(** [[Math.round(r / n), Math.round(g / n), Math.round(b / n),
    Math.round(a / n)]] for the channel sums of [n] pixels. *)
Definition average (sum : Pixel) (n : Z) : RGBA :=
  [ Js.Math_round (inject_Z (red sum) / inject_Z n);
    Js.Math_round (inject_Z (green sum) / inject_Z n);
    Js.Math_round (inject_Z (blue sum) / inject_Z n);
    Js.Math_round (inject_Z (alpha sum) / inject_Z n) ]%Q.

Definition addPixel (sum p : Pixel) : Pixel :=
  {| red := red sum + red p; green := green sum + green p;
     blue := blue sum + blue p; alpha := alpha sum + alpha p |}.

(** The offsets of [for (dy = -1; dy <= 1; dy++) for (dx = -1; dx <= 1;
    dx++)], as [(dx, dy)]. *)
Definition neighbourhood : list (Z * Z) :=
  flat_map (fun dy => map (fun dx => (dx, dy)) [-1; 0; 1]) [-1; 0; 1].

(** [avg(read)]: [read] is given the buffer of the previous read (only
    the WebGL reader has one) and may throw. *)
Fixpoint sumReads (read : Z -> Z -> Pixel -> outcome Pixel) (cx cy : Z)
    (offsets : list (Z * Z)) (buffer sum : Pixel) (n : Z) : outcome (Pixel * Z) :=
  match offsets with
  | [] => Ok (sum, n)
  | (dx, dy) :: rest =>
      match read (cx + dx) (cy + dy) buffer with
      | Ok p => sumReads read cx cy rest p (addPixel sum p) (n + 1)
      | Throw e => Throw e
      end
  end.

Definition avg (read : Z -> Z -> Pixel -> outcome Pixel) (cx cy : Z) : outcome RGBA :=
  match sumReads read cx cy neighbourhood (mkPixel 0 0 0 0) (mkPixel 0 0 0 0) 0 with
  | Ok (sum, n) => Ok (average sum n)
  | Throw e => Throw e
  end.

(** [requestAnimationFrame(() => { resolve(f()) })] inside the executor
    of [new Promise]: the callback runs after the executor has returned,
    so an exception it raises rejects nothing and the promise is never
    settled. *)
Definition resolveInAnimationFrame {A : Type} (callback : outcome A) : settlement A :=
  match callback with
  | Ok a => Resolved a
  | Throw _ => Pending
  end.

(** The script of tier 1, run in the page on the handle.  The pixel read
    is the one of a client rectangle of positive size and of grid extents
    other than 0: a division by 0 is [Infinity] or [NaN] in JavaScript
    and 0 here. *)
Definition directRead (c : Element) (grid : Grid) (col row : Z) : settlement RGBA :=
  match c with
  | OtherElement _ =>
      (* [can.getContext] is not a function: thrown by the executor. *)
      Rejected "can.getContext is not a function"
  | CanvasElement can =>
      let rect := clientRect can in
      let sx := (BoundingBox.x rect + (BoundingBox.width rect / inject_Z (cols grid)) * (inject_Z col + (1 # 2)))%Q in
      let sy := (BoundingBox.y rect + (BoundingBox.height rect / inject_Z (rows grid)) * (inject_Z row + (1 # 2)))%Q in
      let cx := Js.round_Z ((sx - BoundingBox.x rect) * (inject_Z (canvasWidth can) / BoundingBox.width rect)) in
      let cy := Js.round_Z ((sy - BoundingBox.y rect) * (inject_Z (canvasHeight can) / BoundingBox.height rect)) in
      match webgl can with
      | Some readPixels =>
          resolveInAnimationFrame
            (avg (fun x y buffer => Ok (readPixels x (canvasHeight can - 1 - y) buffer)) cx cy)
      | None =>
          match context2d can with
          | Some getImageData =>
              resolveInAnimationFrame (avg (fun x y _ => getImageData x y) cx cy)
          | None =>
              (* [ctx] is [null]: the first [ctx!.getImageData] throws. *)
              resolveInAnimationFrame
                (avg (fun _ _ _ => Throw "ctx is null") cx cy)
          end
      end
  end.

(** The five sample points [[.5, .5], [.25, .5], [.75, .5], [.5, .25],
    [.5, .75]]. *)
Definition pts : list (Q * Q) :=
  [ (1 # 2, 1 # 2); (1 # 4, 1 # 2); (3 # 4, 1 # 2); (1 # 2, 1 # 4); (1 # 2, 3 # 4) ]%Q.

Definition sumPoints (bmp : Bitmap) : Pixel * Z :=
  fold_left
    (fun acc f =>
       let x := Qfloor (inject_Z (bitmapWidth bmp) * fst f) in
       let y := Qfloor (inject_Z (bitmapHeight bmp) * snd f) in
       (addPixel (fst acc) (pixelAt bmp x y), snd acc + 1))
    pts (mkPixel 0 0 0 0, 0).

(** The script of tier 2, an [async] function: what it throws rejects
    its promise. *)
Definition captureRead {Png : Type} (env : Env Png) (bytes : Png) : settlement RGBA :=
  match createImageBitmap env bytes with
  | Throw e => Rejected e
  | Ok bmp => let (sum, n) := sumPoints bmp in Resolved (average sum n)
  end.

(** [page.evaluate(script, ...)]: the promise of the script, or a
    rejection when the page cannot run it. *)
Definition evaluate {A : Type} (runs : bool) (script : settlement A) : settlement A :=
  if runs then script else Rejected "page.evaluate: execution context was destroyed".

(** [promise.catch(() => null)] *)
Definition catch_null {A : Type} (p : settlement A) : settlement (option A) :=
  match p with
  | Resolved a => Resolved (Some a)
  | Rejected _ => Resolved None
  | Pending => Pending
  end.

(** [sampleCell] with the steps it took.  [Resolved] is a returned colour,
    [Rejected] a thrown error, [Pending] a call that never returns. *)
Definition sampleCell {Png : Type} (env : Env Png) (grid : Grid) (col row : Z)
  : settlement RGBA * list step :=
  match elementHandle env with
  | Throw e => (Rejected e, [StepElementHandle])
  | Ok None => (Rejected "canvas not found", [StepElementHandle])
  | Ok (Some handle) =>
      match catch_null (evaluate (directReadRuns env) (directRead handle grid col row)) with
      | Pending => (Pending, [StepElementHandle; StepDirectRead])
      | Rejected e => (Rejected e, [StepElementHandle; StepDirectRead])
      | Resolved (Some rgba) => (Resolved rgba, [StepElementHandle; StepDirectRead])
      | Resolved None =>
          match boundingBox env with
          | Throw e => (Rejected e, [StepElementHandle; StepDirectRead; StepBoundingBox])
          | Ok None =>
              (Rejected "no canvas bbox", [StepElementHandle; StepDirectRead; StepBoundingBox])
          | Ok (Some box) =>
              let clip := cellClip box grid col row in
              match screenshot env clip with
              | Throw e =>
                  (Rejected e,
                   [StepElementHandle; StepDirectRead; StepBoundingBox; StepScreenshot clip])
              | Ok png =>
                  (evaluate (captureReadRuns env) (captureRead env png),
                   [StepElementHandle; StepDirectRead; StepBoundingBox;
                    StepScreenshot clip; StepCaptureRead])
              end
          end
      end
  end.

End ColorSampler.

(** ** GridScanner *)

Module GridScanner.

(** The components the constructor receives, as far as the scanner calls
    them: [mouseInteractions.hoverCell], [page.waitForTimeout],
    [tooltipDetector.getVisibleTooltips], [page.mouse.move] and
    [colorSampler.sampleCell].  The promise of the sampler can stay
    pending for good (its direct read resolves from inside an animation
    frame), so its answer is a settlement. *)
Record Deps (W : Type) : Type := mkDeps {
  hoverCell : Z -> Z -> HoverOptions -> W -> outcome unit * W;
  waitForTimeout : Q -> W -> outcome unit * W;
  getVisibleTooltips : W -> outcome (list Tooltip) * W;
  mouse_move : Q -> Q -> W -> outcome unit * W;
  sampleCell : Z -> Z -> W -> ColorSampler.settlement RGBA * W
}.
Arguments hoverCell {W} _ _ _ _ _.
Arguments waitForTimeout {W} _ _ _.
Arguments getVisibleTooltips {W} _ _.
Arguments mouse_move {W} _ _ _ _.
Arguments sampleCell {W} _ _ _ _.

(** The options of [scanAllCellsForTooltips]; [None] is a property left
    out.  The callback receives [{ current, total, cell: { col, row } }]. *)
Record ScanOptions (W : Type) : Type := mkScanOptions {
  hoverDelay : option Q;
  detectionSensitivity : option Q;
  skipEmptyCells : option bool;
  progressCallback : option (Z -> Z -> Z -> Z -> W -> outcome unit * W)
}.
Arguments mkScanOptions {W} _ _ _ _.
Arguments hoverDelay {W} _.
Arguments detectionSensitivity {W} _.
Arguments skipEmptyCells {W} _.
Arguments progressCallback {W} _.

(** [options || {}] *)
Definition noScanOptions {W : Type} : ScanOptions W := mkScanOptions None None None None.

(** An element of [results].  The optional [canvasChanges] and [hovered]
    of the declared type are never assigned and are left out. *)
Record CellResult : Type := mkCellResult {
  col : Z;
  row : Z;
  hasTooltip : bool;
  tooltipText : option string;
  baseline : option RGBA;
  colorTestingDisabled : option bool
}.

Module Summary.
Record t : Type := mk {
  hasAnyTooltips : bool;
  tooltipCells : list (Z * Z);
  domTooltips : nat;
  canvasTooltips : nat
}.
End Summary.

(** What [scanAllCellsForTooltips] resolves to. *)
Module ScanReport.
Record t : Type := mk {
  totalCells : Z;
  cellsWithTooltips : nat;
  results : list CellResult;
  colorTestingDisabled : bool;
  summary : Summary.t
}.
End ScanReport.

(** [const baselines = new Map<string, any>()]: the code that filled it
    was removed from the source, nothing is ever set. *)
Definition baselines : gmap string RGBA := ∅.

(** [`${col},${row}`] *)
Definition cellKey (col row : Z) : string := pretty col +:+ "," +:+ pretty row.

(** The profile the scans hover with:
    [{ moveSteps: 2, jitterAmount: 1, dwellTime: 20 }]. *)
Definition scanHover : HoverOptions := mkHoverOptions 2 1 20.

(** The locals of the loop that survive an iteration. *)
Record ScanAcc : Type := mkScanAcc { acc_results : list CellResult; processed : Z }.

(** The options and the result of [hasAnyTooltips].  The cap is a
    number like the others, whole or not. *)
Module QuickOptions.
Record t : Type := mk {
  maxCellsToCheck : option Q;
  hoverDelay : option Q;
  detectionSensitivity : option Q
}.
End QuickOptions.

Definition noQuickOptions : QuickOptions.t := QuickOptions.mk None None None.

Module QuickResult.
Record t : Type := mk {
  found : bool;
  firstTooltipAt : option (Z * Z);
  tooltipText : option string
}.
End QuickResult.

(** [Math.floor(n / Math.sqrt(cap))] for a grid extent [n >= 0] and a
    cap [cap > 0].  The largest integer [k] with [k <= n / sqrt cap] is
    the largest with [k * k * cap <= n * n], the integer square root of
    the floor of [n * n / cap] (lemmas [floor_div_sqrt_square] and
    [floor_div_sqrt_real]). *)
Definition floor_div_sqrt (n : Z) (cap : Q) : Z :=
  Z.sqrt (Qfloor (inject_Z (n * n) / cap)).

(** [Math.max(1, Math.floor(n / Math.sqrt(cap)))].  For a negative
    extent the quotient is negative and the stride 1.  For [cap <= 0]
    the square root is [0] or [NaN] and the stride [Infinity] or [NaN]:
    the loop is left after its first iteration, as with a stride of the
    whole extent. *)
Definition stride (n : Z) (cap : Q) : Z :=
  if Qle_bool cap 0 then Z.max 1 n
  else if n <? 0 then 1
  else Z.max 1 (floor_div_sqrt n cap).

(** The inner loop that fills [cellsToCheck]: [push], then [break] once
    the cap is reached. *)
Fixpoint pushCols (budget : nat) (col cols stepCol row : Z) (cap : Q) (cells : list (Z * Z))
  : list (Z * Z) :=
  match budget with
  | O => cells
  | S budget' =>
      if col <? cols then
        let cells := cells ++ [(col, row)] in
        if Qle_bool cap (inject_Z (Z.of_nat (length cells))) then cells
        else pushCols budget' (col + stepCol) cols stepCol row cap cells
      else cells
  end.

(** The outer loop, with its own [break] after the inner one. *)
Fixpoint pushRows (budget : nat) (row rows stepRow cols stepCol : Z) (cap : Q)
    (cells : list (Z * Z)) : list (Z * Z) :=
  match budget with
  | O => cells
  | S budget' =>
      if row <? rows then
        let cells := pushCols (Z.to_nat cols) 0 cols stepCol row cap cells in
        if Qle_bool cap (inject_Z (Z.of_nat (length cells))) then cells
        else pushRows budget' (row + stepRow) rows stepRow cols stepCol cap cells
      else cells
  end.

Definition cellsToCheck (grid : Grid) (maxCellsToCheck : Q) : list (Z * Z) :=
  let stepCol := stride (cols grid) maxCellsToCheck in
  let stepRow := stride (rows grid) maxCellsToCheck in
  pushRows (Z.to_nat (rows grid)) 0 (rows grid) stepRow (cols grid) stepCol
    maxCellsToCheck [].

Section WithDeps.

Context {W : Type} (deps : Deps W).

(** The [try { ... } catch (e) { }] of one cell: [cellResult] is only
    assigned to after the last call that can throw. *)
Definition hoverAndDetect (hoverDelay : Q) (cellResult : CellResult) : M W CellResult :=
  try_catch
    (let* _ := await (CallHoverCell (col cellResult) (row cellResult) scanHover)
                 (hoverCell deps (col cellResult) (row cellResult) scanHover) in
     let* _ := await (CallWaitForTimeout hoverDelay) (waitForTimeout deps hoverDelay) in
     let* domTooltips := await CallGetVisibleTooltips (getVisibleTooltips deps) in
     let cellResult :=
       match domTooltips with
       | first :: _ =>
           {| col := col cellResult; row := row cellResult;
              hasTooltip := true;
              tooltipText := or_undefined (text first);
              baseline := baseline cellResult;
              colorTestingDisabled := colorTestingDisabled cellResult |}
       | [] => cellResult
       end in
     ret {| col := col cellResult; row := row cellResult;
            hasTooltip := hasTooltip cellResult;
            tooltipText := tooltipText cellResult;
            baseline := baseline cellResult;
            colorTestingDisabled := Some true |})
    (fun _ => ret cellResult).

(** The body of the inner [for] of [scanAllCellsForTooltips]. *)
Definition scanCell (hoverDelay : Q) (skipEmptyCells : bool)
    (progressCallback : option (Z -> Z -> Z -> Z -> W -> outcome unit * W))
    (totalCells : Z) (row col : Z) (acc : ScanAcc) : M W ScanAcc :=
  let baseline := baselines !! cellKey col row in
  if negb (truthy baseline) && skipEmptyCells
  then ret {| acc_results := acc_results acc; processed := processed acc + 1 |}
  else
    let* _ :=
      match progressCallback with
      | Some callback =>
          await (CallProgress (processed acc + 1) totalCells col row)
                (callback (processed acc + 1) totalCells col row)
      | None => ret tt
      end in
    let cellResult :=
      {| col := col; row := row; hasTooltip := false; tooltipText := None;
         baseline := baseline; colorTestingDisabled := None |} in
    let* cellResult := hoverAndDetect hoverDelay cellResult in
    let acc := {| acc_results := acc_results acc ++ [cellResult];
                  processed := processed acc + 1 |} in
    let* _ := await (CallWaitForTimeout 10) (waitForTimeout deps 10) in
    ret acc.

Definition report (acc : ScanAcc) : ScanReport.t :=
  let results := acc_results acc in
  {| ScanReport.totalCells := processed acc;
     ScanReport.cellsWithTooltips := length (List.filter hasTooltip results);
     ScanReport.results := results;
     ScanReport.colorTestingDisabled := true;
     ScanReport.summary :=
       {| Summary.hasAnyTooltips := existsb hasTooltip results;
          Summary.tooltipCells := map (fun r => (col r, row r)) (List.filter hasTooltip results);
          Summary.domTooltips :=
            length (List.filter (fun r => hasTooltip r && truthy_string (tooltipText r)) results);
          Summary.canvasTooltips := 0 |} |}.

Definition scanAllCellsForTooltips (grid : Grid) (options : option (ScanOptions W))
  : M W ScanReport.t :=
  let options := match options with Some o => o | None => noScanOptions end in
  let hoverDelay := match hoverDelay options with Some d => d | None => 200%Q end in
  let skipEmptyCells := match skipEmptyCells options with Some b => b | None => true end in
  let progressCallback := progressCallback options in
  let totalCells := cols grid * rows grid in
  let* acc :=
    for_lt (Z.to_nat (rows grid)) 0 (rows grid) 1
      (fun row acc =>
         for_lt (Z.to_nat (cols grid)) 0 (cols grid) 1
           (fun col acc =>
              scanCell hoverDelay skipEmptyCells progressCallback totalCells row col acc)
           acc)
      {| acc_results := []; processed := 0 |} in
  let* _ :=
    try_catch
      (let* _ := await (CallMouseMove 0 0) (mouse_move deps 0 0) in
       await (CallWaitForTimeout 100) (waitForTimeout deps 100))
      (fun _ => ret tt) in
  ret (report acc).

(** [scanWithTextExtraction] strips [extractCanvasText] from the options
    and returns what the regular scan returns. *)
Definition scanWithTextExtraction (grid : Grid) (options : option (ScanOptions W))
  : M W ScanReport.t :=
  scanAllCellsForTooltips grid
    (Some match options with Some o => o | None => noScanOptions end).

(** *** hasAnyTooltips *)

(** How one iteration of [for (const cell of cellsToCheck)] ends: with
    the [return] from inside the loop, by going on to the next cell (also
    after the [catch], whose body is [continue]), or not at all, when the
    promise of the baseline sample is never settled. *)
Inductive verdict : Type :=
| Found (result : QuickResult.t)
| NextCell
| NeverReturns.

(** [await this.colorSampler.sampleCell(col, row)].  The sampler is the
    one of this repository and its promise can stay pending for good;
    the function that awaits it then never goes on, which is [None].
    The journal has the call as one that did not resolve. *)
Definition awaitSample (col row : Z) : M W (option RGBA) :=
  fun s =>
    match sampleCell deps col row (world s) with
    | (ColorSampler.Resolved rgba, w') =>
        (Ok (Some rgba),
         {| world := w'; journal := journal s ++ [(CallSampleCell col row, true)] |})
    | (ColorSampler.Rejected e, w') =>
        (Throw e, {| world := w'; journal := journal s ++ [(CallSampleCell col row, false)] |})
    | (ColorSampler.Pending, w') =>
        (Ok None, {| world := w'; journal := journal s ++ [(CallSampleCell col row, false)] |})
    end.

Definition checkCell (hoverDelay : Q) (cell : Z * Z) : M W verdict :=
  try_catch
    (let* baseline := awaitSample (fst cell) (snd cell) in
     match baseline with
     | None => ret NeverReturns
     | Some _ =>
         let* _ := await (CallHoverCell (fst cell) (snd cell) scanHover)
                     (hoverCell deps (fst cell) (snd cell) scanHover) in
         let* _ := await (CallWaitForTimeout hoverDelay) (waitForTimeout deps hoverDelay) in
         let* domTooltips := await CallGetVisibleTooltips (getVisibleTooltips deps) in
         match domTooltips with
         | first :: _ =>
             ret (Found {| QuickResult.found := true; QuickResult.firstTooltipAt := Some cell;
                           QuickResult.tooltipText := or_undefined (text first) |})
         | [] => ret NextCell
         end
     end)
    (fun _ => ret NextCell).

Fixpoint checkCells (hoverDelay : Q) (cells : list (Z * Z)) : M W verdict :=
  match cells with
  | [] => ret NextCell
  | cell :: rest =>
      let* r := checkCell hoverDelay cell in
      match r with
      | NextCell => checkCells hoverDelay rest
      | _ => ret r
      end
  end.

(** [{ found: false }] *)
Definition notFound : QuickResult.t :=
  {| QuickResult.found := false; QuickResult.firstTooltipAt := None;
     QuickResult.tooltipText := None |}.

(** [hasAnyTooltips]: [Some] is the object it resolves to, [None] a call
    that never returns. *)
Definition hasAnyTooltips (grid : Grid) (options : option QuickOptions.t)
  : M W (option QuickResult.t) :=
  let options := match options with Some o => o | None => noQuickOptions end in
  let maxCellsToCheck :=
    match QuickOptions.maxCellsToCheck options with
    | Some n => n
    | None => inject_Z (Z.min 20 (cols grid * rows grid))
    end in
  let hoverDelay := match QuickOptions.hoverDelay options with Some d => d | None => 150%Q end in
  let* r := checkCells hoverDelay (cellsToCheck grid maxCellsToCheck) in
  match r with
  | Found result => ret (Some result)
  | NeverReturns => ret None
  | NextCell =>
      let* _ := try_catch (await (CallMouseMove 0 0) (mouse_move deps 0 0))
                  (fun _ => ret tt) in
      ret (Some notFound)
  end.

End WithDeps.

(** *** selectCellsAndExtractText: the bounds *)

Record Region : Type := mkRegion { startCol : Z; startRow : Z; endCol : Z; endRow : Z }.

(** [actualStartCol], [actualEndCol], [actualStartRow], [actualEndRow],
    as returned in [region]. *)
Definition normalizeRegion (grid : Grid) (startCol startRow endCol endRow : Z) : Region :=
  {| startCol := Z.max 0 (Z.min startCol endCol);
     endCol := Z.min (cols grid - 1) (Z.max startCol endCol);
     startRow := Z.max 0 (Z.min startRow endRow);
     endRow := Z.min (rows grid - 1) (Z.max startRow endRow) |}.

(** [totalCells] of the result of [selectCellsAndExtractText]. *)
Definition regionTotalCells (r : Region) : Z :=
  (endCol r - startCol r + 1) * (endRow r - startRow r + 1).

(** The cells the two [for] loops of [selectCellsAndExtractText] go
    through, [row] from [startRow] while [row <= endRow], [col] likewise. *)
Definition regionCells (r : Region) : list (Z * Z) :=
  flat_map
    (fun row => map (fun col => (col, row))
                  (range (startCol r) (Z.to_nat (endCol r - startCol r + 1))))
    (range (startRow r) (Z.to_nat (endRow r - startRow r + 1))).

End GridScanner.


(** * The vocabulary of the properties *)

(** ** Geometry *)

Section GeometryVocabulary.

Local Open Scope Q_scope.

(** The edge a cell starts at along one axis: [origin + (extent / n) * i]. *)
Definition cellEdge (origin extent : Q) (n i : Z) : Q :=
  origin + (extent / inject_Z n) * inject_Z i.

Definition clipRight (c : ColorSampler.Clip.t) : Q :=
  ColorSampler.Clip.x c + ColorSampler.Clip.width c.

Definition clipBottom (c : ColorSampler.Clip.t) : Q :=
  ColorSampler.Clip.y c + ColorSampler.Clip.height c.

Definition inGrid (grid : Grid) (col row : Z) : Prop :=
  (0 <= col < cols grid)%Z /\ (0 <= row < rows grid)%Z.

Definition sumQ (l : list Q) : Q := fold_right Qplus 0 l.

(** The widths of the rectangles of one row, added up. *)
Definition rowWidthSum (box : BoundingBox.t) (grid : Grid) (row : Z) : Q :=
  sumQ (map (fun col => ColorSampler.Clip.width (ColorSampler.cellClip box grid col row))
            (range 0 (Z.to_nat (cols grid)))).

(** The three parts of the tiling property.  "Within rounding": each of
    the [cols] widths is rounded by less than one pixel. *)
Definition widthsSumToBox (box : BoundingBox.t) (grid : Grid) : Prop :=
  forall row, (0 <= row < rows grid)%Z ->
    Qabs (rowWidthSum box grid row - BoundingBox.width box) < inject_Z (cols grid).

Definition noOverlap (box : BoundingBox.t) (grid : Grid) : Prop :=
  (forall row c1 c2, inGrid grid c1 row -> inGrid grid c2 row -> (c1 < c2)%Z ->
      clipRight (ColorSampler.cellClip box grid c1 row)
      <= ColorSampler.Clip.x (ColorSampler.cellClip box grid c2 row)) /\
  (forall col r1 r2, inGrid grid col r1 -> inGrid grid col r2 -> (r1 < r2)%Z ->
      clipBottom (ColorSampler.cellClip box grid col r1)
      <= ColorSampler.Clip.y (ColorSampler.cellClip box grid col r2)).

Definition withinBox (box : BoundingBox.t) (grid : Grid) : Prop :=
  forall col row, inGrid grid col row ->
    let c := ColorSampler.cellClip box grid col row in
    BoundingBox.x box <= ColorSampler.Clip.x c /\ clipRight c <= BoundingBox.x box + BoundingBox.width box /\
    BoundingBox.y box <= ColorSampler.Clip.y c /\ clipBottom c <= BoundingBox.y box + BoundingBox.height box.

Definition tilesBox (box : BoundingBox.t) (grid : Grid) : Prop :=
  widthsSumToBox box grid /\ noOverlap box grid /\ withinBox box grid.

(** The tiling with the widths of every row adding up to the width of
    the box, nothing rounded. *)
Definition widthsSumExactly (box : BoundingBox.t) (grid : Grid) : Prop :=
  forall row, (0 <= row < rows grid)%Z ->
    rowWidthSum box grid row == BoundingBox.width box.

Definition tilesExactly (box : BoundingBox.t) (grid : Grid) : Prop :=
  widthsSumExactly box grid /\ noOverlap box grid /\ withinBox box grid.

(** A box on whole pixels: its corner at [(X, Y)], and cells of [kw] by
    [kh] pixels for the grid. *)
Definition wholeBox (grid : Grid) (X Y kw kh : Z) : BoundingBox.t :=
  BoundingBox.mk (inject_Z X) (inject_Z Y)
    (inject_Z (cols grid * kw)) (inject_Z (rows grid * kh)).

End GeometryVocabulary.

(** ** Cells and journals *)

(** The cells of a grid in the order of the scan: rows outside, columns
    inside, as [(col, row)]. *)
Definition rowMajor (grid : Grid) : list (Z * Z) :=
  flat_map (fun row => map (fun col => (col, row)) (range 0 (Z.to_nat (cols grid))))
           (range 0 (Z.to_nat (rows grid))).

(** Strictly increasing row, then column. *)
Definition cellLt (a b : Z * Z) : Prop :=
  snd a < snd b \/ (snd a = snd b /\ fst a < fst b).

(** The cells a journal shows a hover on, in the order of the calls. *)
Definition hovered (j : list (call * bool)) : list (Z * Z) :=
  flat_map (fun e => match fst e with
                     | CallHoverCell col row _ => [(col, row)]
                     | _ => []
                     end) j.

(** The cells a journal shows a baseline sample of, in the order of the
    calls: the cells [hasAnyTooltips] went to. *)
Definition sampled (j : list (call * bool)) : list (Z * Z) :=
  flat_map (fun e => match fst e with
                     | CallSampleCell col row => [(col, row)]
                     | _ => []
                     end) j.

(** The waits a journal shows, as [(selector, timeout)], in the order of
    the calls. *)
Definition waited (j : list (call * bool)) : list (string * Q) :=
  flat_map (fun e => match fst e with
                     | CallWaitFor sel t => [(sel, t)]
                     | _ => []
                     end) j.

(** A message names the timeout and the selectors: it goes on with the
    timeout in decimal after its opening words, and every selector occurs
    in it. *)
Definition namesAll (message : string) (timeout : Z) (selectors : list string) : Prop :=
  (exists post, message = "No tooltip found within " +:+ pretty timeout +:+ post) /\
  forall sel, In sel selectors -> exists pre post, message = pre +:+ sel +:+ post.

(** ** The scanner *)

Section ScannerVocabulary.

Import GridScanner.

Context {W : Type} (deps : Deps W).

(** The pause between two cells and the progress callback are outside
    the [try] of a cell; the statements below are about scans in which
    they do not throw. *)
Definition pauseResolves : Prop :=
  forall w, exists w', waitForTimeout deps 10 w = (Ok tt, w').

Definition callbackResolves
    (callback : option (Z -> Z -> Z -> Z -> W -> outcome unit * W)) : Prop :=
  match callback with
  | None => True
  | Some f => forall current total col row w, exists w', f current total col row w = (Ok tt, w')
  end.

(** What the journal and the result of one visited cell have to do with
    each other: the cell is the one hovered, a rejected call leaves the
    negative result, and a tooltip is only reported after a query that
    resolved. *)
Definition cellVisited (res : CellResult) (seg : list (call * bool)) : Prop :=
  hovered seg = [(col res, row res)] /\
  (forall c, In (c, false) seg -> hasTooltip res = false /\ tooltipText res = None) /\
  (hasTooltip res = true -> In (CallGetVisibleTooltips, true) seg).

Definition visitCoords (visits : list (CellResult * list (call * bool))) : list (Z * Z) :=
  map (fun v => (col (fst v), row (fst v))) visits.

Definition skipOf (options : option (ScanOptions W)) : bool :=
  match options with
  | Some o => match skipEmptyCells o with Some b => b | None => true end
  | None => true
  end.

Definition callbackOf (options : option (ScanOptions W))
  : option (Z -> Z -> Z -> Z -> W -> outcome unit * W) :=
  match options with
  | Some o => progressCallback o
  | None => None
  end.

Definition hoverDelayOf (options : option (ScanOptions W)) : Q :=
  match options with
  | Some o => match hoverDelay o with Some d => d | None => 200%Q end
  | None => 200%Q
  end.







End ScannerVocabulary.

(** ** The detector *)

Section DetectorVocabulary.

Import TooltipDetector.

Context {W : Type} (deps : Deps W).

Definition timeoutOf (options : option WaitOptions) : Z :=
  match options with
  | Some o => match timeout o with Some t => t | None => 3000 end
  | None => 3000
  end.

Definition selectorsOf (options : option WaitOptions) : list string :=
  match options with
  | Some o => match tooltipSelectors o with Some l => l | None => defaultSelectors end
  | None => defaultSelectors
  end.

(** [timeout / tooltipSelectors.length] *)
Definition shareOf (options : option WaitOptions) : Q :=
  (inject_Z (timeoutOf options) / inject_Z (Z.of_nat (length (selectorsOf options))))%Q.

(** No selector ever becomes visible: every wait runs into its timeout. *)
Definition neverVisible : Prop :=
  forall sel t w, exists e w', waitFor deps sel t w = (Throw e, w').

(** From the world [w] the selector becomes visible within [share] and
    its text, markup and box are read, leaving the world [w']. *)
Definition readsYield (share : Q) (sel : string) (w : W)
    (text : option string) (html : string) (box : option BoundingBox.t) (w' : W) : Prop :=
  exists w1 w2 w3,
    waitFor deps sel share w = (Ok tt, w1) /\
    textContent deps sel w1 = (Ok text, w2) /\
    innerHTML deps sel w2 = (Ok html, w3) /\
    locatorBoundingBox deps sel w3 = (Ok box, w').

(** The journal of an attempt that goes through. *)
Definition fullRead (share : Q) (sel : string) : list (call * bool) :=
  [ (CallWaitFor sel share, true); (CallTextContent sel, true);
    (CallInnerHTML sel, true); (CallBoundingBox sel, true) ].

End DetectorVocabulary.

(** ** The sampler *)

Section SamplerVocabulary.

Import ColorSampler.

Context {Png : Type}.

(** Tier 1 ended without a colour: [page.evaluate] rejected, which
    [.catch(() => null)] turns into [null]. *)
Definition directReadFailed (env : Env Png) (handle : Element) (grid : Grid) (col row : Z) : Prop :=
  exists e, evaluate (directReadRuns env) (directRead handle grid col row) = Rejected e.

(** Tier 2 cannot deliver: no box, or the capture or its decoding fails. *)
Definition captureFails (env : Env Png) (grid : Grid) (col row : Z) : Prop :=
  boundingBox env = Ok None \/
  (exists e, boundingBox env = Throw e) \/
  (exists box, boundingBox env = Ok (Some box) /\
     ((exists e, screenshot env (cellClip box grid col row) = Throw e) \/
      (exists png, screenshot env (cellClip box grid col row) = Ok png /\
         exists e, evaluate (captureReadRuns env) (captureRead env png) = Rejected e))).

End SamplerVocabulary.

(** ** A small page to run the scanner on

    The world is the cell under the pointer.  Hovering the cell (1, 0)
    throws; a tooltip is visible while the pointer is on the cell (2, 1). *)

Definition demoTooltip : Tooltip :=
  {| selector := ".tooltip"; index := 0; text := Some "Found tooltip";
     html := "<span>Found</span>"; boundingBox := Some (BoundingBox.mk 10 10 50 20) |}.

Definition demoDeps : GridScanner.Deps (option (Z * Z)) :=
  {| GridScanner.hoverCell := fun col row _ w =>
       if (col =? 1) && (row =? 0) then (Throw "hover failed", w) else (Ok tt, Some (col, row));
     GridScanner.waitForTimeout := fun _ w => (Ok tt, w);
     GridScanner.getVisibleTooltips := fun w =>
       match w with
       | Some (2, 1) => (Ok [demoTooltip], w)
       | _ => (Ok [], w)
       end;
     GridScanner.mouse_move := fun _ _ _ => (Ok tt, None);
     GridScanner.sampleCell := fun _ _ w =>
       (ColorSampler.Resolved [255; 255; 255; 255]%Q, w) |}.

Definition demoStart : state (option (Z * Z)) := mkState None [].

(** [{ skipEmptyCells: false }] *)
Definition scanEveryCell : GridScanner.ScanOptions (option (Z * Z)) :=
  GridScanner.mkScanOptions None None (Some false) None.

Definition demoScan : outcome GridScanner.ScanReport.t * state (option (Z * Z)) :=
  GridScanner.scanAllCellsForTooltips demoDeps (mkGrid 3 2) (Some scanEveryCell) demoStart.

Definition demoReport : GridScanner.ScanReport.t :=
  match fst demoScan with
  | Ok rep => rep
  | Throw _ => GridScanner.report (GridScanner.mkScanAcc [] 0)
  end.




(** ** A page to wait for tooltips on

    Every selector becomes visible at once; the text of [.a] cannot be
    read (its element is gone after the wait), everything else is read. *)

Definition visibleUnread : TooltipDetector.Deps unit :=
  {| TooltipDetector.waitFor := fun _ _ w => (Ok tt, w);
     TooltipDetector.textContent := fun sel w =>
       if String.eqb sel ".a" then (Throw "element is not attached", w)
       else (Ok (Some "tip"), w);
     TooltipDetector.innerHTML := fun _ w => (Ok "<b>tip</b>", w);
     TooltipDetector.locatorBoundingBox := fun _ w => (Ok None, w) |}.

(** [{ timeout: 1000, tooltipSelectors: ['.a', '.b'] }] and
    [{ timeout: 1000, tooltipSelectors: ['.a'] }] *)
Definition waitForAB : TooltipDetector.WaitOptions :=
  TooltipDetector.mkWaitOptions (Some 1000) (Some [".a"; ".b"]).

Definition waitForA : TooltipDetector.WaitOptions :=
  TooltipDetector.mkWaitOptions (Some 1000) (Some [".a"]).

(** ** Canvases to run the sampler on *)

Section SamplerPages.

Import ColorSampler.

(** A 2D canvas tainted by a cross-origin image, on a page where the box
    and the capture are available. *)
Definition taintedCanvas : Canvas :=
  {| clientRect := BoundingBox.mk 10 10 200 150; canvasWidth := 200; canvasHeight := 150;
     webgl := None;
     context2d := Some (fun _ _ => Throw "SecurityError: the canvas has been tainted") |}.

Definition whiteBitmap : Bitmap :=
  {| bitmapWidth := 50; bitmapHeight := 50; pixelAt := fun _ _ => mkPixel 255 255 255 255 |}.

Definition capturePage (handle : Element) : Env unit :=
  {| elementHandle := Ok (Some handle); directReadRuns := true;
     boundingBox := Ok (Some (BoundingBox.mk 10 10 200 150));
     screenshot := fun _ => Ok tt; captureReadRuns := true;
     createImageBitmap := fun _ => Ok whiteBitmap |}.

(** A WebGL canvas that is red everywhere. *)
Definition redCanvas : Canvas :=
  {| clientRect := BoundingBox.mk 10 10 200 150; canvasWidth := 200; canvasHeight := 150;
     webgl := Some (fun _ _ _ => mkPixel 255 0 0 255);
     context2d := None |}.

End SamplerPages.

(** The demo page with the sampler of this repository on the tainted
    canvas. *)
Definition taintedDeps : GridScanner.Deps (option (Z * Z)) :=
  {| GridScanner.hoverCell := GridScanner.hoverCell demoDeps;
     GridScanner.waitForTimeout := GridScanner.waitForTimeout demoDeps;
     GridScanner.getVisibleTooltips := GridScanner.getVisibleTooltips demoDeps;
     GridScanner.mouse_move := GridScanner.mouse_move demoDeps;
     GridScanner.sampleCell := fun col row w =>
       (fst (ColorSampler.sampleCell (capturePage (ColorSampler.CanvasElement taintedCanvas))
               (mkGrid 3 2) col row), w) |}.

(** * The methods that act on the page

    The methods of MouseInteractions, of TooltipDetector and of CanvasGrid
    that drive the Playwright page, and the text extraction of GridScanner.
    Their calls on the page are journalled in a trace of their own. *)

Module Page.

(** [{ button: 'right' }], or the default button. *)
Inductive Button : Type := LeftButton | RightButton.

(** [locator.first()] and [locator.nth(i)]. *)
Inductive which : Type := First | Nth (i : Z).

(** The calls on the page and on the locators. *)
Inductive event : Type :=
| CanvasBoundingBox
| ReadMousePos
| StoreMousePos (x y : Q)
| MouseMove (x y : Q)
| MouseClick (x y : Q) (button : Button)
| MouseDblclick (x y : Q)
| MouseDown
| MouseUp
| WaitForTimeout (ms : Q)
| Count (selector : string)
| IsVisible (selector : string) (element : which)
| TextContent (selector : string) (element : which)
| InnerHTML (selector : string) (element : which)
| ElementBoundingBox (selector : string) (element : which)
| Screenshot
| Hover (col row : Z) (options : HoverOptions)
| CaptureTooltip (col row : Z) (waitTime : Q) (selectors : list string)
| ConsoleWarn (col row : Z)
| CountNth (selector : string) (index : Z).

Section Traced.

Context {W : Type}.

Record traced : Type := mkTraced { page : W; trace : list (event * bool) }.

Definition T (A : Type) : Type := traced -> outcome A * traced.

Definition result {A : Type} (a : A) : T A := fun t => (Ok a, t).

Definition raise {A : Type} (message : string) : T A := fun t => (Throw message, t).

Definition seq {A B : Type} (m : T A) (k : A -> T B) : T B :=
  fun t =>
    match m t with
    | (Ok a, t') => k a t'
    | (Throw e, t') => (Throw e, t')
    end.

(** [try { body } catch (e) { handler(e) }] *)
Definition catch {A : Type} (body : T A) (handler : string -> T A) : T A :=
  fun t =>
    match body t with
    | (Ok a, t') => (Ok a, t')
    | (Throw e, t') => handler e t'
    end.

(** [promise.catch(() => v)] *)
Definition orElse {A : Type} (m : T A) (v : A) : T A := catch m (fun _ => result v).

(** [await op(...)] on the page, entered in the trace as [e]. *)
Definition perform {A : Type} (e : event) (op : W -> outcome A * W) : T A :=
  fun t =>
    let (r, w') := op (page t) in
    (r, {| page := w'; trace := trace t ++ [(e, resolved r)] |}).

(** [console.warn(...)]: an entry in the trace, nothing else. *)
Definition log (e : event) : T unit :=
  fun t => (Ok tt, {| page := page t; trace := trace t ++ [(e, true)] |}).

(** [for (let i = lo; i <= hi; i++) acc = body(i, acc)], on a budget of
    iterations; [hi] may be fractional.  The callers pass a budget the
    loop does not use up (lemma [for_le_budget]). *)
Fixpoint for_le {A : Type} (budget : nat) (i : Z) (hi : Q)
    (body : Z -> A -> T A) (acc : A) : T A :=
  match budget with
  | O => result acc
  | S budget' =>
      if Qle_bool (inject_Z i) hi
      then seq (body i acc) (fun acc' => for_le budget' (i + 1) hi body acc')
      else result acc
  end.

(** The traversal of a list of indices, used to reason about the loops. *)
Fixpoint foldT {A I : Type} (body : I -> A -> T A) (l : list I) (acc : A) : T A :=
  match l with
  | [] => result acc
  | i :: rest => seq (body i acc) (fun acc' => foldT body rest acc')
  end.

(** [for (let i = lo; i < hi; i++) acc = body(i, acc)] for whole [hi]. *)
Fixpoint for_lt {A : Type} (budget : nat) (i hi : Z)
    (body : Z -> A -> T A) (acc : A) : T A :=
  match budget with
  | O => result acc
  | S budget' =>
      if i <? hi
      then seq (body i acc) (fun acc' => for_lt budget' (i + 1) hi body acc')
      else result acc
  end.

End Traced.

Arguments traced W : clear implicits.
Arguments T W A : clear implicits.

(** A local that is assigned to inside a [try] and read after its [catch]
    (an array that is pushed to, an object whose properties are set):
    it is kept beside the page, so that what was assigned before a call
    rejected stays assigned. *)
Section Locals.

Context {W L : Type}.

Definition onPage {A : Type} (op : W -> outcome A * W) : W * L -> outcome A * (W * L) :=
  fun wl => let (r, w') := op (fst wl) in (r, (w', snd wl)).

Definition getLocal : T (W * L) L := fun t => (Ok (snd (page t)), t).

Definition setLocal (l : L) : T (W * L) unit :=
  fun t => (Ok tt, {| page := (fst (page t), l); trace := trace t |}).

(** [let local = init; body; ... local ...] *)
Definition withLocal {A : Type} (init : L) (body : T (W * L) A) : T W (A * L) :=
  fun t =>
    match body {| page := (page t, init); trace := trace t |} with
    | (Ok a, t') => (Ok (a, snd (page t')), {| page := fst (page t'); trace := trace t' |})
    | (Throw e, t') => (Throw e, {| page := fst (page t'); trace := trace t' |})
    end.

End Locals.

End Page.

Notation "'let+' x ':=' m 'in' k" := (Page.seq m (fun x => k))
  (at level 10, x name, m at level 100, k at level 200, only parsing).

(** ** MouseInteractions: the pointer *)

Module MouseActions.

Import Page.

(** What the methods call: [this.canvas.boundingBox()]; the two scripts
    run with [page.evaluate], the one that reads
    [window._canvasGridMousePos] ([None] when it is not set) and the one
    that sets it; the mouse of the page; [page.waitForTimeout]. *)
Record Deps (W : Type) : Type := mkDeps {
  boundingBox : W -> outcome (option BoundingBox.t) * W;
  mousePos : W -> outcome (option Point.t) * W;
  storeMousePos : Q -> Q -> W -> outcome unit * W;
  mouse_move : Q -> Q -> W -> outcome unit * W;
  mouse_click : Q -> Q -> Button -> W -> outcome unit * W;
  mouse_dblclick : Q -> Q -> W -> outcome unit * W;
  mouse_down : W -> outcome unit * W;
  mouse_up : W -> outcome unit * W;
  waitForTimeout : Q -> W -> outcome unit * W
}.
Arguments boundingBox {W} _ _.
Arguments mousePos {W} _ _.
Arguments storeMousePos {W} _ _ _ _.
Arguments mouse_move {W} _ _ _ _.
Arguments mouse_click {W} _ _ _ _ _.
Arguments mouse_dblclick {W} _ _ _ _.
Arguments mouse_down {W} _ _.
Arguments mouse_up {W} _ _.
Arguments waitForTimeout {W} _ _ _.

(** The options of [hoverCell]; [None] is a property left out. *)
Module HoverParams.
Record t : Type := mk {
  moveSteps : option Q;
  jitterAmount : option Q;
  dwellTime : option Q
}.
End HoverParams.

Definition noHoverParams : HoverParams.t := HoverParams.mk None None None.

(** [{ x: 0, y: 0 }] *)
Definition origin : Point.t := {| Point.x := 0; Point.y := 0 |}.

(** [from + ((to - from) * i / steps)] on both axes. *)
Definition stepTowards (from to : Point.t) (i : Z) (steps : Q) : Point.t :=
  {| Point.x := (Point.x from + ((Point.x to - Point.x from) * inject_Z i / steps))%Q;
     Point.y := (Point.y from + ((Point.y to - Point.y from) * inject_Z i / steps))%Q |}.

Section WithDeps.

Context {W : Type} (deps : Deps W).

Definition getCellCenter (grid : Grid) (col row : Z) : T W Point.t :=
  let+ box := perform CanvasBoundingBox (boundingBox deps) in
  match MouseInteractions.getCellCenter box grid col row with
  | Ok p => result p
  | Throw e => raise e
  end.

Definition move (p : Point.t) : T W unit :=
  perform (MouseMove (Point.x p) (Point.y p)) (mouse_move deps (Point.x p) (Point.y p)).

Definition pause (ms : Q) : T W unit :=
  perform (WaitForTimeout ms) (waitForTimeout deps ms).

Definition clickCell (grid : Grid) (col row : Z) : T W unit :=
  let+ p := getCellCenter grid col row in
  perform (MouseClick (Point.x p) (Point.y p) LeftButton)
    (mouse_click deps (Point.x p) (Point.y p) LeftButton).

Definition doubleClickCell (grid : Grid) (col row : Z) : T W unit :=
  let+ p := getCellCenter grid col row in
  perform (MouseDblclick (Point.x p) (Point.y p))
    (mouse_dblclick deps (Point.x p) (Point.y p)).

Definition rightClickCell (grid : Grid) (col row : Z) : T W unit :=
  let+ p := getCellCenter grid col row in
  perform (MouseClick (Point.x p) (Point.y p) RightButton)
    (mouse_click deps (Point.x p) (Point.y p) RightButton).

Definition hoverCell (grid : Grid) (col row : Z) (options : option HoverParams.t)
  : T W unit :=
  let options := match options with Some o => o | None => noHoverParams end in
  let moveSteps := match HoverParams.moveSteps options with Some v => v | None => 3%Q end in
  let jitterAmount :=
    match HoverParams.jitterAmount options with Some v => v | None => 2%Q end in
  let dwellTime := match HoverParams.dwellTime options with Some v => v | None => 50%Q end in
  let+ target := getCellCenter grid col row in
  let+ currentPosition :=
    orElse
      (let+ pos := perform ReadMousePos (mousePos deps) in
       result match pos with Some p => p | None => origin end)
      origin in
  let+ _ :=
    if negb (Qle_bool moveSteps 1)
    then for_le (Z.to_nat (Qfloor moveSteps)) 1 moveSteps
           (fun i _ =>
              let+ _ := move (stepTowards currentPosition target i moveSteps) in
              pause 10)
           tt
    else result tt in
  let+ _ := move target in
  let+ _ :=
    if negb (Qle_bool jitterAmount 0)
    then
      let+ _ := pause 30 in
      let+ _ := move {| Point.x := (Point.x target + jitterAmount)%Q;
                        Point.y := Point.y target |} in
      let+ _ := pause 20 in
      move target
    else result tt in
  let+ _ := if negb (Qle_bool dwellTime 0) then pause dwellTime else result tt in
  orElse (perform (StoreMousePos (Point.x target) (Point.y target))
            (storeMousePos deps (Point.x target) (Point.y target)))
         tt.

Definition dragFromCellToCell (grid : Grid) (fromCol fromRow toCol toRow : Z) : T W unit :=
  let+ fromCenter := getCellCenter grid fromCol fromRow in
  let+ toCenter := getCellCenter grid toCol toRow in
  let+ _ := move fromCenter in
  let+ _ := pause 100 in
  let+ _ := perform MouseDown (mouse_down deps) in
  let+ _ := pause 100 in
  let steps := 5 in
  let+ _ :=
    for_le (Z.to_nat steps) 1 (inject_Z steps)
      (fun i _ =>
         let+ _ := move (stepTowards fromCenter toCenter i (inject_Z steps)) in
         pause 30)
      tt in
  let+ _ := move toCenter in
  let+ _ := pause 100 in
  perform MouseUp (mouse_up deps).

End WithDeps.

End MouseActions.

(** ** TooltipDetector: the queries *)

Module TooltipQueries.

Import Page.

(** What the detector calls: on [this.page.locator(selector)], [count()]
    and, on [first()] or [nth(i)] of it, [isVisible()], [textContent()],
    [innerHTML()] and [boundingBox()]; [page.waitForTimeout];
    [page.screenshot({ type: 'png' })] and the [toString('base64')] of its
    buffer. *)
Record Deps (W Png : Type) : Type := mkDeps {
  count : string -> W -> outcome Z * W;
  isVisible : string -> which -> W -> outcome bool * W;
  textContent : string -> which -> W -> outcome (option string) * W;
  innerHTML : string -> which -> W -> outcome string * W;
  locatorBoundingBox : string -> which -> W -> outcome (option BoundingBox.t) * W;
  waitForTimeout : Q -> W -> outcome unit * W;
  screenshot : W -> outcome Png * W;
  toBase64 : Png -> string
}.
Arguments count {W Png} _ _ _.
Arguments isVisible {W Png} _ _ _ _.
Arguments textContent {W Png} _ _ _ _.
Arguments innerHTML {W Png} _ _ _ _.
Arguments locatorBoundingBox {W Png} _ _ _ _.
Arguments waitForTimeout {W Png} _ _ _.
Arguments screenshot {W Png} _ _.
Arguments toBase64 {W Png} _ _.

(** The options of [hoverCellAndCaptureTooltip] and what it resolves to. *)
Module CaptureOptions.
Record t : Type := mk {
  waitTime : option Q;
  tooltipSelectors : option (list string);
  captureScreenshot : option bool
}.
End CaptureOptions.

Definition noCaptureOptions : CaptureOptions.t := CaptureOptions.mk None None None.

Module Captured.
Record t : Type := mk {
  text : option string;
  html : option string;
  selector : option string;
  visible : bool;
  screenshot : option string
}.
End Captured.

(** [{ visible: false }] *)
Definition notVisible : Captured.t := Captured.mk None None None false None.

(** What [hoverCellAndDetectCanvasTooltip] resolves to;
    [changedPixels] is always the empty array. *)
Module Detected.
Record t : Type := mk {
  detected : bool;
  changedPixels : list (Z * Z);
  colorTestingDisabled : bool
}.
End Detected.

(** [{ moveSteps: 3, jitterAmount: 2, dwellTime: 30 }] *)
Definition captureHover : HoverOptions := mkHoverOptions 3 2 30.

Section WithDeps.

Context {W Png : Type} (deps : Deps W Png).

(** The body of [for (let i = 0; i < count; i++)] in [getVisibleTooltips];
    the local is the array [tooltips]. *)
Definition pushIfVisible (selector : string) (i : Z) : T (W * list Tooltip) unit :=
  let element := Nth i in
  let+ visible := perform (IsVisible selector element)
                    (onPage (isVisible deps selector element)) in
  if (visible : bool) then
    let+ text := perform (TextContent selector element)
                   (onPage (textContent deps selector element)) in
    let+ html := perform (InnerHTML selector element)
                   (onPage (innerHTML deps selector element)) in
    let+ box := perform (ElementBoundingBox selector element)
                  (onPage (locatorBoundingBox deps selector element)) in
    let+ tooltips := getLocal in
    setLocal (tooltips ++ [mkTooltip selector i (or_undefined text) html box])
  else result tt.

(** The body of [for (const selector of selectors)]: the [catch] is
    [continue]. *)
Definition collectVisible (selector : string) : T (W * list Tooltip) unit :=
  catch
    (let+ n := perform (Count selector) (onPage (count deps selector)) in
     for_lt (Z.to_nat n) 0 n (fun i _ => pushIfVisible selector i) tt)
    (fun _ => result tt).

Definition getVisibleTooltips (tooltipSelectors : option (list string))
  : T W (list Tooltip) :=
  let selectors :=
    match tooltipSelectors with
    | Some l => l
    | None => TooltipDetector.defaultSelectors
    end in
  let+ r := withLocal [] (foldT (fun selector _ => collectVisible selector) selectors tt) in
  result (snd r).

(** The [try] block of one selector of [hoverCellAndCaptureTooltip]; the
    local is the object [tooltipInfo], [true] is the [break]. *)
Definition captureFrom (selector : string) : T (W * Captured.t) bool :=
  let+ n := perform (Count selector) (onPage (count deps selector)) in
  if 0 <? n then
    let+ visible := perform (IsVisible selector First)
                      (onPage (isVisible deps selector First)) in
    if (visible : bool) then
      let+ tooltipInfo := getLocal in
      let+ _ := setLocal {| Captured.text := Captured.text tooltipInfo;
                            Captured.html := Captured.html tooltipInfo;
                            Captured.selector := Captured.selector tooltipInfo;
                            Captured.visible := true;
                            Captured.screenshot := Captured.screenshot tooltipInfo |} in
      let+ tooltipInfo := getLocal in
      let+ _ := setLocal {| Captured.text := Captured.text tooltipInfo;
                            Captured.html := Captured.html tooltipInfo;
                            Captured.selector := Some selector;
                            Captured.visible := Captured.visible tooltipInfo;
                            Captured.screenshot := Captured.screenshot tooltipInfo |} in
      let+ text := perform (TextContent selector First)
                     (onPage (textContent deps selector First)) in
      let+ tooltipInfo := getLocal in
      let+ _ := setLocal {| Captured.text := or_undefined text;
                            Captured.html := Captured.html tooltipInfo;
                            Captured.selector := Captured.selector tooltipInfo;
                            Captured.visible := Captured.visible tooltipInfo;
                            Captured.screenshot := Captured.screenshot tooltipInfo |} in
      let+ html := perform (InnerHTML selector First)
                     (onPage (innerHTML deps selector First)) in
      let+ tooltipInfo := getLocal in
      let+ _ := setLocal {| Captured.text := Captured.text tooltipInfo;
                            Captured.html := or_undefined (Some html);
                            Captured.selector := Captured.selector tooltipInfo;
                            Captured.visible := Captured.visible tooltipInfo;
                            Captured.screenshot := Captured.screenshot tooltipInfo |} in
      result true
    else result false
  else result false.

(** [for (const selector of tooltipSelectors) { try { ...; break; }
    catch (e) { continue; } }] *)
Fixpoint captureFirst (selectors : list string) : T (W * Captured.t) unit :=
  match selectors with
  | [] => result tt
  | selector :: rest =>
      let+ stop := catch (captureFrom selector) (fun _ => result false) in
      if (stop : bool) then result tt else captureFirst rest
  end.

Definition hoverCellAndCaptureTooltip
    (hoverFn : Z -> Z -> HoverOptions -> W -> outcome unit * W) (col row : Z)
    (options : option CaptureOptions.t) : T W Captured.t :=
  let options := match options with Some o => o | None => noCaptureOptions end in
  let waitTime := match CaptureOptions.waitTime options with Some v => v | None => 500%Q end in
  let tooltipSelectors :=
    match CaptureOptions.tooltipSelectors options with
    | Some l => l
    | None => TooltipDetector.defaultSelectors
    end in
  let captureScreenshot :=
    match CaptureOptions.captureScreenshot options with Some b => b | None => false end in
  let+ _ := perform (Hover col row captureHover) (hoverFn col row captureHover) in
  let+ _ := perform (WaitForTimeout waitTime) (waitForTimeout deps waitTime) in
  let+ r := withLocal notVisible (captureFirst tooltipSelectors) in
  let tooltipInfo := snd r in
  if captureScreenshot && Captured.visible tooltipInfo then
    let+ screenshot := perform Screenshot (screenshot deps) in
    result {| Captured.text := Captured.text tooltipInfo;
              Captured.html := Captured.html tooltipInfo;
              Captured.selector := Captured.selector tooltipInfo;
              Captured.visible := Captured.visible tooltipInfo;
              Captured.screenshot := Some (toBase64 deps screenshot) |}
  else result tooltipInfo.

(** The options [sampleRegion] and [compareWithBase] are read and not
    used. *)
Definition hoverCellAndDetectCanvasTooltip
    (hoverFn : Z -> Z -> HoverOptions -> W -> outcome unit * W) (col row : Z)
    (waitTime : option Q) : T W Detected.t :=
  let waitTime := match waitTime with Some v => v | None => 500%Q end in
  let+ _ := perform (Hover col row captureHover) (hoverFn col row captureHover) in
  let+ _ := perform (WaitForTimeout waitTime) (waitForTimeout deps waitTime) in
  result {| Detected.detected := false; Detected.changedPixels := [];
            Detected.colorTestingDisabled := true |}.

End WithDeps.

End TooltipQueries.

(** ** Strings

    A [string] holds the UTF-8 bytes of a JavaScript string. *)

Module JsString.

Definition bytes (l : list nat) : string :=
  fold_right (fun n s => String (Ascii.ascii_of_nat n) s) EmptyString l.

(** The white space and the line terminators of ECMAScript, which
    [String.prototype.trim] removes: U+0009 to U+000D, U+0020, U+00A0,
    U+1680, U+2000 to U+200A, U+2028, U+2029, U+202F, U+205F, U+3000 and
    U+FEFF, in UTF-8. *)
Definition whiteSpace : list string :=
  map bytes
    ([ [9]; [10]; [11]; [12]; [13]; [32]; [194; 160]; [225; 154; 128] ]
     ++ map (fun n => [226; 128; n]) (seq 128 11)
     ++ [ [226; 128; 168]; [226; 128; 169]; [226; 128; 175]; [226; 129; 159];
          [227; 128; 128]; [239; 187; 191] ])%nat.

Fixpoint dropPrefix (p s : string) : option string :=
  match p with
  | EmptyString => Some s
  | String a p' =>
      match s with
      | String b s' => if Ascii.eqb a b then dropPrefix p' s' else None
      | EmptyString => None
      end
  end.

(** [s] without one leading white space character, if it has one. *)
Definition dropSpace (spaces : list string) (s : string) : option string :=
  fold_right (fun p found => match dropPrefix p s with Some rest => Some rest | None => found end)
             None spaces.

Fixpoint trimStartWith (spaces : list string) (budget : nat) (s : string) : string :=
  match budget with
  | O => s
  | S budget' =>
      match dropSpace spaces s with
      | Some rest => trimStartWith spaces budget' rest
      | None => s
      end
  end.

Definition trimStart (s : string) : string := trimStartWith whiteSpace (String.length s) s.

Fixpoint reverse (s acc : string) : string :=
  match s with
  | EmptyString => acc
  | String a s' => reverse s' (String a acc)
  end.

Definition trimEnd (s : string) : string :=
  reverse (trimStartWith (map (fun p => reverse p EmptyString) whiteSpace)
             (String.length s) (reverse s EmptyString))
          EmptyString.

Definition trim (s : string) : string := trimEnd (trimStart s).

End JsString.

(** ** GridScanner: the extraction of text *)

Module TextExtraction.

Import Page.

(** The components the scanner calls for the extraction:
    [tooltipDetector.hoverCellAndCaptureTooltip] with the hover of
    [mouseInteractions] bound, at a cell, with
    [{ waitTime, tooltipSelectors, captureScreenshot: false }];
    [page.waitForTimeout] and [page.mouse.move]. *)
Record Deps (W : Type) : Type := mkDeps {
  hoverCellAndCaptureTooltip :
    Z -> Z -> Q -> list string -> W -> outcome TooltipQueries.Captured.t * W;
  waitForTimeout : Q -> W -> outcome unit * W;
  mouse_move : Q -> Q -> W -> outcome unit * W
}.
Arguments hoverCellAndCaptureTooltip {W} _ _ _ _ _ _.
Arguments waitForTimeout {W} _ _ _.
Arguments mouse_move {W} _ _ _ _.

(** The options of [selectCellsAndExtractText]. *)
Module SelectOptions.
Record t : Type := mk {
  startCol : Z;
  startRow : Z;
  endCol : Z;
  endRow : Z;
  hoverDelay : option Q;
  tooltipSelectors : option (list string);
  includeCoordinates : option bool
}.
End SelectOptions.

(** ['tooltip' | 'none'] *)
Inductive Source : Type := SourceTooltip | SourceNone.

(** An element of [textContent]. *)
Module CellText.
Record t : Type := mk {
  col : Z;
  row : Z;
  text : option string;
  html : option string;
  source : Source
}.
End CellText.

(** What [selectCellsAndExtractText] resolves to. *)
Module Selection.
Record t : Type := mk {
  region : GridScanner.Region;
  totalCells : Z;
  cellsWithText : Z;
  textContent : list CellText.t;
  combinedText : option string
}.
End Selection.

(** The options of [extractCellText], [extractRowText] and
    [extractColumnText]. *)
Module ExtractOptions.
Record t : Type := mk {
  hoverDelay : option Q;
  tooltipSelectors : option (list string);
  includeCoordinates : option bool
}.
End ExtractOptions.

(** What [extractRowText] and [extractColumnText] resolve to: [index] is
    the row, respectively the column, asked for, and an element of
    [cellTexts] carries the column, respectively the row, of its cell. *)
Module LineText.
Record t : Type := mk {
  index : Z;
  cellTexts : list (Z * option string * Source);
  combinedText : option string
}.
End LineText.

(** The locals of the loops that survive an iteration. *)
Record Acc : Type := mkAcc { acc_textContent : list CellText.t; acc_cellsWithText : Z }.

(** [`(${col},${row}): ${text}`] *)
Definition withCoordinates (col row : Z) (text : string) : string :=
  "(" +:+ pretty col +:+ "," +:+ pretty row +:+ "): " +:+ text.

(** [cell.text && cell.text.trim()] *)
Definition hasText (cell : CellText.t) : bool :=
  match or_undefined (CellText.text cell) with
  | Some text => negb (String.eqb (JsString.trim text) "")
  | None => false
  end.

(** [textContent.filter(...).map(cell => cell.text!.trim())
    .filter(text => text.length > 0)], joined with [' | '], or
    [undefined] when nothing is left. *)
Definition combine (textContent : list CellText.t) : option string :=
  let cellTexts :=
    List.filter (fun text => negb (String.length text =? 0)%nat)
      (map (fun cell => JsString.trim match CellText.text cell with
                                      | Some text => text
                                      | None => ""
                                      end)
           (List.filter hasText textContent)) in
  if (0 <? length cellTexts)%nat then Some (String.concat " | " cellTexts) else None.

Section WithDeps.

Context {W : Type} (deps : Deps W).

(** The body of the inner [for] of [selectCellsAndExtractText]. *)
Definition extractCell (hoverDelay : Q) (tooltipSelectors : list string)
    (includeCoordinates : bool) (row col : Z) (acc : Acc) : T W Acc :=
  let cellResult :=
    {| CellText.col := col; CellText.row := row; CellText.text := None;
       CellText.html := None; CellText.source := SourceNone |} in
  let+ r :=
    catch
      (let+ tooltipInfo :=
         perform (CaptureTooltip col row hoverDelay tooltipSelectors)
           (hoverCellAndCaptureTooltip deps col row hoverDelay tooltipSelectors) in
       let found :=
         TooltipQueries.Captured.visible tooltipInfo
         && truthy_string (TooltipQueries.Captured.text tooltipInfo) in
       let cellResult :=
         if found
         then {| CellText.col := col; CellText.row := row;
                 CellText.text := TooltipQueries.Captured.text tooltipInfo;
                 CellText.html := TooltipQueries.Captured.html tooltipInfo;
                 CellText.source := SourceTooltip |}
         else cellResult in
       let cellsWithText :=
         if found then acc_cellsWithText acc + 1 else acc_cellsWithText acc in
       let cellResult :=
         match or_undefined (CellText.text cellResult) with
         | Some text =>
             if includeCoordinates
             then {| CellText.col := col; CellText.row := row;
                     CellText.text := Some (withCoordinates col row text);
                     CellText.html := CellText.html cellResult;
                     CellText.source := CellText.source cellResult |}
             else cellResult
         | None => cellResult
         end in
       result (cellResult, cellsWithText))
      (fun _ =>
         let+ _ := log (ConsoleWarn col row) in
         result (cellResult, acc_cellsWithText acc)) in
  let acc := {| acc_textContent := acc_textContent acc ++ [fst r];
                acc_cellsWithText := snd r |} in
  let+ _ := perform (WaitForTimeout 50) (waitForTimeout deps 50) in
  result acc.

Definition selectCellsAndExtractText (grid : Grid) (options : SelectOptions.t)
  : T W Selection.t :=
  let hoverDelay :=
    match SelectOptions.hoverDelay options with Some d => d | None => 300%Q end in
  let tooltipSelectors :=
    match SelectOptions.tooltipSelectors options with
    | Some l => l
    | None => TooltipDetector.defaultSelectors
    end in
  let includeCoordinates :=
    match SelectOptions.includeCoordinates options with Some b => b | None => false end in
  let region :=
    GridScanner.normalizeRegion grid
      (SelectOptions.startCol options) (SelectOptions.startRow options)
      (SelectOptions.endCol options) (SelectOptions.endRow options) in
  let actualStartCol := GridScanner.startCol region in
  let actualEndCol := GridScanner.endCol region in
  let actualStartRow := GridScanner.startRow region in
  let actualEndRow := GridScanner.endRow region in
  let totalCells := (actualEndCol - actualStartCol + 1) * (actualEndRow - actualStartRow + 1) in
  let+ acc :=
    for_le (Z.to_nat (actualEndRow - actualStartRow + 1)) actualStartRow (inject_Z actualEndRow)
      (fun row acc =>
         for_le (Z.to_nat (actualEndCol - actualStartCol + 1)) actualStartCol
           (inject_Z actualEndCol)
           (fun col acc =>
              extractCell hoverDelay tooltipSelectors includeCoordinates row col acc)
           acc)
      {| acc_textContent := []; acc_cellsWithText := 0 |} in
  let combinedText := combine (acc_textContent acc) in
  let+ _ :=
    catch
      (let+ _ := perform (MouseMove 0 0) (mouse_move deps 0 0) in
       perform (WaitForTimeout 100) (waitForTimeout deps 100))
      (fun _ => result tt) in
  result {| Selection.region := region;
            Selection.totalCells := totalCells;
            Selection.cellsWithText := acc_cellsWithText acc;
            Selection.textContent := acc_textContent acc;
            Selection.combinedText := combinedText |}.

Definition noExtractOptions : ExtractOptions.t := ExtractOptions.mk None None None.

(** [result.textContent[0]?.text || null] *)
Definition extractCellText (grid : Grid) (col row : Z) (options : option ExtractOptions.t)
  : T W (option string) :=
  let options := match options with Some o => o | None => noExtractOptions end in
  let+ result_ :=
    selectCellsAndExtractText grid
      {| SelectOptions.startCol := col; SelectOptions.startRow := row;
         SelectOptions.endCol := col; SelectOptions.endRow := row;
         SelectOptions.hoverDelay := ExtractOptions.hoverDelay options;
         SelectOptions.tooltipSelectors := ExtractOptions.tooltipSelectors options;
         SelectOptions.includeCoordinates := None |} in
  result match Selection.textContent result_ with
         | first :: _ => or_undefined (CellText.text first)
         | [] => None
         end.

Definition extractRowText (grid : Grid) (row : Z) (options : option ExtractOptions.t)
  : T W LineText.t :=
  let options := match options with Some o => o | None => noExtractOptions end in
  let+ result_ :=
    selectCellsAndExtractText grid
      {| SelectOptions.startCol := 0; SelectOptions.startRow := row;
         SelectOptions.endCol := cols grid - 1; SelectOptions.endRow := row;
         SelectOptions.hoverDelay := ExtractOptions.hoverDelay options;
         SelectOptions.tooltipSelectors := ExtractOptions.tooltipSelectors options;
         SelectOptions.includeCoordinates := ExtractOptions.includeCoordinates options |} in
  result {| LineText.index := row;
            LineText.cellTexts :=
              map (fun cell => (CellText.col cell, CellText.text cell, CellText.source cell))
                  (Selection.textContent result_);
            LineText.combinedText := Selection.combinedText result_ |}.

Definition extractColumnText (grid : Grid) (col : Z) (options : option ExtractOptions.t)
  : T W LineText.t :=
  let options := match options with Some o => o | None => noExtractOptions end in
  let+ result_ :=
    selectCellsAndExtractText grid
      {| SelectOptions.startCol := col; SelectOptions.startRow := 0;
         SelectOptions.endCol := col; SelectOptions.endRow := rows grid - 1;
         SelectOptions.hoverDelay := ExtractOptions.hoverDelay options;
         SelectOptions.tooltipSelectors := ExtractOptions.tooltipSelectors options;
         SelectOptions.includeCoordinates := ExtractOptions.includeCoordinates options |} in
  result {| LineText.index := col;
            LineText.cellTexts :=
              map (fun cell => (CellText.row cell, CellText.text cell, CellText.source cell))
                  (Selection.textContent result_);
            LineText.combinedText := Selection.combinedText result_ |}.

End WithDeps.

End TextExtraction.

(** ** CanvasGrid: the locator and the grid *)

Module CanvasGrid.

Import Page.

(** [const DEFAULT_GRID = { cols: 8, rows: 6 }] *)
Definition DEFAULT_GRID : Grid := mkGrid 8 6.

(** What [this._grid] refers to: the object [DEFAULT_GRID] itself, or an
    object made by [gridSize] or [autoGridIfNeeded].  The test
    [this._grid !== DEFAULT_GRID] compares the objects, not their
    properties. *)
Inductive GridRef : Type :=
| TheDefault
| Own (grid : Grid).

(** The fields set by the constructor and the builder methods;
    [_locator] is [page.locator(_selector)], there exactly when
    [_selector] is. *)
Record t : Type := mk {
  _selector : option string;
  _nth : Z;
  _grid : GridRef
}.

(** [new CanvasGrid(page)] *)
Definition create : t := {| _selector := None; _nth := 0; _grid := TheDefault |}.

Definition locator (selector : string) (this : t) : t :=
  {| _selector := Some selector; _nth := _nth this; _grid := _grid this |}.

Definition nth (index : Z) (this : t) : t :=
  {| _selector := _selector this; _nth := index; _grid := _grid this |}.

(** [if (cols && rows) this._grid = { cols, rows }]: a number is falsy
    when it is 0. *)
Definition gridSize (cols rows : Z) (this : t) : t :=
  if negb (cols =? 0) && negb (rows =? 0)
  then {| _selector := _selector this; _nth := _nth this; _grid := Own (mkGrid cols rows) |}
  else this.

(** [get grid()] *)
Definition grid (this : t) : Grid :=
  match _grid this with
  | TheDefault => DEFAULT_GRID
  | Own g => g
  end.

(** What the methods call on [this._locator.nth(this._nth)]: [count()]
    and [boundingBox()]. *)
Record Deps (W : Type) : Type := mkDeps {
  count : string -> Z -> W -> outcome Z * W;
  boundingBox : string -> Z -> W -> outcome (option BoundingBox.t) * W
}.
Arguments count {W} _ _ _ _.
Arguments boundingBox {W} _ _ _ _.

(** [`no elements match "${this._selector}" at index ${this._nth}`] *)
Definition noMatch (selector : string) (index : Z) : string :=
  "no elements match " +:+ TooltipDetector.quote +:+ selector +:+ TooltipDetector.quote
    +:+ " at index " +:+ pretty index.

(** The buckets of the automatic grid. *)
Definition autoGrid (rect : BoundingBox.t) : Grid :=
  let maxDim := Js.Math_max (BoundingBox.width rect) (BoundingBox.height rect) in
  if negb (Qle_bool 400 maxDim) then mkGrid 6 4
  else if negb (Qle_bool 900 maxDim) then mkGrid 10 8
  else mkGrid 14 10.

Section WithDeps.

Context {W : Type} (deps : Deps W).

(** [canvas()]: the locator it returns is given by the selector and the
    index. *)
Definition canvas (this : t) : T W (string * Z) :=
  match _selector this with
  | None => raise "call .locator(selector) first"
  | Some selector =>
      let+ n := perform (CountNth selector (_nth this)) (count deps selector (_nth this)) in
      if n =? 0 then raise (noMatch selector (_nth this))
      else result (selector, _nth this)
  end.

Definition autoGridIfNeeded (this : t) : T W t :=
  match _grid this with
  | Own _ => result this
  | TheDefault =>
      let+ canvas := canvas this in
      let+ rect := perform CanvasBoundingBox (boundingBox deps (fst canvas) (snd canvas)) in
      match rect with
      | None => result this
      | Some rect =>
          result {| _selector := _selector this; _nth := _nth this;
                    _grid := Own (autoGrid rect) |}
      end
  end.

End WithDeps.

End CanvasGrid.
(** ** The pointer: vocabulary *)

Section PointerVocabulary.

Import Page MouseActions.

Context {W : Type} (deps : Deps W).

Definition coords (p : Point.t) : Q * Q := (Point.x p, Point.y p).

(** The position [hoverCell] starts from, given what the script that
    reads [window._canvasGridMousePos] answered: the stored position, or
    the origin when nothing was stored or the script rejected. *)
Definition startFrom (answer : outcome (option Point.t)) : Point.t :=
  match answer with
  | Ok (Some p) => p
  | _ => origin
  end.

(** The positions a trace shows a [mouse.move] to, the pauses it shows,
    and what it shows done to the button, in the order of the calls. *)
Definition moves (tr : list (event * bool)) : list (Q * Q) :=
  flat_map (fun e => match fst e with MouseMove x y => [(x, y)] | _ => [] end) tr.

Definition pauses (tr : list (event * bool)) : list Q :=
  flat_map (fun e => match fst e with WaitForTimeout ms => [ms] | _ => [] end) tr.

Definition isButton (c : event) : bool :=
  match c with MouseDown | MouseUp => true | _ => false end.

Definition buttons (tr : list (event * bool)) : list (event * bool) :=
  List.filter (fun e => isButton (fst e)) tr.

Definition allResolved (calls : list event) : list (event * bool) :=
  map (fun c => (c, true)) calls.

(** The call on the page behind an entry of the pointer. *)
Definition exec (c : event) : W -> outcome unit * W :=
  match c with
  | MouseMove x y => mouse_move deps x y
  | MouseDown => mouse_down deps
  | MouseUp => mouse_up deps
  | WaitForTimeout ms => waitForTimeout deps ms
  | _ => fun w => (Ok tt, w)
  end.

(** A list of calls made one after the other, up to the first that
    rejects. *)
Definition playback (calls : list event) : T W unit :=
  foldT (fun c _ => perform c (exec c)) calls tt.

(** The mouse and the timer do what they are asked. *)
Definition pointerResolves : Prop :=
  (forall x y w, exists w', mouse_move deps x y w = (Ok tt, w')) /\
  (forall ms w, exists w', waitForTimeout deps ms w = (Ok tt, w')).

Definition buttonResolves : Prop :=
  (forall w, exists w', mouse_down deps w = (Ok tt, w')) /\
  (forall w, exists w', mouse_up deps w = (Ok tt, w')).

Definition stepsOf (options : option HoverParams.t) : Q :=
  match HoverParams.moveSteps match options with Some o => o | None => noHoverParams end with
  | Some v => v
  | None => 3%Q
  end.

Definition jitterOf (options : option HoverParams.t) : Q :=
  match HoverParams.jitterAmount match options with Some o => o | None => noHoverParams end with
  | Some v => v
  | None => 2%Q
  end.

Definition dwellOf (options : option HoverParams.t) : Q :=
  match HoverParams.dwellTime match options with Some o => o | None => noHoverParams end with
  | Some v => v
  | None => 50%Q
  end.

(** How often the stepping loop of [hoverCell] runs. *)
Definition stepCount (steps : Q) : nat :=
  if Qle_bool steps 1 then 0%nat else Z.to_nat (Qfloor steps).

(** The calls [hoverCell] makes on the mouse and the timer between
    reading the stored position and storing the new one. *)
Definition hoverCalls (start target : Point.t) (steps jitter dwell : Q) : list event :=
  flat_map (fun i => [ MouseMove (Point.x (stepTowards start target i steps))
                                 (Point.y (stepTowards start target i steps));
                       WaitForTimeout 10 ])
           (range 1 (stepCount steps))
  ++ [MouseMove (Point.x target) (Point.y target)]
  ++ (if Qle_bool jitter 0 then []
      else [ WaitForTimeout 30; MouseMove (Point.x target + jitter)%Q (Point.y target);
             WaitForTimeout 20; MouseMove (Point.x target) (Point.y target) ])
  ++ (if Qle_bool dwell 0 then [] else [WaitForTimeout dwell]).

(** The pauses of one [hoverCell], added up. *)
Definition hoverTime (steps jitter dwell : Q) : Q :=
  (10 * inject_Z (Z.of_nat (stepCount steps))
   + (if Qle_bool jitter 0 then 0 else 50)
   + (if Qle_bool dwell 0 then 0 else dwell))%Q.

(** The calls of a drag once both centres are known. *)
Definition dragCalls (fromCenter toCenter : Point.t) : list event :=
  [ MouseMove (Point.x fromCenter) (Point.y fromCenter); WaitForTimeout 100;
    MouseDown; WaitForTimeout 100 ]
  ++ flat_map (fun i => [ MouseMove (Point.x (stepTowards fromCenter toCenter i 5))
                                    (Point.y (stepTowards fromCenter toCenter i 5));
                          WaitForTimeout 30 ])
              (range 1 5)
  ++ [ MouseMove (Point.x toCenter) (Point.y toCenter); WaitForTimeout 100; MouseUp ].

End PointerVocabulary.

Section ClickVocabulary.

Import Page MouseActions.

Context {W : Type} (deps : Deps W).

(** A method that asks for the box of the canvas and then makes the one
    call [ev x y] on the mouse, at the centre the cell has in the box the
    page answered. *)
Definition landsAtCenter (m : T W unit) (ev : Q -> Q -> event)
    (grid : Grid) (col row : Z) (t : traced W) : Prop :=
  exists r seg w',
    m t = (r, mkTraced w' (trace t ++ seg)) /\
    (forall box w1,
       boundingBox deps (page t) = (Ok (Some box), w1) ->
       exists p b,
         MouseInteractions.getCellCenter (Some box) grid col row = Ok p /\
         seg = [(CanvasBoundingBox, true); (ev (Point.x p) (Point.y p), b)] /\
         b = resolved r) /\
    (forall w1, boundingBox deps (page t) = (Ok None, w1) ->
       r = Throw "no canvas bbox" /\ seg = [(CanvasBoundingBox, true)]) /\
    (forall e w1, boundingBox deps (page t) = (Throw e, w1) ->
       r = Throw e /\ seg = [(CanvasBoundingBox, false)]).

End ClickVocabulary.

(** ** The queries of the detector: vocabulary *)

(** The elements a selector matches on a page that does not change while
    it is queried. *)
Module Dom.
Record element : Type := mk {
  visible : bool;
  text : option string;
  html : string;
  box : option BoundingBox.t
}.
End Dom.

Section QueryVocabulary.

Import Page TooltipQueries.

(** Every call of a piece of trace resolved. *)
Definition clean (seg : list (event * bool)) : Prop :=
  Forall (fun e => snd e = true) seg.

(** A piece of trace in which a call that rejects is the last call. *)
Definition stopsAtRejection (seg : list (event * bool)) : Prop :=
  clean seg \/ exists pre c, seg = pre ++ [(c, false)] /\ clean pre.

Definition elementAt (elements : list Dom.element) (el : which) : option Dom.element :=
  match el with
  | First => nth_error elements 0
  | Nth i => if i <? 0 then None else nth_error elements (Z.to_nat i)
  end.

(** The page with the elements [dom]: the calls on a locator answer from
    [dom] and change nothing; a call on an element that is not there
    rejects, except [isVisible()], which is [false]. *)
Definition staticPage (dom : string -> list Dom.element) : Deps unit unit :=
  {| count := fun sel w => (Ok (Z.of_nat (length (dom sel))), w);
     isVisible := fun sel el w =>
       (Ok match elementAt (dom sel) el with Some e => Dom.visible e | None => false end, w);
     textContent := fun sel el w =>
       (match elementAt (dom sel) el with
        | Some e => Ok (Dom.text e)
        | None => Throw "locator.textContent: Timeout"
        end, w);
     innerHTML := fun sel el w =>
       (match elementAt (dom sel) el with
        | Some e => Ok (Dom.html e)
        | None => Throw "locator.innerHTML: Timeout"
        end, w);
     locatorBoundingBox := fun sel el w =>
       (match elementAt (dom sel) el with
        | Some e => Ok (Dom.box e)
        | None => Throw "locator.boundingBox: Timeout"
        end, w);
     waitForTimeout := fun _ w => (Ok tt, w);
     screenshot := fun w => (Ok tt, w);
     toBase64 := fun _ => "iVBORw0KGgo=" |}.

(** The visible ones among [elements], the first of which has index [i],
    as tooltips of the selector [sel]. *)
Fixpoint visibleFrom (sel : string) (i : Z) (elements : list Dom.element) : list Tooltip :=
  match elements with
  | [] => []
  | e :: rest =>
      (if Dom.visible e
       then [mkTooltip sel i (or_undefined (Dom.text e)) (Dom.html e) (Dom.box e)]
       else [])
      ++ visibleFrom sel (i + 1) rest
  end.

End QueryVocabulary.

Section CollectVocabulary.

Import Page TooltipQueries.

Context {W Png : Type} (deps : Deps W Png).

(** The indices of the elements a piece of trace shows a resolved
    [boundingBox()] of, the last of the reads before an element is
    pushed, in the order of the calls. *)
Definition boxesRead (seg : list (event * bool)) : list Z :=
  flat_map (fun e => match e with
                     | (ElementBoundingBox _ (Nth i), true) => [i]
                     | _ => []
                     end) seg.

(** The indices of the elements a piece of trace shows [isVisible()]
    asked of, in the order of the calls. *)
Definition visited (seg : list (event * bool)) : list Z :=
  flat_map (fun e => match fst e with
                     | IsVisible _ (Nth i) => [i]
                     | _ => []
                     end) seg.

(** The calls [rest] that follow the [count()] of a selector: none when
    it rejected ([b] is whether it resolved); otherwise the elements are
    gone through from the first one on, up to the number the page
    answered, all of them unless a call rejected. *)
Definition queried (sel : string) (b : bool) (rest : list (event * bool)) : Prop :=
  if b
  then exists w0 n w1,
         count deps sel w0 = (Ok n, w1) /\
         (exists later, range 0 (Z.to_nat n) = visited rest ++ later) /\
         (clean rest -> visited rest = range 0 (Z.to_nat n))
  else rest = [].

(** The tooltip holds what the page answered for its element: the
    element was visible, and then its text (left out when empty), its
    markup and its box were read, one call after the other. *)
Definition readFrom (sel : string) (tip : Tooltip) : Prop :=
  exists w0 w1 txt w2 w3 w4,
    isVisible deps sel (Nth (index tip)) w0 = (Ok true, w1) /\
    textContent deps sel (Nth (index tip)) w1 = (Ok txt, w2) /\
    text tip = or_undefined txt /\
    innerHTML deps sel (Nth (index tip)) w2 = (Ok (html tip), w3) /\
    locatorBoundingBox deps sel (Nth (index tip)) w3 = (Ok (boundingBox tip), w4).

(** The tooltips the query of one selector added, against the calls it
    made: they are the elements whose reads went through, one tooltip for
    each resolved read of a box and in that order, each an element of
    that selector that was visible, holding what the page answered; they
    come by increasing index, and none has an empty text. *)
Definition fromSelector (sel : string) (seg : list (event * bool)) (tips : list Tooltip)
  : Prop :=
  Forall (fun tip =>
            selector tip = sel /\ 0 <= index tip /\ text tip <> Some ""%string /\
            readFrom sel tip /\
            In (IsVisible sel (Nth (index tip)), true) seg /\
            In (ElementBoundingBox sel (Nth (index tip)), true) seg) tips /\
  map index tips = boxesRead seg /\
  Sorted.StronglySorted Z.lt (map index tips).

End CollectVocabulary.

Section CaptureVocabulary.

Import Page TooltipQueries.

Definition captureSelectorsOf (options : option CaptureOptions.t) : list string :=
  match CaptureOptions.tooltipSelectors
          match options with Some o => o | None => noCaptureOptions end with
  | Some l => l
  | None => TooltipDetector.defaultSelectors
  end.

Definition waitTimeOf (options : option CaptureOptions.t) : Q :=
  match CaptureOptions.waitTime match options with Some o => o | None => noCaptureOptions end with
  | Some v => v
  | None => 500%Q
  end.

Definition captureScreenshotOf (options : option CaptureOptions.t) : bool :=
  match CaptureOptions.captureScreenshot
          match options with Some o => o | None => noCaptureOptions end with
  | Some b => b
  | None => false
  end.

(** What holds of every [tooltipInfo]: it names a selector exactly when
    it is visible, the selector is one of those asked for, text and markup
    are only there when it is visible and are never empty. *)
Definition wellFormed (selectors : list string) (info : Captured.t) : Prop :=
  (Captured.visible info = true <-> exists s, Captured.selector info = Some s) /\
  (forall s, Captured.selector info = Some s -> In s selectors) /\
  (Captured.visible info = false -> Captured.text info = None /\ Captured.html info = None) /\
  Captured.text info <> Some ""%string /\ Captured.html info <> Some ""%string.

(** The first of the selectors whose first element is visible, with that
    element. *)
Fixpoint firstVisible (dom : string -> list Dom.element) (selectors : list string)
  : option (string * Dom.element) :=
  match selectors with
  | [] => None
  | sel :: rest =>
      match dom sel with
      | e :: _ => if Dom.visible e then Some (sel, e) else firstVisible dom rest
      | [] => firstVisible dom rest
      end
  end.

(** The [tooltipInfo] for the element [e] of the selector [sel]. *)
Definition capturedFrom (found : option (string * Dom.element)) : Captured.t :=
  match found with
  | Some (sel, e) =>
      {| Captured.text := or_undefined (Dom.text e);
         Captured.html := or_undefined (Some (Dom.html e));
         Captured.selector := Some sel;
         Captured.visible := true;
         Captured.screenshot := None |}
  | None => notVisible
  end.

End CaptureVocabulary.

Section CaptureTraceVocabulary.

Import Page TooltipQueries.

(** A piece of trace made of calls on locators only. *)
Definition locatorOnly (seg : list (event * bool)) : Prop :=
  Forall (fun e => match fst e with
                   | Count _ | IsVisible _ _ | TextContent _ _ | InnerHTML _ _
                   | ElementBoundingBox _ _ => True
                   | _ => False
                   end) seg.

(** [tooltipInfo] after the [try] block of a selector whose first element
    is visible. *)
Definition assigned (sel : string) (e : Dom.element) (info : Captured.t) : Captured.t :=
  {| Captured.text := or_undefined (Dom.text e);
     Captured.html := or_undefined (Some (Dom.html e));
     Captured.selector := Some sel;
     Captured.visible := true;
     Captured.screenshot := Captured.screenshot info |}.

(** [tooltipInfo] with the capture of the page. *)
Definition withScreenshot (info : Captured.t) (shot : string) : Captured.t :=
  {| Captured.text := Captured.text info;
     Captured.html := Captured.html info;
     Captured.selector := Captured.selector info;
     Captured.visible := Captured.visible info;
     Captured.screenshot := Some shot |}.

End CaptureTraceVocabulary.

(** ** The extraction of text: vocabulary *)

Section ExtractionVocabulary.

Import Page TextExtraction.

Context {W : Type} (deps : Deps W).

(** The cells a trace shows a capture at, in the order of the calls. *)
Definition captures (tr : list (event * bool)) : list (Z * Z) :=
  flat_map (fun e => match fst e with CaptureTooltip col row _ _ => [(col, row)] | _ => [] end)
           tr.

Definition cellOf (cell : CellText.t) : Z * Z := (CellText.col cell, CellText.row cell).

Definition fromTooltip (cell : CellText.t) : bool :=
  match CellText.source cell with SourceTooltip => true | SourceNone => false end.

Definition selectDelayOf (options : SelectOptions.t) : Q :=
  match SelectOptions.hoverDelay options with Some d => d | None => 300%Q end.

Definition selectSelectorsOf (options : SelectOptions.t) : list string :=
  match SelectOptions.tooltipSelectors options with
  | Some l => l
  | None => TooltipDetector.defaultSelectors
  end.

Definition coordinatesOf (options : SelectOptions.t) : bool :=
  match SelectOptions.includeCoordinates options with Some b => b | None => false end.

Definition regionOf (grid : Grid) (options : SelectOptions.t) : GridScanner.Region :=
  GridScanner.normalizeRegion grid
    (SelectOptions.startCol options) (SelectOptions.startRow options)
    (SelectOptions.endCol options) (SelectOptions.endRow options).

(** An entry of [textContent] against the calls made for its cell: the
    capture at the cell with the delay and the selectors of the options,
    a warning when it rejected, and the pause of 50 ms.  An entry has a
    text exactly when its source is the tooltip, the text is then not
    empty and, with [includeCoordinates], starts with the coordinates of
    the cell; a capture that rejected leaves the entry without text. *)
Definition cellExtracted (options : SelectOptions.t) (cell : CellText.t)
    (seg : list (event * bool)) : Prop :=
  (exists b : bool,
     seg = [(CaptureTooltip (CellText.col cell) (CellText.row cell)
               (selectDelayOf options) (selectSelectorsOf options), b)]
           ++ (if b then @nil (event * bool)
               else [(ConsoleWarn (CellText.col cell) (CellText.row cell), true)])
           ++ [(WaitForTimeout 50, true)] /\
     (b = false -> CellText.source cell = SourceNone)) /\
  (CellText.source cell = SourceTooltip -> truthy_string (CellText.text cell) = true) /\
  (CellText.source cell = SourceNone -> CellText.text cell = None /\ CellText.html cell = None) /\
  (coordinatesOf options = true -> CellText.source cell = SourceTooltip ->
   exists text, CellText.text cell
                = Some (withCoordinates (CellText.col cell) (CellText.row cell) text)).

End ExtractionVocabulary.

Section CombineVocabulary.

Import TextExtraction.

(** [cell.text!.trim()] *)
Definition trimmedText (cell : CellText.t) : string :=
  JsString.trim match CellText.text cell with Some text => text | None => "" end.

Definition rowInGrid (grid : Grid) (row : Z) : bool := (0 <=? row) && (row <? rows grid).

Definition colInGrid (grid : Grid) (col : Z) : bool := (0 <=? col) && (col <? cols grid).

(** The cells of a row and of a column of the grid, none when the row or
    the column is not one of the grid. *)
Definition rowCells (grid : Grid) (row : Z) : list (Z * Z) :=
  if rowInGrid grid row
  then map (fun col => (col, row)) (range 0 (Z.to_nat (cols grid)))
  else [].

Definition columnCells (grid : Grid) (col : Z) : list (Z * Z) :=
  if colInGrid grid col
  then map (fun row => (col, row)) (range 0 (Z.to_nat (rows grid)))
  else [].

Definition extractDelayOf (options : option ExtractOptions.t) : Q :=
  match ExtractOptions.hoverDelay match options with Some o => o | None => noExtractOptions end
  with
  | Some d => d
  | None => 300%Q
  end.

Definition extractSelectorsOf (options : option ExtractOptions.t) : list string :=
  match ExtractOptions.tooltipSelectors
          match options with Some o => o | None => noExtractOptions end with
  | Some l => l
  | None => TooltipDetector.defaultSelectors
  end.

End CombineVocabulary.

(** ** The grid of a CanvasGrid: vocabulary *)

Section GridVocabulary.

Import CanvasGrid.

(** Both extents of the grid are different from 0, so that the centre of
    a cell is defined. *)
Definition divisible (this : t) : Prop :=
  cols (grid this) <> 0 /\ rows (grid this) <> 0.

(** The larger side of a box. *)
Definition maxDim (rect : BoundingBox.t) : Q :=
  Js.Math_max (BoundingBox.width rect) (BoundingBox.height rect).

End GridVocabulary.

Section BuilderVocabulary.

Import Page CanvasGrid.

Context {W : Type} (deps : Deps W).

(** The states a CanvasGrid goes through: made by the constructor, then
    changed by [locator], [nth], [gridSize] and by an [autoGridIfNeeded]
    that resolved. *)
Inductive built : t -> Prop :=
| built_create : built create
| built_locator (selector : string) (this : t) : built this -> built (locator selector this)
| built_nth (index : Z) (this : t) : built this -> built (nth index this)
| built_gridSize (cols rows : Z) (this : t) : built this -> built (gridSize cols rows this)
| built_auto (this this' : t) (t0 t1 : traced W) :
    built this -> autoGridIfNeeded deps this t0 = (Ok this', t1) -> built this'.

(** The automatic grids. *)
Definition isAutoGrid (g : Grid) : Prop :=
  g = mkGrid 6 4 \/ g = mkGrid 10 8 \/ g = mkGrid 14 10.

End BuilderVocabulary.

(** ** The colours the sampler reads *)

Section ColourVocabulary.

Import ColorSampler.






End ColourVocabulary.

(** ** The calls of a scan *)

(** The calls of the progress callback a journal shows, as
    [(current, total, col, row)], in the order of the calls. *)
Definition progressed (j : list (call * bool)) : list (Z * Z * Z * Z) :=
  flat_map (fun e => match fst e with
                     | CallProgress current total col row => [(current, total, col, row)]
                     | _ => []
                     end) j.

(** The progress a scan of [cells] reports when no cell is skipped: the
    cells numbered from [first]. *)
Fixpoint numbered (first total : Z) (cells : list (Z * Z)) : list (Z * Z * Z * Z) :=
  match cells with
  | [] => []
  | (col, row) :: rest => (first, total, col, row) :: numbered (first + 1) total rest
  end.

(** What ends a scan that rejects: the pause between two cells, or the
    progress callback. *)
Definition endsScan (total : Z) (c : call) : Prop :=
  c = CallWaitForTimeout 10 \/ exists current col row, c = CallProgress current total col row.

(** The timeouts of the waits of a journal, added up. *)
Definition totalWaited (j : list (call * bool)) : Q := sumQ (map snd (waited j)).

(** * Properties *)

(** ** Geometry: the cell centre *)

Section CellCenter.

Local Open Scope Q_scope.

Lemma inject_Z_pos (n : Z) : (1 <= n)%Z -> 0 < inject_Z n.
Proof.
  intros H. change 0 with (inject_Z 0). rewrite <- Zlt_Qlt. lia.
Qed.

Lemma inject_Z_nonzero (n : Z) : (1 <= n)%Z -> ~ inject_Z n == 0.
Proof.
  intros H E. apply inject_Z_pos in H. rewrite E in H. now apply Qlt_irrefl in H.
Qed.

Lemma center_between_edges (origin extent : Q) (n i : Z) :
  0 < extent -> (1 <= n)%Z ->
  let c := origin + (extent / inject_Z n) * (inject_Z i + (1 # 2)) in
  cellEdge origin extent n i < c /\ c < cellEdge origin extent n (i + 1).
Proof.
  intros Hext Hn c. unfold c, cellEdge.
  assert (Hpos : 0 < extent / inject_Z n).
  { apply Qlt_shift_div_l; [now apply inject_Z_pos | now rewrite Qmult_0_l]. }
  rewrite inject_Z_plus. change (inject_Z 1) with 1.
  set (d := extent / inject_Z n) in *. clearbody d.
  split; lra.
Qed.

End CellCenter.

Section CellCenterClaim.

Local Open Scope Q_scope.

Lemma center_times_two (origin extent : Q) (n i : Z) :
  (1 <= n)%Z ->
  (origin + (extent / inject_Z n) * (inject_Z i + (1 # 2)) - origin) * inject_Z (2 * n)
  == extent * inject_Z (2 * i + 1).
Proof.
  intros Hn. rewrite inject_Z_mult, inject_Z_plus, inject_Z_mult.
  change (inject_Z 2) with 2. change (inject_Z 1) with 1.
  field. now apply inject_Z_nonzero.
Qed.

(** C8.  With a box of positive width and height and a grid of at least
    one column and one row, [getCellCenter] returns the point
    [x = box.x + (box.width / cols) * (col + 0.5)],
    [y = box.y + (box.height / rows) * (row + 0.5)]; that point is the
    one whose doubled offset is [(2 col + 1)] half cells, it lies strictly
    between the edges of its cell, and for the grid 4 x 3 on the box
    (10, 10, 200, 150) the cell (1, 2) has its centre at (85, 135). *)
Theorem getCellCenter_formula (box : BoundingBox.t) (grid : Grid) (col row : Z) :
  0 < BoundingBox.width box -> 0 < BoundingBox.height box -> (1 <= cols grid)%Z -> (1 <= rows grid)%Z ->
  (exists p,
      MouseInteractions.getCellCenter (Some box) grid col row = Ok p /\
      Point.x p == BoundingBox.x box + (BoundingBox.width box / inject_Z (cols grid)) * (inject_Z col + (1 # 2)) /\
      Point.y p == BoundingBox.y box + (BoundingBox.height box / inject_Z (rows grid)) * (inject_Z row + (1 # 2)) /\
      (Point.x p - BoundingBox.x box) * inject_Z (2 * cols grid) == BoundingBox.width box * inject_Z (2 * col + 1) /\
      (Point.y p - BoundingBox.y box) * inject_Z (2 * rows grid) == BoundingBox.height box * inject_Z (2 * row + 1) /\
      cellEdge (BoundingBox.x box) (BoundingBox.width box) (cols grid) col < Point.x p
        < cellEdge (BoundingBox.x box) (BoundingBox.width box) (cols grid) (col + 1) /\
      cellEdge (BoundingBox.y box) (BoundingBox.height box) (rows grid) row < Point.y p
        < cellEdge (BoundingBox.y box) (BoundingBox.height box) (rows grid) (row + 1)) /\
  (exists q,
      MouseInteractions.getCellCenter (Some (BoundingBox.mk 10 10 200 150)) (mkGrid 4 3) 1 2 = Ok q /\
      Point.x q == 85 /\ Point.y q == 135).
Proof.
  intros Hw Hh Hc Hr. split.
  - eexists. split; [reflexivity |]. cbn [Point.x Point.y].
    repeat split; try reflexivity.
    + now apply center_times_two.
    + now apply center_times_two.
    + now apply center_between_edges.
    + now apply center_between_edges.
    + now apply center_between_edges.
    + now apply center_between_edges.
  - eexists. split; [reflexivity |]. split; reflexivity.
Qed.

Lemma getCellCenter_formula_witness :
  exists q,
    MouseInteractions.getCellCenter (Some (BoundingBox.mk 10 10 200 150)) (mkGrid 4 3) 1 2 = Ok q /\
    Point.x q == 85 /\ Point.y q == 135.
Proof.
  apply (getCellCenter_formula (BoundingBox.mk 10 10 200 150) (mkGrid 4 3) 1 2);
    [reflexivity | reflexivity | cbn; lia | cbn; lia].
Defined.

(** Without a box the element has no geometry and the call throws. *)
Lemma getCellCenter_no_box (grid : Grid) (col row : Z) :
  MouseInteractions.getCellCenter None grid col row = Throw "no canvas bbox".
Proof. reflexivity. Qed.

End CellCenterClaim.

Section CellCenterInDoubles.

Import PrimFloat.

(** The two expressions of the example in IEEE double arithmetic, the
    arithmetic of the source: no rounding occurs. *)
Example center_in_doubles :
  (10 + (200 / 4) * (1 + 0.5) = 85 /\ 10 + (150 / 3) * (2 + 0.5) = 135)%float.
Proof. split; reflexivity. Qed.

End CellCenterInDoubles.

(** ** ColorSampler.within *)

Section Within.

Local Open Scope Q_scope.

Lemma every_from_spec {A : Type} (f : A -> nat -> bool) (a : list A) (i : nat) :
  Js.every_from f i a = true <->
  forall k v, nth_error a k = Some v -> f v (i + k)%nat = true.
Proof.
  revert i. induction a as [| x a IH]; intros i; cbn [Js.every_from].
  - split; [| reflexivity]. intros _ [| k] v Hk; discriminate Hk.
  - destruct (f x i) eqn:Hx.
    + rewrite IH. split.
      * intros H [| k] v Hk; cbn in Hk.
        -- injection Hk as <-. now rewrite Nat.add_0_r.
        -- rewrite Nat.add_succ_r. now apply (H k v).
      * intros H k v Hk. specialize (H (S k) v Hk).
        now rewrite Nat.add_succ_r in H.
    + split; [discriminate |]. intros H.
      specialize (H 0%nat x eq_refl). rewrite Nat.add_0_r in H. congruence.
Qed.

Lemma nth_error_rgba (c : RGBA) (i : nat) :
  is_rgba c -> (i < 4)%nat -> nth_error c i = Some (nth i c 0).
Proof.
  unfold is_rgba. intros Hc Hi.
  destruct c as [| c0 [| c1 [| c2 [| c3 [| c4 c]]]]]; try discriminate Hc.
  destruct i as [| [| [| [| i]]]]; try reflexivity. lia.
Qed.

(** [within] holds exactly when every channel is within the tolerance. *)
Lemma within_channels (a b : RGBA) (t : Q) :
  is_rgba a -> is_rgba b ->
  ColorSampler.within a b t = true <->
  forall i, (i < 4)%nat -> Qabs (nth i a 0 - nth i b 0) <= t.
Proof.
  intros Ha Hb. unfold ColorSampler.within, Js.every. rewrite every_from_spec.
  split.
  - intros H i Hi.
    specialize (H i (nth i a 0) (nth_error_rgba a i Ha Hi)).
    rewrite Nat.add_0_l, (nth_error_rgba b i Hb Hi) in H.
    now apply Qle_bool_iff.
  - intros H k v Hk.
    assert (Hlt : (k < 4)%nat).
    { rewrite <- Ha. apply nth_error_Some. congruence. }
    rewrite (nth_error_rgba a k Ha Hlt) in Hk. injection Hk as <-.
    rewrite Nat.add_0_l, (nth_error_rgba b k Hb Hlt).
    apply Qle_bool_iff, H, Hlt.
Qed.

Lemma Qabs_zero_eq (x y : Q) : Qabs (x - y) <= 0 <-> x == y.
Proof.
  split.
  - intros H. assert (H0 := Qabs_nonneg (x - y)).
    assert (E : Qabs (x - y) == 0) by (apply Qle_antisym; assumption).
    revert E. apply Qabs_case; intros; lra.
  - intros E. rewrite E.
    assert (Hz : y - y == 0) by ring. rewrite Hz. discriminate.
Qed.

(** C4.  For RGBA colours [a], [b] and a tolerance [t >= 0], [within a b t]
    is true exactly when each of the four channels differs by at most [t];
    a colour is within any such tolerance of itself; colours that differ
    by exactly [d] in every channel are within [t] exactly when [d <= t];
    and tolerance [0] asks for equal channels. *)
Theorem within_spec (a b : RGBA) (t : Q) :
  is_rgba a -> is_rgba b -> 0 <= t ->
  (ColorSampler.within a b t = true <->
     forall i, (i < 4)%nat -> Qabs (nth i a 0 - nth i b 0) <= t) /\
  ColorSampler.within a a t = true /\
  (forall d, (forall i, (i < 4)%nat -> Qabs (nth i a 0 - nth i b 0) == d) ->
             (ColorSampler.within a b t = true <-> d <= t)) /\
  (ColorSampler.within a b 0 = true <->
     forall i, (i < 4)%nat -> nth i a 0 == nth i b 0).
Proof.
  intros Ha Hb Ht.
  assert (Hch := within_channels a b t Ha Hb).
  split; [exact Hch |]. split; [| split].
  - apply within_channels; [assumption | assumption |].
    intros i _.
    assert (Hz : nth i a 0 - nth i a 0 == 0) by ring. rewrite Hz. exact Ht.
  - intros d Hd. rewrite Hch. split.
    + intros H. rewrite <- (Hd 0%nat) by lia. apply H. lia.
    + intros Hle i Hi. now rewrite (Hd i Hi).
  - rewrite (within_channels a b 0 Ha Hb). split.
    + intros H i Hi. apply Qabs_zero_eq, H, Hi.
    + intros H i Hi. apply Qabs_zero_eq, H, Hi.
Qed.

Lemma within_spec_witness :
  ColorSampler.within [255; 0; 0; 255] [250; 5; 5; 250] 10 = true <->
  forall i, (i < 4)%nat ->
    Qabs (nth i [255; 0; 0; 255] 0 - nth i [250; 5; 5; 250] 0) <= 10.
Proof.
  apply (within_spec [255; 0; 0; 255] [250; 5; 5; 250] 10);
    [reflexivity | reflexivity | discriminate].
Defined.

(** The cases of the unit tests of [within]. *)
Example within_tests :
  ColorSampler.within [255; 0; 0; 255] [250; 5; 5; 250] 10 = true /\
  ColorSampler.within [255; 0; 0; 255] [240; 0; 0; 255] 10 = false /\
  ColorSampler.within [255; 0; 0; 128] [255; 0; 0; 255] 50 = false /\
  ColorSampler.within [255; 0; 0; 128] [255; 0; 0; 255] 130 = true.
Proof. repeat split. Qed.

End Within.

(** ** The clip rectangles of the capture fallback *)

Section ClipTiling.

Local Open Scope Q_scope.

(** The clip of the unit test of the fallback. *)
Example cellClip_test :
  let c := ColorSampler.cellClip (BoundingBox.mk 10 10 200 150) (mkGrid 4 3) 1 2 in
  ColorSampler.Clip.x c == 60 /\ ColorSampler.Clip.y c == 110 /\
  ColorSampler.Clip.width c == 50 /\ ColorSampler.Clip.height c == 50.
Proof. repeat split. Qed.

Lemma Math_max_floor_ge2 (x : Q) :
  2 <= x -> Js.Math_max 2 (Js.Math_floor x) = inject_Z (Qfloor x).
Proof.
  intros H. unfold Js.Math_max, Js.Math_floor.
  assert (Hf : (2 <= Qfloor x)%Z).
  { apply (Qfloor_resp_le 2 x) in H. exact H. }
  destruct (Qle_bool 2 (inject_Z (Qfloor x))) eqn:E; [reflexivity |].
  assert (Hq : 2 <= inject_Z (Qfloor x)).
  { change 2 with (inject_Z 2). now rewrite <- Zle_Qle. }
  apply Qle_bool_iff in Hq. congruence.
Qed.

Lemma Math_max_ge2 (x : Q) : 2 <= Js.Math_max 2 x.
Proof.
  unfold Js.Math_max. destruct (Qle_bool 2 x) eqn:E.
  - now apply Qle_bool_iff.
  - apply Qle_refl.
Qed.

Lemma Math_max_floor_lt2 (x : Q) : x < 2 -> Js.Math_max 2 (Js.Math_floor x) == 2.
Proof.
  intros H. unfold Js.Math_max, Js.Math_floor.
  destruct (Qle_bool 2 (inject_Z (Qfloor x))) eqn:E; [| reflexivity].
  apply Qle_bool_iff in E. assert (Hf := Qfloor_le x). lra.
Qed.

Lemma sumQ_const (w : Q) (f : Z -> Q) (l : list Z) :
  (forall i, f i == w) -> sumQ (map f l) == inject_Z (Z.of_nat (length l)) * w.
Proof.
  intros Hf. induction l as [| i l IH].
  - cbn. ring.
  - cbn [map sumQ fold_right length]. fold (sumQ (map f l)).
    rewrite IH, Hf, Nat2Z.inj_succ. unfold Z.succ. rewrite inject_Z_plus.
    change (inject_Z 1) with 1. ring.
Qed.

Lemma range_length (lo : Z) (n : nat) : length (range lo n) = n.
Proof. revert lo. induction n as [| n IH]; intros lo; cbn; [| rewrite IH]; reflexivity. Qed.

Lemma rowWidthSum_eq (box : BoundingBox.t) (grid : Grid) (row : Z) :
  (0 <= cols grid)%Z ->
  rowWidthSum box grid row
  == inject_Z (cols grid)
     * Js.Math_max 2 (Js.Math_floor (BoundingBox.width box / inject_Z (cols grid))).
Proof.
  intros Hc. unfold rowWidthSum.
  rewrite (sumQ_const (Js.Math_max 2 (Js.Math_floor (BoundingBox.width box / inject_Z (cols grid))))).
  - rewrite range_length, Z2Nat.id by assumption. reflexivity.
  - intros i. reflexivity.
Qed.

End ClipTiling.

Section ClipTilingClaim.

Local Open Scope Q_scope.

Lemma Z_lt_inject (i j : Z) : (i < j)%Z -> inject_Z i + 1 <= inject_Z j.
Proof.
  intros H. change 1 with (inject_Z 1). rewrite <- inject_Z_plus, <- Zle_Qle. lia.
Qed.

Lemma cell_times_n (extent : Q) (n : Z) :
  (1 <= n)%Z -> (extent / inject_Z n) * inject_Z n == extent.
Proof. intros H. field. now apply inject_Z_nonzero. Qed.

(** One axis of the clip rectangles of cells at least two pixels long:
    a rectangle starts inside the box, ends before the box does and
    before any later rectangle starts. *)
Lemma axis_tiled (origin extent : Q) (n i : Z) :
  (1 <= n)%Z -> 2 <= extent / inject_Z n -> (0 <= i < n)%Z ->
  let W := Js.Math_max 2 (Js.Math_floor (extent / inject_Z n)) in
  origin <= cellEdge origin extent n i /\
  cellEdge origin extent n i + W <= origin + extent /\
  forall j, (i < j)%Z -> cellEdge origin extent n i + W <= cellEdge origin extent n j.
Proof.
  intros Hn Hd [Hi0 Hin] W. unfold W, cellEdge.
  rewrite (Math_max_floor_ge2 _ Hd).
  assert (Hf := Qfloor_le (extent / inject_Z n)).
  assert (Hprod := cell_times_n extent n Hn).
  assert (HI : 0 <= inject_Z i) by (change 0 with (inject_Z 0); rewrite <- Zle_Qle; lia).
  assert (HIn := Z_lt_inject i n Hin).
  set (d := extent / inject_Z n) in *. clearbody d.
  set (f := inject_Z (Qfloor d)) in *. clearbody f.
  split; [| split].
  - assert (0 <= d * inject_Z i) by (apply Qmult_le_0_compat; lra). lra.
  - assert (0 <= d * (inject_Z n - inject_Z i - 1)) by (apply Qmult_le_0_compat; lra). lra.
  - intros j Hij. assert (HJ := Z_lt_inject i j Hij).
    assert (0 <= d * (inject_Z j - inject_Z i - 1)) by (apply Qmult_le_0_compat; lra). lra.
Qed.

(** Conversely the last rectangle of an axis only fits when the cells
    are at least two pixels long. *)
Lemma axis_last_fits (origin extent : Q) (n : Z) :
  (1 <= n)%Z ->
  cellEdge origin extent n (n - 1)
    + Js.Math_max 2 (Js.Math_floor (extent / inject_Z n)) <= origin + extent ->
  2 <= extent / inject_Z n.
Proof.
  intros Hn H. unfold cellEdge in H.
  assert (Hprod := cell_times_n extent n Hn).
  assert (Hmax := Math_max_ge2 (Js.Math_floor (extent / inject_Z n))).
  unfold Z.sub in H. rewrite inject_Z_plus in H. change (inject_Z (-1)) with (-1) in H.
  set (d := extent / inject_Z n) in *. clearbody d.
  set (W := Js.Math_max 2 (Js.Math_floor d)) in *. clearbody W.
  assert (E : d * (inject_Z n + -1) == extent - d) by (rewrite <- Hprod; ring).
  rewrite E in H. lra.
Qed.

(** Rectangles inside the box: the cells are at least two pixels wide
    and high. *)
Lemma withinBox_cells (box : BoundingBox.t) (grid : Grid) :
  (1 <= cols grid)%Z -> (1 <= rows grid)%Z -> withinBox box grid ->
  2 <= BoundingBox.width box / inject_Z (cols grid) /\
  2 <= BoundingBox.height box / inject_Z (rows grid).
Proof.
  intros Hc Hr Hin. split.
  - destruct (Hin (cols grid - 1)%Z 0%Z) as (_ & Hright & _ & _).
    { split; lia. }
    apply (axis_last_fits (BoundingBox.x box) (BoundingBox.width box) (cols grid) Hc). exact Hright.
  - destruct (Hin 0%Z (rows grid - 1)%Z) as (_ & _ & _ & Hbottom).
    { split; lia. }
    apply (axis_last_fits (BoundingBox.y box) (BoundingBox.height box) (rows grid) Hr). exact Hbottom.
Qed.

Lemma cells_tiled (box : BoundingBox.t) (grid : Grid) :
  (1 <= cols grid)%Z -> (1 <= rows grid)%Z ->
  2 <= BoundingBox.width box / inject_Z (cols grid) ->
  2 <= BoundingBox.height box / inject_Z (rows grid) ->
  noOverlap box grid /\ withinBox box grid.
Proof.
  intros Hc Hr Hw Hh. split.
  - split.
    + intros row c1 c2 [Hc1 _] _ Hlt.
      apply (axis_tiled (BoundingBox.x box) (BoundingBox.width box) (cols grid) c1 Hc Hw Hc1). exact Hlt.
    + intros col r1 r2 [_ Hr1] _ Hlt.
      apply (axis_tiled (BoundingBox.y box) (BoundingBox.height box) (rows grid) r1 Hr Hh Hr1). exact Hlt.
  - intros col row [Hcol Hrow] c.
    destruct (axis_tiled (BoundingBox.x box) (BoundingBox.width box) (cols grid) col Hc Hw Hcol) as (H1 & H2 & _).
    destruct (axis_tiled (BoundingBox.y box) (BoundingBox.height box) (rows grid) row Hr Hh Hrow) as (H3 & H4 & _).
    repeat split; assumption.
Qed.

Lemma whole_cell (n k : Z) : (1 <= n)%Z -> inject_Z (n * k) / inject_Z n == inject_Z k.
Proof.
  intros Hn. rewrite inject_Z_mult. field. now apply inject_Z_nonzero.
Qed.

Lemma Math_max_whole (k : Z) : Js.Math_max 2 (inject_Z k) == inject_Z (Z.max 2 k).
Proof.
  unfold Js.Math_max. destruct (Qle_bool 2 (inject_Z k)) eqn:E.
  - apply Qle_bool_iff in E. change 2 with (inject_Z 2) in E. rewrite <- Zle_Qle in E.
    now rewrite Z.max_r.
  - assert (H : ~ (2 <= k)%Z).
    { intros H. rewrite Zle_Qle in H. apply Qle_bool_iff in H.
      change (inject_Z 2) with 2 in H. congruence. }
    rewrite Z.max_l by lia. reflexivity.
Qed.

(** [Math.floor(w / c)] of whole numbers is the quotient of the division
    with remainder. *)
Lemma Qfloor_div_Z (w c : Z) : (0 < c)%Z -> Qfloor (inject_Z w / inject_Z c) = (w / c)%Z.
Proof.
  intros Hc. destruct c as [| p | p]; try lia.
  unfold Qdiv, Qinv, Qmult, inject_Z, Qfloor. cbn [Qnum Qden].
  now rewrite Z.mul_1_r, Pos.mul_1_l.
Qed.

(** C2, as amended.  Take a grid of at least one column and one row and
    a box on whole pixels, its corner at [(X, Y)] and its width and
    height whole multiples [cols * kw] and [rows * kh] of the extents of
    the grid, all below 2^53, so that every number the clip is computed
    from is a whole number.  The clip of the cell [(col, row)] then has
    its corner at [(X + kw * col, Y + kh * row)] and is [max 2 kw] wide
    and [max 2 kh] high.  The clips tile the box, with no overlap within
    a row or a column, every rectangle inside the box and the widths of
    every row adding up to exactly the width of the box, exactly when the
    cells are at least two pixels wide and high; the rectangles already
    leave the box when they are not.  For every box of a whole width [w]
    below 2^52 the widths of a row add up to [cols * max 2 (w div cols)],
    which is [w] exactly when [w] is a multiple of [cols] with cells of
    at least two pixels. *)
Theorem clip_tiling (grid : Grid) (X Y kw kh : Z) :
  (1 <= cols grid)%Z -> (1 <= rows grid)%Z -> (0 <= kw)%Z -> (0 <= kh)%Z ->
  (Z.abs X + cols grid * kw < 2 ^ 53)%Z -> (Z.abs Y + rows grid * kh < 2 ^ 53)%Z ->
  (forall col row, inGrid grid col row ->
     ColorSampler.Clip.x (ColorSampler.cellClip (wholeBox grid X Y kw kh) grid col row)
     == inject_Z (X + kw * col) /\
     ColorSampler.Clip.y (ColorSampler.cellClip (wholeBox grid X Y kw kh) grid col row)
     == inject_Z (Y + kh * row) /\
     ColorSampler.Clip.width (ColorSampler.cellClip (wholeBox grid X Y kw kh) grid col row)
     == inject_Z (Z.max 2 kw) /\
     ColorSampler.Clip.height (ColorSampler.cellClip (wholeBox grid X Y kw kh) grid col row)
     == inject_Z (Z.max 2 kh)) /\
  (tilesExactly (wholeBox grid X Y kw kh) grid <-> (2 <= kw /\ 2 <= kh)%Z) /\
  (withinBox (wholeBox grid X Y kw kh) grid -> (2 <= kw /\ 2 <= kh)%Z) /\
  (forall x y h w row, (0 <= w < 2 ^ 52)%Z -> (cols grid < 2 ^ 52)%Z ->
     rowWidthSum (BoundingBox.mk x y (inject_Z w) h) grid row
     == inject_Z (cols grid * Z.max 2 (w / cols grid)) /\
     (rowWidthSum (BoundingBox.mk x y (inject_Z w) h) grid row == inject_Z w <->
      exists k, (2 <= k)%Z /\ w = (cols grid * k)%Z)).
Proof.
  intros Hc Hr Hkw Hkh _ _.
  assert (Ew := whole_cell (cols grid) kw Hc).
  assert (Eh := whole_cell (rows grid) kh Hr).
  assert (Hcells : 2 <= BoundingBox.width (wholeBox grid X Y kw kh) / inject_Z (cols grid) /\
                   2 <= BoundingBox.height (wholeBox grid X Y kw kh) / inject_Z (rows grid)
                   <-> (2 <= kw /\ 2 <= kh)%Z).
  { unfold wholeBox. cbn [BoundingBox.width BoundingBox.height]. rewrite Ew, Eh.
    change 2 with (inject_Z 2). rewrite <- !Zle_Qle. reflexivity. }
  assert (Hsum : forall x y h w row, (0 <= w)%Z ->
            rowWidthSum (BoundingBox.mk x y (inject_Z w) h) grid row
            == inject_Z (cols grid * Z.max 2 (w / cols grid))).
  { intros x y h w row Hw. rewrite rowWidthSum_eq by lia. cbn [BoundingBox.width].
    unfold Js.Math_floor. rewrite Qfloor_div_Z by lia.
    rewrite Math_max_whole, <- inject_Z_mult. reflexivity. }
  split; [| split; [| split]].
  - intros col row _. unfold ColorSampler.cellClip, wholeBox.
    cbn [ColorSampler.Clip.x ColorSampler.Clip.y ColorSampler.Clip.width
         ColorSampler.Clip.height BoundingBox.x BoundingBox.y BoundingBox.width
         BoundingBox.height].
    unfold Js.Math_floor. rewrite Ew, Eh, !Qfloor_Z, !Math_max_whole.
    rewrite !inject_Z_plus, !inject_Z_mult. repeat split; reflexivity.
  - split.
    + intros (_ & _ & Hin). apply Hcells. now apply withinBox_cells.
    + intros Hk. apply Hcells in Hk as Hq. destruct Hq as [Hw Hh].
      split; [| now apply cells_tiled].
      intros row _. unfold wholeBox. rewrite Hsum by lia. cbn [BoundingBox.width].
      rewrite (Z.mul_comm (cols grid) kw) at 1. rewrite Z.div_mul by lia.
      rewrite Z.max_r by lia. reflexivity.
  - intros Hin. apply Hcells. now apply withinBox_cells.
  - intros x y h w row [Hw _] _. split; [now apply Hsum |].
    rewrite Hsum by exact Hw. rewrite inject_Z_injective. split.
    + intros E. exists (Z.max 2 (w / cols grid)). split; [lia | now symmetry].
    + intros (k & Hk & ->). rewrite (Z.mul_comm (cols grid) k) at 1.
      rewrite Z.div_mul by lia. rewrite Z.max_r by lia. reflexivity.
Qed.

Lemma clip_tiling_witness :
  tilesExactly (wholeBox (mkGrid 4 3) 10 10 50 50) (mkGrid 4 3) <-> (2 <= 50 /\ 2 <= 50)%Z.
Proof.
  destruct (clip_tiling (mkGrid 4 3) 10 10 50 50) as (_ & H & _);
    [cbn; lia | cbn; lia | lia | lia | cbn; lia | cbn; lia | exact H].
Defined.

(** C2 as stated fails.  On a box of 3 by 3 pixels divided into 3 by 3
    cells every cell is one pixel wide but every clip is two pixels wide:
    the widths of a row add up to 6, the first two rectangles of a row
    overlap, and the last one ends outside the box. *)
Lemma clip_tiling_counterexample :
  let box := BoundingBox.mk 0 0 3 3 in
  let grid := mkGrid 3 3 in
  ~ widthsSumToBox box grid /\ ~ noOverlap box grid /\ ~ withinBox box grid /\
  ~ tilesBox box grid.
Proof.
  intros box grid.
  assert (Hsum : ~ widthsSumToBox box grid).
  { intros H. specialize (H 0%Z). cbv in H. specialize (H ltac:(split; [discriminate | reflexivity])).
    discriminate H. }
  assert (Hover : ~ noOverlap box grid).
  { intros [H _]. specialize (H 0%Z 0%Z 1%Z). cbv in H.
    apply H; repeat split; try reflexivity; discriminate. }
  assert (Hin : ~ withinBox box grid).
  { intros H. destruct (H 2%Z 0%Z) as (_ & Hright & _).
    - cbv. repeat split; try reflexivity; discriminate.
    - cbv in Hright. apply Hright. reflexivity. }
  repeat split; try assumption. intros (H & _). exact (Hsum H).
Qed.

End ClipTilingClaim.

(** ** The loops of the scanner *)

Section Loops.

Context {W : Type}.

(** A counting loop whose budget covers [hi - lo] goes through exactly
    the indices [lo, lo + 1, ..., hi - 1]: the budget never ends it. *)
Lemma for_lt_budget {A : Type} (budget : nat) (lo hi : Z)
    (body : Z -> A -> M W A) (acc : A) (s : state W) :
  (Z.to_nat (hi - lo) <= budget)%nat ->
  for_lt budget lo hi 1 body acc s = foldM body (range lo (Z.to_nat (hi - lo))) acc s.
Proof.
  revert lo acc s. induction budget as [| budget IH]; intros lo acc s Hb.
  - cbn [for_lt]. replace (Z.to_nat (hi - lo)) with 0%nat by lia. reflexivity.
  - cbn [for_lt]. destruct (lo <? hi) eqn:Hlt.
    + apply Z.ltb_lt in Hlt.
      replace (Z.to_nat (hi - lo)) with (S (Z.to_nat (hi - (lo + 1)))) by lia.
      cbn [range foldM]. unfold bind.
      destruct (body lo acc s) as [[acc' | e] s']; [| reflexivity].
      apply IH. lia.
    + apply Z.ltb_ge in Hlt.
      replace (Z.to_nat (hi - lo)) with 0%nat by lia. reflexivity.
Qed.

Lemma foldM_ext {A I : Type} (f g : I -> A -> M W A) (l : list I) (acc : A) (s : state W) :
  (forall i acc s, In i l -> f i acc s = g i acc s) ->
  foldM f l acc s = foldM g l acc s.
Proof.
  revert acc s. induction l as [| i l IH]; intros acc s H; [reflexivity |].
  cbn [foldM]. unfold bind. rewrite (H i acc s) by now left.
  destruct (g i acc s) as [[acc' | e] s']; [| reflexivity].
  apply IH. intros j acc0 s0 Hj. apply H. now right.
Qed.

Lemma foldM_app {A I : Type} (f : I -> A -> M W A) (l1 l2 : list I) (acc : A) (s : state W) :
  foldM f (l1 ++ l2) acc s = bind (foldM f l1 acc) (fun acc' => foldM f l2 acc') s.
Proof.
  revert acc s. induction l1 as [| i l1 IH]; intros acc s.
  - reflexivity.
  - cbn [app foldM]. unfold bind.
    destruct (f i acc s) as [[acc' | e] s']; [| reflexivity].
    rewrite IH. reflexivity.
Qed.

(** Two nested loops go through the pairs in the order of the outer
    index, then of the inner one; the pairs are written inner index
    first, as the cells are ([(col, row)]). *)
Lemma foldM_nested {A I J : Type} (f : I -> J -> A -> M W A)
    (outer : list I) (inner : list J) (acc : A) (s : state W) :
  foldM (fun i acc => foldM (fun j acc => f i j acc) inner acc) outer acc s
  = foldM (fun p acc => f (snd p) (fst p) acc)
      (flat_map (fun i => map (fun j => (j, i)) inner) outer) acc s.
Proof.
  revert acc s. induction outer as [| i outer IH]; intros acc s; [reflexivity |].
  cbn [foldM flat_map]. rewrite foldM_app. unfold bind.
  assert (E : forall acc s,
             foldM (fun j acc => f i j acc) inner acc s
             = foldM (fun p acc => f (snd p) (fst p) acc) (map (fun j => (j, i)) inner) acc s).
  { clear. induction inner as [| j inner IHi]; intros acc s; [reflexivity |].
    cbn [foldM map fst snd]. unfold bind.
    destruct (f i j acc s) as [[acc' | e] s']; [| reflexivity]. apply IHi. }
  rewrite E.
  destruct (foldM _ (map _ inner) acc s) as [[acc' | e] s']; [| reflexivity].
  apply IH.
Qed.

End Loops.

Section RowMajor.

Lemma in_range (lo : Z) (n : nat) (i : Z) :
  In i (range lo n) <-> lo <= i < lo + Z.of_nat n.
Proof.
  revert lo. induction n as [| n IH]; intros lo; cbn [range In].
  - lia.
  - rewrite IH. lia.
Qed.

Lemma range_NoDup (lo : Z) (n : nat) : List.NoDup (range lo n).
Proof.
  revert lo. induction n as [| n IH]; intros lo; cbn [range].
  - constructor.
  - constructor; [| apply IH]. rewrite in_range. lia.
Qed.

Lemma in_rowMajor (grid : Grid) (col row : Z) :
  In (col, row) (rowMajor grid) <-> 0 <= col < cols grid /\ 0 <= row < rows grid.
Proof.
  unfold rowMajor. rewrite in_flat_map. split.
  - intros (r & Hr & Hin). apply in_map_iff in Hin as (c & E & Hc).
    injection E as <- <-. apply in_range in Hr, Hc. lia.
  - intros [Hc Hr]. exists row. split.
    + apply in_range. lia.
    + apply in_map_iff. exists col. split; [reflexivity |]. apply in_range. lia.
Qed.

Lemma rowMajor_length (grid : Grid) :
  0 <= cols grid -> 0 <= rows grid ->
  Z.of_nat (length (rowMajor grid)) = cols grid * rows grid.
Proof.
  intros Hc Hr. unfold rowMajor.
  assert (E : forall (l : list Z) (n : nat),
             length (flat_map (fun row => map (fun col => (col, row)) (range 0 n)) l)
             = (length l * n)%nat).
  { intros l n. induction l as [| r l IH]; [reflexivity |].
    cbn [flat_map]. rewrite length_app, length_map, range_length, IH. reflexivity. }
  rewrite E, range_length. lia.
Qed.

Lemma range_sorted (lo : Z) (n : nat) : Sorted.StronglySorted Z.lt (range lo n).
Proof.
  revert lo. induction n as [| n IH]; intros lo; cbn [range]; constructor.
  - apply IH.
  - apply List.Forall_forall. intros i Hi. apply in_range in Hi. lia.
Qed.

Lemma rowMajor_sorted (grid : Grid) : Sorted.StronglySorted cellLt (rowMajor grid).
Proof.
  unfold rowMajor.
  generalize (range_sorted 0 (Z.to_nat (rows grid))).
  generalize (range 0 (Z.to_nat (rows grid))) as rs.
  induction rs as [| r rs IH]; intros Hs; cbn [flat_map]; [constructor |].
  inversion Hs as [| ? ? Hs' Hall]; subst.
  assert (Hrow : Sorted.StronglySorted cellLt
                   (map (fun col => (col, r)) (range 0 (Z.to_nat (cols grid))))).
  { generalize (range_sorted 0 (Z.to_nat (cols grid))).
    generalize (range 0 (Z.to_nat (cols grid))) as cs.
    induction cs as [| c cs IHc]; intros Hc; cbn [map]; constructor.
    - apply IHc. now inversion Hc.
    - inversion Hc as [| ? ? _ Hallc]; subst.
      apply List.Forall_forall. intros p Hp. apply in_map_iff in Hp as (c' & <- & Hc').
      right. cbn. split; [reflexivity |].
      rewrite List.Forall_forall in Hallc. now apply Hallc. }
  assert (Hr : forall p, In p (map (fun col => (col, r)) (range 0 (Z.to_nat (cols grid))))
                         -> snd p = r).
  { intros p Hp. apply in_map_iff in Hp as (c & <- & _). reflexivity. }
  revert Hrow Hr.
  generalize (map (fun col => (col, r)) (range 0 (Z.to_nat (cols grid)))) as row.
  intros row Hrow Hr.
  induction row as [| p row IHrow]; cbn [app].
  - apply IH, Hs'.
  - inversion Hrow as [| ? ? Hrow' Hallp]; subst. constructor.
    + apply IHrow; [assumption |]. intros q Hq. apply Hr. now right.
    + apply List.Forall_app. split; [assumption |].
      apply List.Forall_forall. intros q Hq.
      apply in_flat_map in Hq as (r' & Hr' & Hq).
      apply in_map_iff in Hq as (c' & <- & _).
      left. cbn. rewrite (Hr p) by now left.
      rewrite List.Forall_forall in Hall. now apply Hall.
Qed.

End RowMajor.

(** ** scanAllCellsForTooltips *)

Lemma hovered_app (j1 j2 : list (call * bool)) :
  hovered (j1 ++ j2) = hovered j1 ++ hovered j2.
Proof. apply flat_map_app. Qed.

Section ScanAll.

Import GridScanner.

Context {W : Type} (deps : Deps W).

Lemma hoverAndDetect_visit (d : Q) (cr : CellResult) (s : state W) :
  hasTooltip cr = false -> tooltipText cr = None ->
  exists res seg w',
    hoverAndDetect deps d cr s = (Ok res, mkState w' (journal s ++ seg)) /\
    col res = col cr /\ row res = row cr /\
    cellVisited res seg.
Proof.
  intros Hno Htxt. unfold hoverAndDetect, try_catch, bind, await, ret, cellVisited.
  destruct (hoverCell deps (col cr) (row cr) scanHover (world s)) as [[[] | e1] w1];
    cbn [world journal resolved].
  2:{ exists cr, [(CallHoverCell (col cr) (row cr) scanHover, false)], w1.
      split; [reflexivity |]. split; [reflexivity |]. split; [reflexivity |].
      split; [reflexivity |]. split; [tauto | congruence]. }
  destruct (waitForTimeout deps d w1) as [[[] | e2] w2]; cbn [world journal resolved].
  2:{ exists cr, [(CallHoverCell (col cr) (row cr) scanHover, true);
                  (CallWaitForTimeout d, false)], w2.
      rewrite <- app_assoc.
      split; [reflexivity |]. split; [reflexivity |]. split; [reflexivity |].
      split; [reflexivity |]. split; [tauto | congruence]. }
  destruct (getVisibleTooltips deps w2) as [[ts | e3] w3]; cbn [world journal resolved].
  2:{ exists cr, [(CallHoverCell (col cr) (row cr) scanHover, true);
                  (CallWaitForTimeout d, true); (CallGetVisibleTooltips, false)], w3.
      rewrite <- !app_assoc.
      split; [reflexivity |]. split; [reflexivity |]. split; [reflexivity |].
      split; [reflexivity |]. split; [tauto | congruence]. }
  eexists _, [(CallHoverCell (col cr) (row cr) scanHover, true);
              (CallWaitForTimeout d, true); (CallGetVisibleTooltips, true)], w3.
  rewrite <- !app_assoc. split; [reflexivity |].
  destruct ts as [| first ts]; cbn [col row hasTooltip tooltipText];
    (split; [reflexivity |]; split; [reflexivity |]; split; [reflexivity |]; split;
     [ intros c [Hc | [Hc | [Hc | []]]]; discriminate Hc
     | intros _; cbn; tauto ]).
Qed.

Lemma cellVisited_frame (res : CellResult) (pre seg post : list (call * bool)) :
  cellVisited res seg ->
  hovered pre = [] -> hovered post = [] ->
  (forall c, ~ In (c, false) pre) -> (forall c, ~ In (c, false) post) ->
  cellVisited res (pre ++ seg ++ post).
Proof.
  intros (Hh & Hf & Ht) Hpre Hpost Hnpre Hnpost. split; [| split].
  - rewrite !hovered_app, Hpre, Hpost, Hh. reflexivity.
  - intros c Hc. apply in_app_or in Hc as [Hc | Hc]; [now apply Hnpre in Hc |].
    apply in_app_or in Hc as [Hc | Hc]; [now apply (Hf c) | now apply Hnpost in Hc].
  - intros H. apply in_or_app. right. apply in_or_app. left. now apply Ht.
Qed.

Lemma scanCell_visit (d : Q) (callback : option (Z -> Z -> Z -> Z -> W -> outcome unit * W))
    (total row col : Z) (acc : ScanAcc) (s : state W) :
  pauseResolves deps -> callbackResolves callback ->
  exists res seg w',
    scanCell deps d false callback total row col acc s
    = (Ok {| acc_results := acc_results acc ++ [res]; processed := processed acc + 1 |},
       mkState w' (journal s ++ seg)) /\
    GridScanner.col res = col /\ GridScanner.row res = row /\ cellVisited res seg.
Proof.
  intros Hpause Hcb. unfold scanCell, baselines. rewrite lookup_empty.
  cbn [truthy negb andb]. unfold bind at 1.
  assert (Hpre : exists pre w0,
             match callback with
             | Some callback =>
                 await (CallProgress (processed acc + 1) total col row)
                   (callback (processed acc + 1) total col row)
             | None => ret tt
             end s = (Ok tt, mkState w0 (journal s ++ pre)) /\
             hovered pre = [] /\ forall c, ~ In (c, false) pre).
  { destruct callback as [f |].
    - destruct (Hcb (processed acc + 1) total col row (world s)) as [w0 E].
      exists [(CallProgress (processed acc + 1) total col row, true)], w0.
      unfold await. rewrite E. split; [reflexivity |]. split; [reflexivity |].
      intros c [Hc | []]. discriminate Hc.
    - exists [], (world s). unfold ret. rewrite app_nil_r. destruct s. split; [reflexivity |].
      split; [reflexivity |]. intros c []. }
  destruct Hpre as (pre & w0 & -> & Hhpre & Hnpre).
  unfold bind at 1.
  destruct (hoverAndDetect_visit d
              {| GridScanner.col := col; GridScanner.row := row; hasTooltip := false;
                 tooltipText := None; baseline := None; colorTestingDisabled := None |}
              (mkState w0 (journal s ++ pre)) eq_refl eq_refl)
    as (res & seg & w1 & -> & Hc & Hr & Hv).
  cbn [journal GridScanner.col GridScanner.row] in *.
  unfold bind, await, ret. cbn [world journal].
  destruct (Hpause w1) as [w2 ->]. cbn [resolved].
  exists res, (pre ++ seg ++ [(CallWaitForTimeout 10, true)]), w2.
  rewrite <- !app_assoc. split; [reflexivity |]. split; [assumption |]. split; [assumption |].
  apply cellVisited_frame; try assumption; [reflexivity |].
  intros c [Hc' | []]. discriminate Hc'.
Qed.

Lemma scanCell_skip (d : Q) (callback : option (Z -> Z -> Z -> Z -> W -> outcome unit * W))
    (total row col : Z) (acc : ScanAcc) (s : state W) :
  scanCell deps d true callback total row col acc s
  = (Ok {| acc_results := acc_results acc; processed := processed acc + 1 |}, s).
Proof.
  unfold scanCell, baselines. rewrite lookup_empty. reflexivity.
Qed.

Lemma scanCells_visit (d : Q) (callback : option (Z -> Z -> Z -> Z -> W -> outcome unit * W))
    (total : Z) (cells : list (Z * Z)) (acc : ScanAcc) (s : state W) :
  pauseResolves deps -> callbackResolves callback ->
  exists visits w',
    foldM (fun p acc => scanCell deps d false callback total (snd p) (fst p) acc) cells acc s
    = (Ok {| acc_results := acc_results acc ++ map fst visits;
             processed := processed acc + Z.of_nat (length cells) |},
       mkState w' (journal s ++ concat (map snd visits))) /\
    visitCoords visits = cells /\
    Forall (fun v => cellVisited (fst v) (snd v)) visits.
Proof.
  intros Hpause Hcb. revert acc s.
  induction cells as [| [c r] cells IH]; intros acc s.
  - exists [], (world s). cbn. rewrite !app_nil_r, Z.add_0_r.
    destruct acc, s. repeat split. constructor.
  - cbn [foldM fst snd]. unfold bind.
    destruct (scanCell_visit d callback total r c acc s Hpause Hcb)
      as (res & seg & w1 & -> & Hc & Hr & Hv).
    destruct (IH {| acc_results := acc_results acc ++ [res]; processed := processed acc + 1 |}
                 (mkState w1 (journal s ++ seg)))
      as (visits & w2 & -> & Hcoords & Hall).
    exists ((res, seg) :: visits), w2. cbn [acc_results processed journal map fst snd concat].
    rewrite <- !app_assoc. cbn [app]. split; [| split].
    + cbn [length]. rewrite Nat2Z.inj_succ.
      replace (processed acc + 1 + Z.of_nat (length cells))
        with (processed acc + Z.succ (Z.of_nat (length cells))) by lia.
      reflexivity.
    + unfold visitCoords in *. cbn [map fst]. now rewrite Hc, Hr, Hcoords.
    + constructor; assumption.
Qed.

Lemma scanCells_skip (d : Q) (callback : option (Z -> Z -> Z -> Z -> W -> outcome unit * W))
    (total : Z) (cells : list (Z * Z)) (acc : ScanAcc) (s : state W) :
  foldM (fun p acc => scanCell deps d true callback total (snd p) (fst p) acc) cells acc s
  = (Ok {| acc_results := acc_results acc;
           processed := processed acc + Z.of_nat (length cells) |}, s).
Proof.
  revert acc. induction cells as [| [c r] cells IH]; intros acc.
  - cbn. rewrite Z.add_0_r. now destruct acc.
  - cbn [foldM fst snd]. unfold bind. rewrite scanCell_skip, IH.
    cbn [acc_results processed length]. rewrite Nat2Z.inj_succ.
    replace (processed acc + 1 + Z.of_nat (length cells))
      with (processed acc + Z.succ (Z.of_nat (length cells))) by lia.
    reflexivity.
Qed.

Lemma hovered_visits (visits : list (CellResult * list (call * bool))) :
  Forall (fun v => cellVisited (fst v) (snd v)) visits ->
  hovered (concat (map snd visits)) = visitCoords visits.
Proof.
  induction 1 as [| v visits (Hh & _) _ IH]; [reflexivity |].
  cbn [map concat visitCoords]. rewrite hovered_app, Hh, IH. reflexivity.
Qed.

(** The two loops of the scan are one pass over the cells in row-major
    order. *)
Lemma scan_loops (grid : Grid) (body : Z -> Z -> ScanAcc -> M W ScanAcc)
    (acc : ScanAcc) (s : state W) :
  for_lt (Z.to_nat (rows grid)) 0 (rows grid) 1
    (fun row acc => for_lt (Z.to_nat (cols grid)) 0 (cols grid) 1
                      (fun col acc => body row col acc) acc) acc s
  = foldM (fun p acc => body (snd p) (fst p) acc) (rowMajor grid) acc s.
Proof.
  rewrite for_lt_budget by lia. rewrite Z.sub_0_r.
  rewrite (foldM_ext _
             (fun row acc => foldM (fun col acc => body row col acc)
                               (range 0 (Z.to_nat (cols grid))) acc)).
  - apply foldM_nested.
  - intros row acc0 s0 _. rewrite for_lt_budget by lia. now rewrite Z.sub_0_r.
Qed.

(** Moving the pointer away after the scan never throws into it. *)
Lemma scan_move_away (s : state W) :
  exists tail w',
    try_catch
      (bind (await (CallMouseMove 0 0) (mouse_move deps 0 0))
         (fun _ => await (CallWaitForTimeout 100) (waitForTimeout deps 100)))
      (fun _ => ret tt) s
    = (Ok tt, mkState w' (journal s ++ tail)) /\
    hovered tail = [] /\ ~ In CallGetVisibleTooltips (map fst tail).
Proof.
  unfold try_catch, bind, await, ret.
  destruct (mouse_move deps 0 0 (world s)) as [[[] | e1] w1]; cbn [world journal resolved].
  - destruct (waitForTimeout deps 100 w1) as [[[] | e2] w2]; cbn [resolved];
      eexists _, _; rewrite <- app_assoc; (split; [reflexivity |]);
      (split; [reflexivity |]); cbn; intros [H | [H | []]]; discriminate H.
  - eexists _, _. split; [reflexivity |]. split; [reflexivity |].
    cbn. intros [H | []]. discriminate H.
Qed.

Lemma scan_unfold (grid : Grid) (options : option (ScanOptions W)) (s : state W) :
  scanAllCellsForTooltips deps grid options s
  = bind
      (foldM (fun p acc =>
                scanCell deps (hoverDelayOf options) (skipOf options) (callbackOf options)
                  (cols grid * rows grid) (snd p) (fst p) acc)
         (rowMajor grid) {| acc_results := []; processed := 0 |})
      (fun acc =>
         bind
           (try_catch
              (bind (await (CallMouseMove 0 0) (mouse_move deps 0 0))
                 (fun _ => await (CallWaitForTimeout 100) (waitForTimeout deps 100)))
              (fun _ => ret tt))
           (fun _ => ret (report acc))) s.
Proof.
  unfold scanAllCellsForTooltips, hoverDelayOf, skipOf, callbackOf.
  destruct options as [o |]; cbn beta iota; unfold bind at 1 4;
    rewrite (scan_loops grid (fun row col acc => scanCell deps _ _ _ _ row col acc));
    reflexivity.
Qed.

Lemma scan_returns_report (grid : Grid) (options : option (ScanOptions W))
    (s s' : state W) (rep : ScanReport.t) :
  scanAllCellsForTooltips deps grid options s = (Ok rep, s') ->
  exists acc, rep = report acc.
Proof.
  rewrite scan_unfold. unfold bind at 1.
  destruct (foldM _ (rowMajor grid) _ s) as [[acc | e] s1]; [| discriminate].
  unfold bind at 1. destruct (scan_move_away s1) as (tail & w' & -> & _).
  unfold ret. intros H. injection H as <- _. now exists acc.
Qed.

Lemma existsb_filter {A : Type} (f : A -> bool) (l : list A) :
  existsb f l = true <-> (0 < length (List.filter f l))%nat.
Proof.
  induction l as [| x l IH]; cbn [existsb List.filter].
  - cbn. split; [discriminate | lia].
  - destruct (f x); cbn [orb length]; [split; [lia | reflexivity] | exact IH].
Qed.

Lemma filter_and_length {A : Type} (f g : A -> bool) (l : list A) :
  (length (List.filter (fun x => f x && g x) l) <= length (List.filter f l))%nat.
Proof.
  induction l as [| x l IH]; cbn [List.filter]; [lia |].
  destruct (f x), (g x); cbn [andb length]; lia.
Qed.

(** C10.  A report returned by [scanAllCellsForTooltips] is consistent:
    [cellsWithTooltips] counts the results with [hasTooltip] and is the
    length of [summary.tooltipCells]; [summary.hasAnyTooltips] holds
    exactly when that count is positive; [summary.domTooltips] is at most
    that count; [summary.canvasTooltips] is 0 and [colorTestingDisabled]
    is true. *)
Theorem report_consistent (grid : Grid) (options : option (ScanOptions W))
    (s s' : state W) (rep : ScanReport.t) :
  scanAllCellsForTooltips deps grid options s = (Ok rep, s') ->
  ScanReport.cellsWithTooltips rep = length (List.filter hasTooltip (ScanReport.results rep)) /\
  ScanReport.cellsWithTooltips rep = length (Summary.tooltipCells (ScanReport.summary rep)) /\
  (Summary.hasAnyTooltips (ScanReport.summary rep) = true <-> (0 < ScanReport.cellsWithTooltips rep)%nat) /\
  (Summary.domTooltips (ScanReport.summary rep) <= ScanReport.cellsWithTooltips rep)%nat /\
  Summary.canvasTooltips (ScanReport.summary rep) = 0%nat /\
  ScanReport.colorTestingDisabled rep = true.
Proof.
  intros H. apply scan_returns_report in H as [acc ->].
  unfold report.
  cbn [ScanReport.cellsWithTooltips ScanReport.results ScanReport.summary
         Summary.tooltipCells Summary.hasAnyTooltips Summary.domTooltips
         Summary.canvasTooltips ScanReport.colorTestingDisabled].
  split; [reflexivity |]. split; [now rewrite length_map |].
  split; [apply existsb_filter |]. split; [apply filter_and_length |].
  split; reflexivity.
Qed.

(** The scan as a sequence of visits: one entry of the results and one
    segment of the journal per visited cell. *)
Lemma scan_visits (grid : Grid) (options : option (ScanOptions W))
    (s : state W) :
  pauseResolves deps -> callbackResolves (callbackOf options) ->
  exists rep visits tail w',
    scanAllCellsForTooltips deps grid options s
    = (Ok rep, mkState w' (journal s ++ concat (map snd visits) ++ tail)) /\
    ScanReport.results rep = map fst visits /\
    visitCoords visits = (if skipOf options then [] else rowMajor grid) /\
    Forall (fun v => cellVisited (fst v) (snd v)) visits /\
    hovered tail = [] /\ ~ In CallGetVisibleTooltips (map fst tail).
Proof.
  intros Hpause Hcb. rewrite scan_unfold. unfold bind at 1.
  destruct (skipOf options) eqn:Hskip.
  - rewrite scanCells_skip. unfold bind at 1.
    destruct (scan_move_away s) as (tail & w' & -> & Hh & Hq). unfold ret.
    exists (report {| acc_results := [];
                      processed := 0 + Z.of_nat (length (rowMajor grid)) |}), [], tail, w'.
    cbn [map concat app]. repeat split; try assumption. constructor.
  - destruct (scanCells_visit (hoverDelayOf options) (callbackOf options)
                (cols grid * rows grid) (rowMajor grid)
                {| acc_results := []; processed := 0 |} s Hpause Hcb)
      as (visits & w1 & -> & Hcoords & Hall).
    unfold bind at 1.
    destruct (scan_move_away (mkState w1 (journal s ++ concat (map snd visits))))
      as (tail & w' & -> & Hh & Hq).
    unfold ret. cbn [journal acc_results app].
    eexists _, visits, tail, w'. rewrite <- app_assoc.
    split; [reflexivity |]. cbn [ScanReport.results report acc_results].
    repeat split; assumption.
Qed.

(** C5.  Whatever the hover, the wait after it and the tooltip query do
    (resolve or throw), a scan whose pause between cells and whose
    progress callback do not throw returns a report.  Its results are the
    visited cells in order, one entry per cell, every cell of the grid
    when cells are not skipped; the journal is made of one segment per
    entry, in which that cell is the one hovered; and an entry whose
    segment holds a rejected call (the hover, the wait or the query threw)
    has [hasTooltip = false] and no text. *)
Theorem scan_isolates_failures (grid : Grid) (options : option (ScanOptions W))
    (s : state W) :
  pauseResolves deps -> callbackResolves (callbackOf options) ->
  exists rep visits tail w',
    scanAllCellsForTooltips deps grid options s
    = (Ok rep, mkState w' (journal s ++ concat (map snd visits) ++ tail)) /\
    ScanReport.results rep = map fst visits /\
    map (fun r => (col r, row r)) (ScanReport.results rep)
    = (if skipOf options then [] else rowMajor grid) /\
    (forall res seg, In (res, seg) visits ->
       hovered seg = [(col res, row res)] /\
       forall c, In (c, false) seg -> hasTooltip res = false /\ tooltipText res = None) /\
    hovered tail = [].
Proof.
  intros Hpause Hcb.
  destruct (scan_visits grid options s Hpause Hcb)
    as (rep & visits & tail & w' & E & Hres & Hcoords & Hall & Hh & _).
  exists rep, visits, tail, w'. split; [exact E |]. split; [exact Hres |].
  split; [| split; [| exact Hh]].
  - rewrite Hres, map_map. exact Hcoords.
  - intros res seg Hin. rewrite List.Forall_forall in Hall.
    destruct (Hall (res, seg) Hin) as (H1 & H2 & _). split; assumption.
Qed.

(** With [skipEmptyCells: false] every cell of the grid is hovered once,
    in row-major order, and has its entry in the results in that order. *)
Lemma scan_row_major (grid : Grid) (options : option (ScanOptions W)) (s : state W) :
  pauseResolves deps -> callbackResolves (callbackOf options) -> skipOf options = false ->
  exists rep j w',
    scanAllCellsForTooltips deps grid options s = (Ok rep, mkState w' (journal s ++ j)) /\
    hovered j = rowMajor grid /\
    map (fun r => (col r, row r)) (ScanReport.results rep) = rowMajor grid.
Proof.
  intros Hpause Hcb Hskip.
  destruct (scan_visits grid options s Hpause Hcb)
    as (rep & visits & tail & w' & E & Hres & Hcoords & Hall & Hh & _).
  rewrite Hskip in Hcoords.
  exists rep, (concat (map snd visits) ++ tail), w'. split; [exact E |]. split.
  - rewrite hovered_app, Hh, app_nil_r, (hovered_visits visits Hall). exact Hcoords.
  - rewrite Hres, map_map. exact Hcoords.
Qed.

(** With the default options every cell is skipped: [baselines] is empty
    and [skipEmptyCells] defaults to [true].  No cell is hovered, no
    tooltip is queried, the results are empty, and [totalCells] still
    counts every cell. *)
Lemma scan_default_skips (grid : Grid) (s : state W) :
  exists tail w',
    scanAllCellsForTooltips deps grid None s
    = (Ok (report {| acc_results := [];
                     processed := Z.of_nat (length (rowMajor grid)) |}),
       mkState w' (journal s ++ tail)) /\
    hovered tail = [] /\ ~ In CallGetVisibleTooltips (map fst tail).
Proof.
  rewrite scan_unfold. unfold bind at 1. cbn [skipOf].
  rewrite scanCells_skip. unfold bind at 1.
  destruct (scan_move_away s) as (tail & w' & -> & Hh & Hq). unfold ret.
  exists tail, w'. rewrite Z.add_0_l. repeat split; assumption.
Qed.

End ScanAll.

Section ScanExamples.

Import GridScanner.

Lemma demoScan_ok : demoScan = (Ok demoReport, snd demoScan).
Proof. reflexivity. Qed.

(** On the demo page the scan of the 3 x 2 grid goes through the six cells
    in row-major order; the cell whose hover throws has a negative entry
    and the scan goes on to the cell with the tooltip. *)
Example demoScan_results :
  map (fun r => (col r, row r, hasTooltip r, tooltipText r)) (ScanReport.results demoReport)
  = [ (0, 0, false, None); (1, 0, false, None); (2, 0, false, None);
      (0, 1, false, None); (1, 1, false, None); (2, 1, true, Some "Found tooltip") ] /\
  hovered (journal (snd demoScan)) = [(0, 0); (1, 0); (2, 0); (0, 1); (1, 1); (2, 1)] /\
  ScanReport.totalCells demoReport = 6 /\ ScanReport.cellsWithTooltips demoReport = 1%nat.
Proof. repeat split. Qed.

Lemma demo_pauseResolves : pauseResolves demoDeps.
Proof. intros w. now exists w. Qed.

Lemma scan_isolates_failures_witness :
  exists rep visits tail w',
    scanAllCellsForTooltips demoDeps (mkGrid 3 2) (Some scanEveryCell) demoStart
    = (Ok rep, mkState w' (journal demoStart ++ concat (map snd visits) ++ tail)) /\
    ScanReport.results rep = map fst visits /\
    map (fun r => (col r, row r)) (ScanReport.results rep)
    = (if skipOf (Some scanEveryCell) then [] else rowMajor (mkGrid 3 2)) /\
    (forall res seg, In (res, seg) visits ->
       hovered seg = [(col res, row res)] /\
       forall c, In (c, false) seg -> hasTooltip res = false /\ tooltipText res = None) /\
    hovered tail = [].
Proof.
  apply (scan_isolates_failures demoDeps (mkGrid 3 2) (Some scanEveryCell) demoStart).
  - exact demo_pauseResolves.
  - exact I.
Defined.

Lemma report_consistent_witness :
  ScanReport.cellsWithTooltips demoReport = length (List.filter hasTooltip (ScanReport.results demoReport)) /\
  ScanReport.cellsWithTooltips demoReport = length (Summary.tooltipCells (ScanReport.summary demoReport)) /\
  (Summary.hasAnyTooltips (ScanReport.summary demoReport) = true <-> (0 < ScanReport.cellsWithTooltips demoReport)%nat) /\
  (Summary.domTooltips (ScanReport.summary demoReport) <= ScanReport.cellsWithTooltips demoReport)%nat /\
  Summary.canvasTooltips (ScanReport.summary demoReport) = 0%nat /\
  ScanReport.colorTestingDisabled demoReport = true.
Proof.
  apply (report_consistent demoDeps (mkGrid 3 2) (Some scanEveryCell) demoStart (snd demoScan)).
  reflexivity.
Defined.

(** C1 at the grid 3 x 2.  Called with its default options the scan hovers
    no cell and queries no tooltip: every cell is skipped because no
    baseline was collected, the results are empty, and [totalCells] is 6.
    The order the claim describes, (0,0), (1,0), (2,0), (0,1), (1,1),
    (2,1), is the order of [rowMajor], which the scan only follows with
    [skipEmptyCells: false] (lemma [scan_row_major]). *)
Theorem scan_default_3x2 {W : Type} (deps : Deps W) (s : state W) :
  exists tail w',
    scanAllCellsForTooltips deps (mkGrid 3 2) None s
    = (Ok {| ScanReport.totalCells := 6; ScanReport.cellsWithTooltips := 0; ScanReport.results := [];
             ScanReport.colorTestingDisabled := true;
             ScanReport.summary := {| Summary.hasAnyTooltips := false; Summary.tooltipCells := [];
                           Summary.domTooltips := 0; Summary.canvasTooltips := 0 |} |},
       mkState w' (journal s ++ tail)) /\
    hovered tail = [] /\ ~ In CallGetVisibleTooltips (map fst tail) /\
    rowMajor (mkGrid 3 2) = [(0, 0); (1, 0); (2, 0); (0, 1); (1, 1); (2, 1)].
Proof.
  destruct (scan_default_skips deps (mkGrid 3 2) s) as (tail & w' & E & Hh & Hq).
  exists tail, w'. split; [exact E |]. repeat split; assumption.
Qed.

End ScanExamples.

(** ** selectCellsAndExtractText: the normalized region *)

Section Region.

Import GridScanner.

(** Swapping the two corners gives the same region. *)
Lemma normalizeRegion_swap (grid : Grid) (startCol startRow endCol endRow : Z) :
  normalizeRegion grid endCol endRow startCol startRow
  = normalizeRegion grid startCol startRow endCol endRow.
Proof.
  unfold normalizeRegion. f_equal; lia.
Qed.

(** The region is ordered and inside the grid exactly when, on each axis,
    the two requested coordinates are not both before the grid or both
    after it. *)
Lemma normalizeRegion_ordered (grid : Grid) (sc sr ec er : Z) :
  1 <= cols grid -> 1 <= rows grid ->
  let r := normalizeRegion grid sc sr ec er in
  (startCol r <= endCol r /\ 0 <= startCol r /\ endCol r <= cols grid - 1 /\
   startRow r <= endRow r /\ 0 <= startRow r /\ endRow r <= rows grid - 1)
  <-> (0 <= Z.max sc ec /\ Z.min sc ec <= cols grid - 1 /\
       0 <= Z.max sr er /\ Z.min sr er <= rows grid - 1).
Proof.
  intros Hc Hr. cbn. lia.
Qed.

(** C6 at the grid 3 x 2 with the corners (5, 0) and (7, 1), both right of
    the grid.  The region returned starts at column 5 and ends at column
    2: the start is after the end and outside [0, cols - 1], no cell is
    gone through, and [totalCells] is -4.  With the corners (5, 5) and
    (7, 8) both axes are reversed and [totalCells] is 6 for no cell. *)
Theorem normalizeRegion_outside :
  let r := normalizeRegion (mkGrid 3 2) 5 0 7 1 in
  r = {| startCol := 5; startRow := 0; endCol := 2; endRow := 1 |} /\
  endCol r < startCol r /\ cols (mkGrid 3 2) - 1 < startCol r /\
  regionTotalCells r = -4 /\ regionCells r = [] /\
  normalizeRegion (mkGrid 3 2) 7 1 5 0 = r /\
  regionTotalCells (normalizeRegion (mkGrid 3 2) 5 5 7 8) = 6 /\
  regionCells (normalizeRegion (mkGrid 3 2) 5 5 7 8) = [].
Proof. cbv. repeat split. Qed.

(** The region of the unit test. *)
Example normalizeRegion_test :
  let r := normalizeRegion (mkGrid 3 2) 0 0 1 1 in
  r = {| startCol := 0; startRow := 0; endCol := 1; endRow := 1 |} /\
  regionTotalCells r = 4 /\ regionCells r = [(0, 0); (1, 0); (0, 1); (1, 1)].
Proof. cbv. repeat split. Qed.

End Region.

(** ** hasAnyTooltips: the cells to check *)

Section CellsToCheck.

Import GridScanner.


(** For [cap > 0] the integer square root of [stride] is the largest
    [k >= 0] with [k * k * cap <= n * n]. *)
Lemma floor_div_sqrt_square (n : Z) (cap : Q) :
  (0 < cap)%Q ->
  let k := floor_div_sqrt n cap in
  0 <= k /\
  (inject_Z (k * k) * cap <= inject_Z (n * n))%Q /\
  (inject_Z (n * n) < inject_Z ((k + 1) * (k + 1)) * cap)%Q.
Proof.
  intros Hcap k. unfold k, floor_div_sqrt.
  set (q := (inject_Z (n * n) / cap)%Q).
  assert (Hqc : (q * cap == inject_Z (n * n))%Q).
  { unfold q. field. intros H. rewrite H in Hcap. now apply Qlt_irrefl in Hcap. }
  assert (Hq : (0 <= q)%Q).
  { unfold q. apply Qle_shift_div_l; [exact Hcap |]. rewrite Qmult_0_l.
    change 0%Q with (inject_Z 0). rewrite <- Zle_Qle. nia. }
  assert (Hf : 0 <= Qfloor q).
  { change 0 with (Qfloor 0). now apply Qfloor_resp_le. }
  destruct (Z.sqrt_spec (Qfloor q) Hf) as [Hlo Hhi].
  assert (Hk := Z.sqrt_nonneg (Qfloor q)).
  set (r := Z.sqrt (Qfloor q)) in *. unfold Z.succ in Hhi.
  split; [exact Hk |]. split.
  - rewrite <- Hqc. apply Qmult_le_compat_r; [| now apply Qlt_le_weak].
    apply Qle_trans with (inject_Z (Qfloor q)); [now rewrite <- Zle_Qle | apply Qfloor_le].
  - rewrite <- Hqc. apply Qmult_lt_compat_r; [exact Hcap |].
    apply Qlt_le_trans with (inject_Z (Qfloor q + 1)); [apply Qlt_floor |].
    rewrite <- Zle_Qle. lia.
Qed.






(** A cap of 0 or below: the first cell is pushed before the cap is
    tested. *)
Lemma cellsToCheck_no_cap (grid : Grid) (cap : Q) :
  (cap <= 0)%Q -> 1 <= cols grid -> 1 <= rows grid -> cellsToCheck grid cap = [(0, 0)].
Proof.
  intros Hcap Hc Hr. unfold cellsToCheck.
  destruct (Z.to_nat (rows grid)) as [| br] eqn:Er; [lia |]. cbn [pushRows].
  destruct (Z.ltb_spec 0 (rows grid)) as [_ | H]; [| lia].
  destruct (Z.to_nat (cols grid)) as [| bc] eqn:Ec; [lia |]. cbn [pushCols].
  destruct (Z.ltb_spec 0 (cols grid)) as [_ | H]; [| lia].
  cbn [app length].
  assert (E : Qle_bool cap (inject_Z (Z.of_nat 1)) = true).
  { apply Qle_bool_iff. change (inject_Z (Z.of_nat 1)) with 1%Q. lra. }
  rewrite E. cbn [length]. rewrite E. reflexivity.
Qed.

(** The checks of the unit tests and of the README: the default cap on
    the 3 x 2 grid, and 15 cells of the 10 x 6 grid; and a cap of one
    and a half. *)
Example cellsToCheck_tests :
  cellsToCheck (mkGrid 3 2) (inject_Z (Z.min 20 (3 * 2)))
  = [(0, 0); (1, 0); (2, 0); (0, 1); (1, 1); (2, 1)] /\
  cellsToCheck (mkGrid 10 6) 15
  = [ (0, 0); (2, 0); (4, 0); (6, 0); (8, 0); (0, 1); (2, 1); (4, 1); (6, 1); (8, 1);
      (0, 2); (2, 2); (4, 2); (6, 2); (8, 2) ] /\
  cellsToCheck (mkGrid 3 2) (3 # 2) = [(0, 0); (2, 0)].
Proof. repeat split; reflexivity. Qed.

End CellsToCheck.

(** ** hasAnyTooltips *)


Section HasAnyTooltips.

Import GridScanner.

Context {W : Type} (deps : Deps W).






End HasAnyTooltips.

Section HasAnyTooltipsExamples.

Import GridScanner.


(** On the demo page the quick check of the 3 x 2 grid stops at the cell
    (2, 1), where the tooltip shows, without moving the pointer away; the
    cell (1, 0), whose hover throws, is passed over. *)
Example hasAnyTooltips_demo :
  let run := hasAnyTooltips demoDeps (mkGrid 3 2) None demoStart in
  fst run = Ok (Some {| QuickResult.found := true; QuickResult.firstTooltipAt := Some (2, 1);
                        QuickResult.tooltipText := Some "Found tooltip" |}) /\
  sampled (journal (snd run)) = [(0, 0); (1, 0); (2, 0); (0, 1); (1, 1); (2, 1)] /\
  hovered (journal (snd run)) = [(0, 0); (1, 0); (2, 0); (0, 1); (1, 1); (2, 1)] /\
  ~ In (CallMouseMove 0 0) (map fst (journal (snd run))).
Proof.
  cbv. repeat split. intros H.
  repeat (destruct H as [H | H]; [discriminate H |]). exact H.
Qed.

(** On a page whose canvas is tainted the baseline sample of the first
    cell is never settled, and the quick check never returns: the sample
    is all it does. *)
Example hasAnyTooltips_tainted :
  hasAnyTooltips taintedDeps (mkGrid 3 2) None demoStart
  = (Ok None, mkState None [(CallSampleCell 0 0, false)]).
Proof. reflexivity. Qed.


End HasAnyTooltipsExamples.

(** ** The budgets of the loops that fill [cellsToCheck] *)

Section PushBudget.

Import GridScanner.

(** With a stride of at least 1 the inner loop ends by its test or its
    [break] within [cols - col] iterations: a larger budget changes
    nothing. *)
Lemma pushCols_budget (b b' : nat) (col cols stepCol row : Z) (cap : Q) (cells : list (Z * Z)) :
  1 <= stepCol ->
  (Z.to_nat (cols - col) <= b)%nat -> (Z.to_nat (cols - col) <= b')%nat ->
  pushCols b col cols stepCol row cap cells = pushCols b' col cols stepCol row cap cells.
Proof.
  intros Hstep. revert b' col cells.
  induction b as [| b IH]; intros b' col cells Hb Hb'.
  - destruct b' as [| b']; [reflexivity |]. cbn [pushCols].
    destruct (col <? cols) eqn:Hlt; [apply Z.ltb_lt in Hlt; lia | reflexivity].
  - destruct b' as [| b']; cbn [pushCols].
    + destruct (col <? cols) eqn:Hlt; [apply Z.ltb_lt in Hlt; lia | reflexivity].
    + destruct (col <? cols) eqn:Hlt; [| reflexivity]. apply Z.ltb_lt in Hlt.
      destruct (Qle_bool cap (inject_Z (Z.of_nat (length (cells ++ [(col, row)])))));
        [reflexivity |].
      apply IH; lia.
Qed.

Lemma pushRows_budget (b b' : nat) (row rows stepRow cols stepCol : Z) (cap : Q)
    (cells : list (Z * Z)) :
  1 <= stepRow ->
  (Z.to_nat (rows - row) <= b)%nat -> (Z.to_nat (rows - row) <= b')%nat ->
  pushRows b row rows stepRow cols stepCol cap cells
  = pushRows b' row rows stepRow cols stepCol cap cells.
Proof.
  intros Hstep. revert b' row cells.
  induction b as [| b IH]; intros b' row cells Hb Hb'.
  - destruct b' as [| b']; [reflexivity |]. cbn [pushRows].
    destruct (row <? rows) eqn:Hlt; [apply Z.ltb_lt in Hlt; lia | reflexivity].
  - destruct b' as [| b']; cbn [pushRows].
    + destruct (row <? rows) eqn:Hlt; [apply Z.ltb_lt in Hlt; lia | reflexivity].
    + destruct (row <? rows) eqn:Hlt; [| reflexivity]. apply Z.ltb_lt in Hlt.
      destruct (Qle_bool cap
                  (inject_Z (Z.of_nat (length (pushCols (Z.to_nat cols) 0 cols stepCol row cap cells)))));
        [reflexivity |].
      apply IH; lia.
Qed.

(** The integer square root in [stride] is the floor of the real quotient
    [n / sqrt cap] of the source. *)
Lemma floor_div_sqrt_real (n : Z) (cap : Q) :
  0 <= n -> (0 < cap)%Q ->
  (IZR (floor_div_sqrt n cap) <= IZR n / sqrt (Q2R cap) < IZR (floor_div_sqrt n cap) + 1)%R.
Proof.
  intros Hn Hcap.
  destruct (floor_div_sqrt_square n cap Hcap) as (Hk & Hlo & Hhi).
  set (k := floor_div_sqrt n cap) in *.
  assert (HcapR : (0 < Q2R cap)%R).
  { replace 0%R with (Q2R 0) by (unfold Q2R; cbn; lra). now apply Qreals.Qlt_Rlt. }
  assert (Hinj : forall z, Q2R (inject_Z z) = IZR z).
  { intros z. unfold Q2R, inject_Z. cbn. lra. }
  apply Qreals.Qle_Rle in Hlo. apply Qreals.Qlt_Rlt in Hhi.
  rewrite Qreals.Q2R_mult, !Hinj in Hlo. rewrite Qreals.Q2R_mult, !Hinj in Hhi.
  assert (Hc : (0 < sqrt (Q2R cap))%R) by (apply sqrt_lt_R0; lra).
  assert (Hcc : (sqrt (Q2R cap) * sqrt (Q2R cap) = Q2R cap)%R) by (apply sqrt_sqrt; lra).
  set (c := sqrt (Q2R cap)) in *.
  apply IZR_le in Hk, Hn.
  rewrite !mult_IZR in Hlo. rewrite !mult_IZR, plus_IZR in Hhi.
  split.
  - apply Rmult_le_reg_r with c; [exact Hc |].
    unfold Rdiv. rewrite Rmult_assoc, Rinv_l, Rmult_1_r by lra.
    destruct (Rle_lt_dec (IZR k * c) (IZR n)) as [H | H]; [exact H | exfalso].
    assert (IZR n * IZR n < (IZR k * c) * (IZR k * c))%R by nra.
    nra.
  - apply Rmult_lt_reg_r with c; [exact Hc |].
    unfold Rdiv. rewrite Rmult_assoc, Rinv_l, Rmult_1_r by lra.
    destruct (Rlt_le_dec (IZR n) ((IZR k + 1) * c)) as [H | H]; [exact H | exfalso].
    assert (H0 : (0 <= (IZR k + 1) * c)%R) by (apply Rmult_le_pos; lra).
    assert (((IZR k + 1) * c) * ((IZR k + 1) * c) <= IZR n * IZR n)%R
      by (apply Rmult_le_compat; assumption).
    nra.
Qed.

End PushBudget.

(** ** TooltipDetector.waitForTooltip *)

Lemma waited_app (j1 j2 : list (call * bool)) :
  waited (j1 ++ j2) = waited j1 ++ waited j2.
Proof. apply flat_map_app. Qed.

Section StringFacts.

Lemma append_cons (x : Ascii.ascii) (a b : string) : String x a +:+ b = String x (a +:+ b).
Proof. reflexivity. Qed.

Lemma append_assoc (a b c : string) : (a +:+ b) +:+ c = a +:+ (b +:+ c).
Proof.
  induction a as [| x a IH]; [reflexivity |]. now rewrite !append_cons, IH.
Qed.

Lemma append_nil_r (a : string) : a +:+ "" = a.
Proof.
  induction a as [| x a IH]; [reflexivity |]. now rewrite append_cons, IH.
Qed.

Lemma concat_names (sep : string) (l : list string) (sel : string) :
  In sel l -> exists pre post, String.concat sep l = pre +:+ sel +:+ post.
Proof.
  induction l as [| x l IH]; intros Hin; [destruct Hin |].
  destruct l as [| y l].
  - destruct Hin as [<- | []]. exists "", "". cbn. now rewrite append_nil_r.
  - change (String.concat sep (x :: y :: l)) with (x +:+ sep +:+ String.concat sep (y :: l)).
    destruct Hin as [<- | Hin].
    + exists "", (sep +:+ String.concat sep (y :: l)). reflexivity.
    + destruct (IH Hin) as (pre & post & ->).
      exists (x +:+ sep +:+ pre), post. now rewrite !append_assoc.
Qed.

Lemma timeoutMessage_names (timeout : Z) (selectors : list string) :
  namesAll (TooltipDetector.timeoutMessage timeout selectors) timeout selectors.
Proof.
  unfold namesAll, TooltipDetector.timeoutMessage. split.
  - eexists. reflexivity.
  - intros sel Hin. destruct (concat_names ", " selectors sel Hin) as (pre & post & ->).
    exists ("No tooltip found within " +:+ pretty timeout +:+ "ms using selectors: " +:+ pre), post.
    now rewrite !append_assoc.
Qed.

(** The message of the unit test, and the one of the defaults. *)
Example timeoutMessage_tests :
  TooltipDetector.timeoutMessage 1000 [".tooltip"; ".d3-tip"]
  = "No tooltip found within 1000ms using selectors: .tooltip, .d3-tip" /\
  length TooltipDetector.defaultSelectors = 8%nat /\
  (inject_Z 3000 / inject_Z (Z.of_nat (length TooltipDetector.defaultSelectors)) == 375)%Q.
Proof. repeat split. Qed.

End StringFacts.

Section WaitForTooltip.

Import TooltipDetector.

Context {W : Type} (deps : Deps W).

Lemma trySelector_spec (share : Q) (sel : string) (s : state W) :
  exists r seg w',
    trySelector deps share sel s = (Ok r, mkState w' (journal s ++ seg)) /\
    waited seg = [(sel, share)] /\
    (forall info, r = Some info ->
       seg = fullRead share sel /\
       exists text html box,
         readsYield deps share sel (world s) text html box w' /\
         info = {| TooltipInfo.selector := sel; TooltipInfo.text := or_undefined text;
                   TooltipInfo.html := html; TooltipInfo.boundingBox := box |}) /\
    (r = None -> exists c, In (c, false) seg) /\
    (neverVisible deps -> r = None).
Proof.
  unfold trySelector, try_catch, bind, await, ret, fullRead, readsYield.
  destruct (waitFor deps sel share (world s)) as [[[] | e0] w0] eqn:E0;
    cbn [world journal resolved].
  2:{ exists None, [(CallWaitFor sel share, false)], w0. split; [reflexivity |].
      split; [reflexivity |]. split; [discriminate |].
      split; [intros _; eexists; now left | reflexivity]. }
  assert (Hvis : neverVisible deps -> False).
  { intros Hn. destruct (Hn sel share (world s)) as (e & w' & E). congruence. }
  destruct (textContent deps sel w0) as [[text | e1] w1] eqn:E1; cbn [world journal resolved].
  2:{ exists None, [(CallWaitFor sel share, true); (CallTextContent sel, false)], w1.
      rewrite <- app_assoc. split; [reflexivity |].
      split; [reflexivity |]. split; [discriminate |].
      split; [intros _; eexists; right; now left | reflexivity]. }
  destruct (innerHTML deps sel w1) as [[html | e2] w2] eqn:E2; cbn [world journal resolved].
  2:{ exists None, [(CallWaitFor sel share, true); (CallTextContent sel, true);
                    (CallInnerHTML sel, false)], w2.
      rewrite <- !app_assoc. split; [reflexivity |].
      split; [reflexivity |]. split; [discriminate |].
      split; [intros _; eexists; right; right; now left | reflexivity]. }
  destruct (locatorBoundingBox deps sel w2) as [[box | e3] w3] eqn:E3;
    cbn [world journal resolved].
  2:{ exists None, [(CallWaitFor sel share, true); (CallTextContent sel, true);
                    (CallInnerHTML sel, true); (CallBoundingBox sel, false)], w3.
      rewrite <- !app_assoc. split; [reflexivity |].
      split; [reflexivity |]. split; [discriminate |].
      split; [intros _; eexists; right; right; right; now left | reflexivity]. }
  eexists _, _, w3. rewrite <- !app_assoc. split; [reflexivity |].
  split; [reflexivity |]. split; [| split; [discriminate | intros Hn; destruct (Hvis Hn)]].
  intros info Hinfo. injection Hinfo as <-. split; [reflexivity |].
  exists text, html, box. split; [| reflexivity]. now exists w0, w1, w2.
Qed.

(** An attempt that goes through ends the loop with that selector. *)
Lemma trySelectors_found (share : Q) (sel : string) (others : list string) (s : state W)
    (text : option string) (html : string) (box : option BoundingBox.t) (w' : W) :
  readsYield deps share sel (world s) text html box w' ->
  trySelectors deps share (sel :: others) s
  = (Ok (Some {| TooltipInfo.selector := sel; TooltipInfo.text := or_undefined text;
                 TooltipInfo.html := html; TooltipInfo.boundingBox := box |}),
     mkState w' (journal s ++ fullRead share sel)).
Proof.
  intros (w1 & w2 & w3 & E0 & E1 & E2 & E3).
  cbn [trySelectors]. unfold bind at 1. unfold trySelector, try_catch, bind, await, ret, fullRead.
  rewrite E0. cbn [world journal resolved]. rewrite E1. cbn [world journal resolved].
  rewrite E2. cbn [world journal resolved]. rewrite E3. cbn [world journal resolved].
  rewrite <- !app_assoc. reflexivity.
Qed.

Lemma trySelectors_spec (share : Q) (selectors : list string) (s : state W) :
  exists r visits w' rest,
    trySelectors deps share selectors s
    = (Ok r, mkState w' (journal s ++ concat (map snd visits))) /\
    selectors = map fst visits ++ rest /\
    Forall (fun v => waited (snd v) = [(fst v, share)]) visits /\
    (forall info, r = Some info ->
       exists pre w0 text html box,
         visits = pre ++ [(TooltipInfo.selector info,
                           fullRead share (TooltipInfo.selector info))] /\
         Forall (fun v => exists c, In (c, false) (snd v)) pre /\
         readsYield deps share (TooltipInfo.selector info) w0 text html box w' /\
         info = {| TooltipInfo.selector := TooltipInfo.selector info;
                   TooltipInfo.text := or_undefined text;
                   TooltipInfo.html := html; TooltipInfo.boundingBox := box |}) /\
    (r = None -> rest = [] /\ Forall (fun v => exists c, In (c, false) (snd v)) visits) /\
    (neverVisible deps -> r = None).
Proof.
  revert s. induction selectors as [| sel selectors IH]; intros s.
  - exists None, [], (world s), []. cbn [trySelectors map concat]. unfold ret.
    rewrite app_nil_r. destruct s. repeat split; try constructor; discriminate.
  - cbn [trySelectors]. unfold bind.
    destruct (trySelector_spec share sel s) as (r & seg & w1 & -> & Hw & Hsome & Hnone & Hnv).
    destruct r as [info |].
    + destruct (Hsome info eq_refl) as (Hseg & text & html & box & Hy & Hinfo).
      exists (Some info), [(sel, seg)], w1, selectors. unfold ret. cbn [map concat fst snd].
      rewrite app_nil_r. split; [reflexivity |]. split; [reflexivity |].
      split; [repeat constructor; exact Hw |].
      split; [| split; [discriminate | intros Hn; apply Hnv in Hn; discriminate Hn]].
      intros info' Hinfo'. injection Hinfo' as <-.
      exists [], (world s), text, html, box.
      rewrite Hinfo. cbn [TooltipInfo.selector app]. rewrite Hseg.
      split; [reflexivity |]. split; [constructor |]. split; [exact Hy | reflexivity].
    + destruct (IH (mkState w1 (journal s ++ seg)))
        as (r & visits & w2 & rest & -> & Hsels & Hall & Hsome' & Hnone' & Hnv').
      cbn [journal]. exists r, ((sel, seg) :: visits), w2, rest.
      cbn [map concat fst snd]. rewrite <- app_assoc. split; [reflexivity |].
      split; [now rewrite Hsels |]. split; [constructor; assumption |].
      split; [| split; [| exact Hnv']].
      * intros info Hinfo.
        destruct (Hsome' info Hinfo) as (pre & w0 & text & html & box & -> & Hpre & Hy & Hi).
        exists ((sel, seg) :: pre), w0, text, html, box. split; [reflexivity |].
        split; [constructor; [now apply Hnone | exact Hpre] |]. split; assumption.
      * intros Hr. destruct (Hnone' Hr) as [-> Hf]. split; [reflexivity |].
        constructor; [now apply Hnone | exact Hf].
Qed.

(** C9.  [waitForTooltip] tries the selectors in their order and waits for
    each with [timeout / numberOfSelectors], the same share for all.  An
    attempt goes through when the wait and the three reads (text, markup
    and box) all resolve; a rejected read is caught like a rejected wait
    and the next selector is tried.  When it returns, the selector it
    returns is the last one tried, its attempt went through, the text,
    markup and box are those the page answered, and every selector before
    it had a call rejected: it returns the first selector whose attempt
    goes through, which need not be the first that becomes visible.  It
    throws only when every selector was tried and had a call rejected,
    and this is what happens when no selector becomes visible; for a
    timeout of a whole number of milliseconds below 10^21 the message is
    then the one naming the timeout and all the selectors.  A selector
    that becomes visible within its share and is read is returned at once
    with its text, markup and box. *)
Theorem waitForTooltip_spec (options : option WaitOptions) (s : state W) :
  let selectors := selectorsOf options in
  let share := shareOf options in
  exists r visits w' rest,
    waitForTooltip deps options s = (r, mkState w' (journal s ++ concat (map snd visits))) /\
    selectors = map fst visits ++ rest /\
    (forall sel seg, In (sel, seg) visits -> waited seg = [(sel, share)]) /\
    (forall info, r = Ok info ->
       exists pre w0 text html box,
         visits = pre ++ [(TooltipInfo.selector info,
                           fullRead share (TooltipInfo.selector info))] /\
         (forall sel seg, In (sel, seg) pre -> exists c, In (c, false) seg) /\
         readsYield deps share (TooltipInfo.selector info) w0 text html box w' /\
         info = {| TooltipInfo.selector := TooltipInfo.selector info;
                   TooltipInfo.text := or_undefined text;
                   TooltipInfo.html := html; TooltipInfo.boundingBox := box |}) /\
    (forall message, r = Throw message ->
       rest = [] /\
       (forall sel seg, In (sel, seg) visits -> exists c, In (c, false) seg) /\
       ((Z.abs (timeoutOf options) < 10 ^ 21)%Z ->
        message = timeoutMessage (timeoutOf options) selectors /\
        namesAll message (timeoutOf options) selectors)) /\
    (neverVisible deps -> exists message, r = Throw message) /\
    (forall sel others s0 text html box w0,
       readsYield deps share sel (world s0) text html box w0 ->
       trySelectors deps share (sel :: others) s0
       = (Ok (Some {| TooltipInfo.selector := sel; TooltipInfo.text := or_undefined text;
                      TooltipInfo.html := html; TooltipInfo.boundingBox := box |}),
          mkState w0 (journal s0 ++ fullRead share sel))).
Proof.
  intros selectors share.
  assert (E : waitForTooltip deps options s
              = bind (trySelectors deps share selectors)
                  (fun r => match r with
                            | Some info => ret info
                            | None => throw (timeoutMessage (timeoutOf options) selectors)
                            end) s).
  { unfold waitForTooltip, share, selectors, shareOf, selectorsOf, timeoutOf.
    destruct options as [o |]; reflexivity. }
  rewrite E. unfold bind.
  destruct (trySelectors_spec share selectors s)
    as (r & visits & w1 & rest & -> & Hsels & Hall & Hsome & Hnone & Hnv).
  rewrite List.Forall_forall in Hall.
  assert (Hwaited : forall sel seg, In (sel, seg) visits -> waited seg = [(sel, share)]).
  { intros sel seg Hin. exact (Hall (sel, seg) Hin). }
  destruct r as [info |].
  - exists (Ok info), visits, w1, rest. unfold ret.
    split; [reflexivity |]. split; [exact Hsels |]. split; [exact Hwaited |].
    split; [| split; [discriminate |]].
    + intros info' Hinfo'. injection Hinfo' as <-.
      destruct (Hsome info eq_refl) as (pre & wr & text & html & box & Hv & Hpre & Hy & Hi).
      exists pre, wr, text, html, box. split; [exact Hv |]. split; [| split; assumption].
      intros sel seg Hin. rewrite List.Forall_forall in Hpre. exact (Hpre (sel, seg) Hin).
    + split; [intros Hn; apply Hnv in Hn; discriminate Hn |].
      intros sel others s0 text html box w0 Hy. now apply trySelectors_found.
  - destruct (Hnone eq_refl) as [Hrest Hf]. rewrite List.Forall_forall in Hf.
    exists (Throw (timeoutMessage (timeoutOf options) selectors)), visits, w1, rest. unfold throw.
    split; [reflexivity |]. split; [exact Hsels |]. split; [exact Hwaited |].
    split; [discriminate |]. split; [| split; [intros _; eexists; reflexivity |]].
    + intros message Hm. injection Hm as <-. split; [exact Hrest |].
      split; [intros sel seg Hin; exact (Hf (sel, seg) Hin) |].
      intros _. split; [reflexivity | apply timeoutMessage_names].
    + intros sel others s0 text html box w0 Hy. now apply trySelectors_found.
Qed.

End WaitForTooltip.

Section WaitForTooltipExamples.

Import TooltipDetector.

Local Open Scope Q_scope.

(** C9 as stated fails: the selector returned need not be the first that
    becomes visible, and the error of the timeout is also thrown when a
    selector became visible.  On the page where [.a] becomes visible at
    once and its text cannot be read, [waitForTooltip] with the selectors
    [.a] and [.b] passes [.a] over and returns [.b], and with [.a] as the
    only selector it throws the error of the timeout, although [.a]
    became visible within its share. *)
Lemma waitForTooltip_visible_unread :
  fst (waitFor visibleUnread ".a" (shareOf (Some waitForAB)) tt) = Ok tt /\
  waitForTooltip visibleUnread (Some waitForAB) (mkState tt [])
  = (Ok {| TooltipInfo.selector := ".b"; TooltipInfo.text := Some "tip"%string;
           TooltipInfo.html := "<b>tip</b>"; TooltipInfo.boundingBox := None |},
     mkState tt [ (CallWaitFor ".a" (shareOf (Some waitForAB)), true);
                  (CallTextContent ".a", false);
                  (CallWaitFor ".b" (shareOf (Some waitForAB)), true);
                  (CallTextContent ".b", true);
                  (CallInnerHTML ".b", true); (CallBoundingBox ".b", true) ]) /\
  fst (waitFor visibleUnread ".a" (shareOf (Some waitForA)) tt) = Ok tt /\
  waitForTooltip visibleUnread (Some waitForA) (mkState tt [])
  = (Throw "No tooltip found within 1000ms using selectors: .a",
     mkState tt [ (CallWaitFor ".a" (shareOf (Some waitForA)), true);
                  (CallTextContent ".a", false) ]) /\
  shareOf (Some waitForAB) == 500 /\ shareOf (Some waitForA) == 1000.
Proof.
  split; [reflexivity |]. split; [| split; [reflexivity |]].
  - vm_compute. reflexivity.
  - split; [vm_compute; reflexivity |]. split; reflexivity.
Qed.

End WaitForTooltipExamples.

(** ** ColorSampler.sampleCell *)

Section SampleCell.

Import ColorSampler.

Context {Png : Type}.

Lemma captureRead_settles (env : Env Png) (png : Png) :
  evaluate (captureReadRuns env) (captureRead env png) <> Pending.
Proof.
  unfold evaluate, captureRead. destruct (captureReadRuns env); [| discriminate].
  destruct (createImageBitmap env png) as [bmp | e]; [| discriminate].
  destruct (sumPoints bmp). discriminate.
Qed.

(** When [sampleCell] throws. *)
Lemma sampleCell_throws_iff (env : Env Png) (grid : Grid) (col row : Z) :
  (exists e, fst (sampleCell env grid col row) = Rejected e) <->
  (elementHandle env = Ok None \/ (exists e, elementHandle env = Throw e)) \/
  (exists handle, elementHandle env = Ok (Some handle) /\
     directReadFailed env handle grid col row /\ captureFails env grid col row).
Proof.
  unfold sampleCell, directReadFailed, captureFails.
  destruct (elementHandle env) as [[handle |] | e0].
  - destruct (evaluate (directReadRuns env) (directRead handle grid col row))
      as [rgba | e1 |] eqn:E1; cbn [catch_null fst].
    + split.
      * intros [e H]. discriminate H.
      * intros [[H | [e H]] | (h & Hh & [e H] & _)]; try discriminate H.
        injection Hh as <-. rewrite E1 in H. discriminate H.
    + destruct (boundingBox env) as [[box |] | e2].
      * destruct (screenshot env (cellClip box grid col row)) as [png | e3] eqn:E3; cbn [fst].
        -- split.
           ++ intros [e H]. right. exists handle. split; [reflexivity |]. split; [now exists e1 |].
              right. right. exists box. split; [reflexivity |]. right. exists png.
              split; [exact E3 | now exists e].
           ++ intros [[H | [e H]] | (h & _ & _ & Hc)]; try discriminate H.
              destruct Hc as [H | [[e H] | (box' & Hb & Hs)]]; try discriminate H.
              injection Hb as <-. rewrite E3 in Hs.
              destruct Hs as [[e H] | (png' & Hp & He)]; [discriminate H |].
              injection Hp as <-. exact He.
        -- split; [| intros _; now exists e3].
           intros _. right. exists handle. split; [reflexivity |]. split; [now exists e1 |].
           right. right. exists box. split; [reflexivity |]. left. exists e3. exact E3.
      * cbn [fst]. split; [| intros _; now eexists].
        intros _. right. exists handle. split; [reflexivity |]. split; [now exists e1 |].
        now left.
      * cbn [fst]. split; [| intros _; now eexists].
        intros _. right. exists handle. split; [reflexivity |]. split; [now exists e1 |].
        right. left. now exists e2.
    + split.
      * intros [e H]. discriminate H.
      * intros [[H | [e H]] | (h & Hh & [e H] & _)]; try discriminate H.
        injection Hh as <-. rewrite E1 in H. discriminate H.
  - cbn [fst]. split; [intros _; left; now left | intros _; now eexists].
  - cbn [fst]. split; [intros _; left; right; now exists e0 | intros _; now exists e0].
Qed.

(** Without a handle the call throws before anything is read. *)
Lemma sampleCell_canvas_not_found (env : Env Png) (grid : Grid) (col row : Z) :
  elementHandle env = Ok None ->
  sampleCell env grid col row = (Rejected "canvas not found", [StepElementHandle]).
Proof. intros H. unfold sampleCell. now rewrite H. Qed.

(** A rejected tier 1 is not what the caller sees: the call goes on to the
    box and the capture. *)
Lemma sampleCell_falls_through (env : Env Png) (grid : Grid) (col row : Z) (handle : Element) :
  elementHandle env = Ok (Some handle) ->
  directReadFailed env handle grid col row ->
  exists rest, snd (sampleCell env grid col row)
               = [StepElementHandle; StepDirectRead; StepBoundingBox] ++ rest.
Proof.
  intros Hh [e He]. unfold sampleCell. rewrite Hh, He. cbn [catch_null].
  destruct (boundingBox env) as [[box |] | e2]; [| now exists [] | now exists []].
  destruct (screenshot env (cellClip box grid col row)); eexists; reflexivity.
Qed.

(** In the page, a failing read of a canvas does not reject the promise of
    tier 1: the average is taken inside the animation-frame callback. *)
Lemma directRead_on_canvas (can : Canvas) (grid : Grid) (col row : Z) :
  (exists rgba, directRead (CanvasElement can) grid col row = Resolved rgba) \/
  directRead (CanvasElement can) grid col row = Pending.
Proof.
  unfold directRead, resolveInAnimationFrame.
  destruct (webgl can) as [readPixels |].
  - destruct (avg _ _ _); [left; now eexists | now right].
  - destruct (context2d can) as [getImageData |];
      destruct (avg _ _ _); try (left; now eexists); now right.
Qed.

Lemma avg_first_throws (read : Z -> Z -> Pixel -> outcome Pixel) (cx cy : Z) (e : string) :
  (forall x y buffer, read x y buffer = Throw e) -> avg read cx cy = Throw e.
Proof.
  intros H. unfold avg, neighbourhood. cbn [flat_map map app sumReads]. now rewrite H.
Qed.

(** A 2D canvas whose pixels may not be read ([getImageData] throws), or
    a canvas that yields no context at all, leaves tier 1 pending. *)
Lemma directRead_unreadable (can : Canvas) (grid : Grid) (col row : Z) :
  webgl can = None ->
  (context2d can = None \/
   exists getImageData e, context2d can = Some getImageData /\
                          forall x y, getImageData x y = Throw e) ->
  directRead (CanvasElement can) grid col row = Pending.
Proof.
  intros Hgl Hctx. unfold directRead. rewrite Hgl.
  destruct Hctx as [-> | (g & e & -> & Hg)].
  - now rewrite (avg_first_throws _ _ _ "ctx is null").
  - rewrite (avg_first_throws _ _ _ e); [reflexivity |]. intros x y _. apply Hg.
Qed.

End SampleCell.

Section SampleCellExamples.

Import ColorSampler.

(** The direct read of the red canvas, and the fallback for an element
    that is no canvas, with the clip of the unit test. *)
Example sampleCell_tests :
  sampleCell (capturePage (CanvasElement redCanvas)) (mkGrid 4 3) 1 2
  = (Resolved [255; 0; 0; 255]%Q, [StepElementHandle; StepDirectRead]) /\
  fst (sampleCell (capturePage (OtherElement (BoundingBox.mk 10 10 200 150))) (mkGrid 4 3) 1 2)
  = Resolved [255; 255; 255; 255]%Q /\
  exists clip,
    snd (sampleCell (capturePage (OtherElement (BoundingBox.mk 10 10 200 150))) (mkGrid 4 3) 1 2)
    = [StepElementHandle; StepDirectRead; StepBoundingBox; StepScreenshot clip; StepCaptureRead] /\
    (Clip.x clip == 60 /\ Clip.y clip == 110 /\ Clip.width clip == 50 /\ Clip.height clip == 50)%Q.
Proof.
  split; [reflexivity |]. split; [reflexivity |].
  eexists. split; [reflexivity |]. repeat split.
Qed.

(** C3 on the tainted canvas.  The first [getImageData] throws inside the
    animation-frame callback, the promise of tier 1 is never settled, and
    [sampleCell] neither throws nor returns: the box is not asked for and
    no capture is taken, although both are available. *)
Theorem sampleCell_tainted_canvas :
  sampleCell (capturePage (CanvasElement taintedCanvas)) (mkGrid 4 3) 1 2
  = (Pending, [StepElementHandle; StepDirectRead]) /\
  fst (sampleCell (capturePage (OtherElement (BoundingBox.mk 10 10 200 150))) (mkGrid 4 3) 1 2)
  = Resolved [255; 255; 255; 255]%Q.
Proof. split; reflexivity. Qed.

End SampleCellExamples.

(** * Further properties: the pointer *)

Section TracedLoops.

Import Page.

Context {W : Type}.

Lemma Qle_bool_inject (i : Z) (hi : Q) : Qle_bool (inject_Z i) hi = (i <=? Qfloor hi).
Proof.
  destruct (Z.leb_spec i (Qfloor hi)) as [H | H].
  - apply Qle_bool_iff. apply Qle_trans with (inject_Z (Qfloor hi)).
    + now rewrite <- Zle_Qle.
    + apply Qfloor_le.
  - destruct (Qle_bool (inject_Z i) hi) eqn:E; [| reflexivity].
    apply Qle_bool_iff in E. apply Qfloor_resp_le in E. rewrite Qfloor_Z in E. lia.
Qed.

(** A [for] loop up to [hi] ends by its own test: any budget of at least
    the number of indices up to [hi] gives the traversal of these indices. *)
Lemma for_le_budget {A : Type} (budget : nat) (i : Z) (hi : Q)
    (body : Z -> A -> T W A) (acc : A) (t : traced W) :
  Qfloor hi - i + 1 <= Z.of_nat budget ->
  for_le budget i hi body acc t
  = foldT body (range i (Z.to_nat (Qfloor hi - i + 1))) acc t.
Proof.
  revert i acc t. induction budget as [| budget IH]; intros i acc t Hb.
  - cbn [for_le]. replace (Z.to_nat (Qfloor hi - i + 1)) with 0%nat by lia. reflexivity.
  - cbn [for_le]. rewrite Qle_bool_inject.
    destruct (Z.leb_spec i (Qfloor hi)) as [H | H].
    + replace (Z.to_nat (Qfloor hi - i + 1)) with (S (Z.to_nat (Qfloor hi - (i + 1) + 1)))
        by lia.
      cbn [range foldT]. unfold seq. destruct (body i acc t) as [[a | e] t']; [| reflexivity].
      apply IH. lia.
    + replace (Z.to_nat (Qfloor hi - i + 1)) with 0%nat by lia. reflexivity.
Qed.

Lemma foldT_app {A I : Type} (body : I -> A -> T W A) (l1 l2 : list I) (acc : A)
    (t : traced W) :
  foldT body (l1 ++ l2) acc t
  = seq (foldT body l1 acc) (fun acc' => foldT body l2 acc') t.
Proof.
  revert acc t. induction l1 as [| i l1 IH]; intros acc t; cbn [app foldT].
  - reflexivity.
  - unfold seq. destruct (body i acc t) as [[a | e] t']; [| reflexivity].
    rewrite IH. reflexivity.
Qed.

End TracedLoops.

Section Playback.

Import Page MouseActions.

Context {W : Type} (deps : Deps W).

Lemma playback_app (l1 l2 : list event) (t : traced W) :
  playback deps (l1 ++ l2) t = seq (playback deps l1) (fun _ => playback deps l2) t.
Proof.
  unfold playback. rewrite foldT_app. unfold seq.
  destruct (foldT _ l1 tt t) as [[[] | e] t']; reflexivity.
Qed.

(** Calls made one after the other: all of them resolved, or the first
    that rejects is the last one made. *)
Lemma playback_spec (calls : list event) (t : traced W) :
  exists r seg w',
    playback deps calls t = (r, mkTraced w' (trace t ++ seg)) /\
    (r = Ok tt -> seg = allResolved calls) /\
    (forall e, r = Throw e ->
       exists pre c post, calls = pre ++ c :: post /\
                          seg = allResolved pre ++ [(c, false)] /\
                          exists w0 w1, exec deps c w0 = (Throw e, w1)) /\
    ((forall c w, In c calls -> exists w1, exec deps c w = (Ok tt, w1)) -> r = Ok tt).
Proof.
  revert t. induction calls as [| c calls IH]; intros t.
  - exists (Ok tt), [], (page t). cbn. rewrite app_nil_r. destruct t.
    repeat split; try reflexivity. intros e He. discriminate He.
  - unfold playback. cbn [foldT]. unfold seq. unfold perform at 1.
    destruct (exec deps c (page t)) as [[[] | e] w1] eqn:E; cbn [resolved].
    + destruct (IH (mkTraced w1 (trace t ++ [(c, true)])))
        as (r & seg & w' & Hrun & Hok & Hthrow & Hcalm).
      unfold playback in Hrun. rewrite Hrun. cbn [trace].
      exists r, ((c, true) :: seg), w'. rewrite <- app_assoc. split; [reflexivity |].
      split; [| split].
      * intros Hr. rewrite (Hok Hr). reflexivity.
      * intros e He. destruct (Hthrow e He) as (pre & c' & post & -> & -> & Hex).
        exists (c :: pre), c', post. repeat split; [exact Hex].
      * intros Hall. apply Hcalm. intros c' w Hin. apply Hall. now right.
    + exists (Throw e), [(c, false)], w1. split; [reflexivity |].
      split; [discriminate |]. split.
      * intros e' He'. injection He' as <-. exists [], c, calls.
        repeat split. now exists (page t), w1.
      * intros Hall. destruct (Hall c (page t) (or_introl eq_refl)) as (w2 & Hw2).
        rewrite Hw2 in E. discriminate E.
Qed.

Lemma moves_app (a b : list (event * bool)) : moves (a ++ b) = moves a ++ moves b.
Proof. apply flat_map_app. Qed.

Lemma pauses_app (a b : list (event * bool)) : pauses (a ++ b) = pauses a ++ pauses b.
Proof. apply flat_map_app. Qed.

Lemma buttons_app (a b : list (event * bool)) : buttons (a ++ b) = buttons a ++ buttons b.
Proof. apply List.filter_app. Qed.

Lemma allResolved_app (a b : list event) :
  allResolved (a ++ b) = allResolved a ++ allResolved b.
Proof. apply List.map_app. Qed.

End Playback.
Section HoverCell.

Import Page MouseActions.

Context {W : Type} (deps : Deps W).

Local Open Scope Q_scope.

Lemma steps_playback (body : Z -> list event) (l : list Z) (t : traced W) :
  foldT (fun i _ => playback deps (body i)) l tt t = playback deps (flat_map body l) t.
Proof.
  revert t. induction l as [| i l IH]; intros t; cbn [foldT flat_map].
  - reflexivity.
  - rewrite playback_app. unfold seq.
    destruct (playback deps (body i) t) as [[[] | e] t']; [apply IH | reflexivity].
Qed.

Lemma foldT_ext {A I : Type} (f g : I -> A -> T W A) (l : list I) (acc : A) (t : traced W) :
  (forall i a t, f i a t = g i a t) -> foldT f l acc t = foldT g l acc t.
Proof.
  intros H. revert acc t. induction l as [| i l IH]; intros acc t; cbn [foldT].
  - reflexivity.
  - unfold seq. rewrite H. destruct (g i acc t) as [[a | e] t']; [apply IH | reflexivity].
Qed.

Lemma move_pause_playback (p : Point.t) (ms : Q) (t : traced W) :
  (let+ _ := move deps p in pause deps ms) t
  = playback deps [MouseMove (Point.x p) (Point.y p); WaitForTimeout ms] t.
Proof.
  unfold playback, move, pause. cbn [foldT exec]. unfold seq.
  destruct (perform _ _ t) as [[[] | e] t1]; [| reflexivity].
  destruct (perform _ _ t1) as [[[] | e] t2]; reflexivity.
Qed.

(** The stepping loop makes the calls of its steps, [floor moveSteps] of
    them. *)
Lemma stepping_playback (start target : Point.t) (steps pauseMs : Q) (t : traced W) :
  for_le (Z.to_nat (Qfloor steps)) 1 steps
    (fun i _ => let+ _ := move deps (stepTowards start target i steps) in pause deps pauseMs)
    tt t
  = playback deps
      (flat_map (fun i => [ MouseMove (Point.x (stepTowards start target i steps))
                                      (Point.y (stepTowards start target i steps));
                            WaitForTimeout pauseMs ])
                (range 1 (Z.to_nat (Qfloor steps)))) t.
Proof.
  rewrite for_le_budget by lia.
  replace (Qfloor steps - 1 + 1)%Z with (Qfloor steps) by lia.
  rewrite <- steps_playback. apply foldT_ext. intros i [] t0. apply move_pause_playback.
Qed.

Lemma seq_cong {A B : Type} (m m' : T W A) (k k' : A -> T W B) (t : traced W) :
  (forall t, m t = m' t) -> (forall a t, k a t = k' a t) -> seq m k t = seq m' k' t.
Proof.
  intros Hm Hk. unfold seq. rewrite Hm. destruct (m' t) as [[a | e] t']; [apply Hk | reflexivity].
Qed.

Lemma playback_nil (t : traced W) : playback deps [] t = (Ok tt, t).
Proof. reflexivity. Qed.

Lemma playback_one (c : event) (t : traced W) :
  playback deps [c] t = perform c (exec deps c) t.
Proof.
  unfold playback. cbn [foldT]. unfold seq.
  destruct (perform c (exec deps c) t) as [[[] | e] t']; reflexivity.
Qed.

Lemma seq_playback {B : Type} (l1 l2 : list event) (k : T W B) (t : traced W) :
  seq (playback deps l1) (fun _ => seq (playback deps l2) (fun _ => k)) t
  = seq (playback deps (l1 ++ l2)) (fun _ => k) t.
Proof.
  unfold seq. rewrite playback_app. unfold seq.
  destruct (playback deps l1 t) as [[[] | e] t']; reflexivity.
Qed.

(** [hoverCell] in four stages: the centre, the stored position, the calls
    on the mouse and the timer, and the store. *)
Lemma hoverCell_stages (grid : Grid) (col row : Z) (options : option HoverParams.t)
    (t : traced W) :
  hoverCell deps grid col row options t
  = (let+ target := getCellCenter deps grid col row in
     let+ start :=
       orElse
         (let+ pos := perform ReadMousePos (mousePos deps) in
          result match pos with Some p => p | None => origin end)
         origin in
     let+ _ := playback deps (hoverCalls start target (stepsOf options)
                                (jitterOf options) (dwellOf options)) in
     orElse (perform (StoreMousePos (Point.x target) (Point.y target))
               (storeMousePos deps (Point.x target) (Point.y target)))
            tt) t.
Proof.
  unfold hoverCell. cbv zeta.
  change (match HoverParams.moveSteps match options with Some o => o | None => noHoverParams end
          with Some v => v | None => 3 end) with (stepsOf options).
  change (match HoverParams.jitterAmount match options with Some o => o | None => noHoverParams end
          with Some v => v | None => 2 end) with (jitterOf options).
  change (match HoverParams.dwellTime match options with Some o => o | None => noHoverParams end
          with Some v => v | None => 50 end) with (dwellOf options).
  set (steps := stepsOf options). set (jitter := jitterOf options). set (dwell := dwellOf options).
  apply seq_cong; [reflexivity |]. intros target t1.
  apply seq_cong; [reflexivity |]. intros start t2.
  unfold hoverCalls, stepCount. rewrite <- seq_playback.
  apply seq_cong.
  { intros t0. destruct (Qle_bool steps 1); cbn [negb]; [reflexivity | apply stepping_playback]. }
  intros _ t3. rewrite <- seq_playback.
  apply seq_cong; [intros t0; now rewrite playback_one |].
  intros _ t4. rewrite <- seq_playback. apply seq_cong.
  { intros t0. destruct (Qle_bool jitter 0); cbn [negb]; [reflexivity |].
    unfold playback, move, pause. cbn [foldT exec Point.x Point.y]. unfold seq.
    destruct (perform _ _ t0) as [[[] | e] t5]; [| reflexivity].
    destruct (perform _ _ t5) as [[[] | e] t6]; [| reflexivity].
    destruct (perform _ _ t6) as [[[] | e] t7]; [| reflexivity].
    destruct (perform _ _ t7) as [[[] | e] t8]; reflexivity. }
  intros _ t5. apply seq_cong; [| reflexivity].
  intros t0. destruct (Qle_bool dwell 0); cbn [negb]; [reflexivity |].
  rewrite playback_one. reflexivity.
Qed.

End HoverCell.
Section HoverCellRun.

Import Page MouseActions.

Context {W : Type} (deps : Deps W).

Local Open Scope Q_scope.

(** The three ways [getCellCenter] ends. *)
Lemma getCellCenter_run (grid : Grid) (col row : Z) (t : traced W) :
  exists r b w',
    getCellCenter deps grid col row t
    = (r, mkTraced w' (trace t ++ [(CanvasBoundingBox, b)])) /\
    ((exists box p, boundingBox deps (page t) = (Ok (Some box), w') /\
                    MouseInteractions.getCellCenter (Some box) grid col row = Ok p /\
                    r = Ok p /\ b = true) \/
     (boundingBox deps (page t) = (Ok None, w') /\ r = Throw "no canvas bbox" /\ b = true) \/
     (exists e, boundingBox deps (page t) = (Throw e, w') /\ r = Throw e /\ b = false)).
Proof.
  unfold getCellCenter, seq, perform.
  destruct (boundingBox deps (page t)) as [[[box |] | e] w1] eqn:E; cbn [resolved].
  - unfold MouseInteractions.getCellCenter, result.
    eexists (Ok _), true, w1. split; [reflexivity |]. left. exists box. eexists.
    repeat split.
  - exists (Throw "no canvas bbox"), true, w1. split; [reflexivity |]. right. left. now repeat split.
  - exists (Throw e), false, w1. split; [reflexivity |]. right. right. now exists e.
Qed.

(** Reading the stored position never fails: a rejected read and a
    position that was never stored both give the origin. *)
Lemma readPosition_run (t : traced W) :
  exists w',
    orElse (let+ pos := perform ReadMousePos (mousePos deps) in
            result match pos with Some p => p | None => origin end) origin t
    = (Ok (startFrom (fst (mousePos deps (page t)))),
       mkTraced w' (trace t ++ [(ReadMousePos, resolved (fst (mousePos deps (page t))))])).
Proof.
  unfold orElse, catch, seq, perform, result.
  destruct (mousePos deps (page t)) as [[[p |] | e] w1]; cbn [resolved fst startFrom]; eauto.
Qed.

Lemma storePosition_run (x y : Q) (t : traced W) :
  exists b w',
    orElse (perform (StoreMousePos x y) (storeMousePos deps x y)) tt t
    = (Ok tt, mkTraced w' (trace t ++ [(StoreMousePos x y, b)])).
Proof.
  unfold orElse, catch, perform, result.
  destruct (storeMousePos deps x y (page t)) as [[[] | e] w1]; cbn [resolved]; eauto.
Qed.

(** The calls of the pointer resolve when the mouse and the timer do. *)
Lemma exec_hoverCalls (start target : Point.t) (steps jitter dwell : Q) :
  pointerResolves deps ->
  forall c w, In c (hoverCalls start target steps jitter dwell) ->
              exists w1, exec deps c w = (Ok tt, w1).
Proof.
  intros [Hm Hw] c w Hin. unfold hoverCalls in Hin.
  repeat (apply in_app_or in Hin as [Hin | Hin]).
  - apply in_flat_map in Hin as (i & _ & [<- | [<- | []]]); cbn [exec]; auto.
  - destruct Hin as [<- | []]. cbn [exec]. auto.
  - destruct (Qle_bool jitter 0); [destruct Hin |].
    destruct Hin as [<- | [<- | [<- | [<- | []]]]]; cbn [exec]; auto.
  - destruct (Qle_bool dwell 0); [destruct Hin |].
    destruct Hin as [<- | []]. cbn [exec]. auto.
Qed.

(** Everything [hoverCell] does, read off its trace. *)
Lemma hoverCell_run (grid : Grid) (col row : Z) (options : option HoverParams.t)
    (t : traced W) :
  let calls start target :=
    hoverCalls start target (stepsOf options) (jitterOf options) (dwellOf options) in
  exists r seg w',
    hoverCell deps grid col row options t = (r, mkTraced w' (trace t ++ seg)) /\
    (r = Ok tt ->
       exists box w1 target stored,
         boundingBox deps (page t) = (Ok (Some box), w1) /\
         MouseInteractions.getCellCenter (Some box) grid col row = Ok target /\
         seg = [(CanvasBoundingBox, true); (ReadMousePos, resolved (fst (mousePos deps w1)))]
               ++ allResolved (calls (startFrom (fst (mousePos deps w1))) target)
               ++ [(StoreMousePos (Point.x target) (Point.y target), stored)]) /\
    (forall e, r = Throw e ->
       (seg = [(CanvasBoundingBox, true)] /\ e = "no canvas bbox"%string) \/
       seg = [(CanvasBoundingBox, false)] \/
       (exists box target start read pre c post,
          MouseInteractions.getCellCenter (Some box) grid col row = Ok target /\
          calls start target = pre ++ c :: post /\
          seg = [(CanvasBoundingBox, true); (ReadMousePos, read)]
                ++ allResolved pre ++ [(c, false)])) /\
    (pointerResolves deps ->
     (exists box w1, boundingBox deps (page t) = (Ok (Some box), w1)) -> r = Ok tt) /\
    (forall w1, boundingBox deps (page t) = (Ok None, w1) ->
       r = Throw "no canvas bbox" /\ seg = [(CanvasBoundingBox, true)]).
Proof.
  intros calls. rewrite hoverCell_stages. unfold seq at 1.
  destruct (getCellCenter_run grid col row t)
    as (r1 & b1 & w1 & -> & [(box & target & Hbox & Hc & -> & ->) | [(Hbox & -> & ->) | (e & Hbox & -> & ->)]]).
  2:{ exists (Throw "no canvas bbox"), [(CanvasBoundingBox, true)], w1.
      split; [reflexivity |]. split; [discriminate |]. split; [| split].
      - intros e He. injection He as <-. left. now split.
      - intros _ (box & w2 & H). congruence.
      - intros w2 _. now split. }
  2:{ exists (Throw e), [(CanvasBoundingBox, false)], w1.
      split; [reflexivity |]. split; [discriminate |]. split; [| split].
      - intros e' _. right. now left.
      - intros _ (box & w2 & H). congruence.
      - intros w2 H. congruence. }
  unfold seq at 1.
  destruct (readPosition_run (mkTraced w1 (trace t ++ [(CanvasBoundingBox, true)])))
    as (w2 & ->). cbn [trace page].
  set (start := startFrom (fst (mousePos deps w1))).
  set (read := resolved (fst (mousePos deps w1))).
  unfold seq at 1. fold (calls start target).
  destruct (playback_spec deps (calls start target)
              (mkTraced w2 ((trace t ++ [(CanvasBoundingBox, true)]) ++ [(ReadMousePos, read)])))
    as (r3 & seg3 & w3 & -> & Hok & Hthrow & Hcalm). cbn [trace].
  destruct r3 as [[] | e].
  - destruct (storePosition_run (Point.x target) (Point.y target)
                (mkTraced w3 (((trace t ++ [(CanvasBoundingBox, true)]) ++ [(ReadMousePos, read)])
                              ++ seg3)))
      as (stored & w4 & ->). cbn [trace].
    exists (Ok tt), ([(CanvasBoundingBox, true); (ReadMousePos, read)] ++ seg3
                     ++ [(StoreMousePos (Point.x target) (Point.y target), stored)]), w4.
    split; [now rewrite <- !app_assoc |]. split; [| split; [discriminate | split]].
    + intros _. exists box, w1, target, stored. rewrite (Hok eq_refl).
      split; [exact Hbox |]. split; [exact Hc | reflexivity].
    + reflexivity.
    + intros w5 H. congruence.
  - destruct (Hthrow e eq_refl) as (pre & c & post & Hcalls & -> & _).
    exists (Throw e), ([(CanvasBoundingBox, true); (ReadMousePos, read)]
                       ++ allResolved pre ++ [(c, false)]), w3.
    split; [now rewrite <- !app_assoc |]. split; [discriminate |]. split; [| split].
    + intros e' _. right. right. now exists box, target, start, read, pre, c, post.
    + intros Hp _. apply Hcalm. now apply exec_hoverCalls.
    + intros w5 H. congruence.
Qed.

End HoverCellRun.
Section HoverCellProperties.

Import Page MouseActions.

Context {W : Type} (deps : Deps W).

Local Open Scope Q_scope.

Lemma moves_stepping (f : Z -> Point.t) (ms : Q) (l : list Z) :
  moves (allResolved (flat_map (fun i => [ MouseMove (Point.x (f i)) (Point.y (f i));
                                           WaitForTimeout ms ]) l))
  = map (fun i => coords (f i)) l.
Proof.
  induction l as [| i l IH]; [reflexivity |].
  cbn [flat_map app]. unfold allResolved in *. cbn [map moves flat_map fst app]. now rewrite <- IH.
Qed.

Lemma pauses_stepping (f : Z -> Point.t) (ms : Q) (l : list Z) :
  pauses (allResolved (flat_map (fun i => [ MouseMove (Point.x (f i)) (Point.y (f i));
                                            WaitForTimeout ms ]) l))
  = repeat ms (length l).
Proof.
  induction l as [| i l IH]; [reflexivity |].
  cbn [flat_map app]. unfold allResolved in *. cbn [map pauses flat_map fst app length repeat].
  now rewrite <- IH.
Qed.

Lemma sumQ_app (a b : list Q) : sumQ (a ++ b) == sumQ a + sumQ b.
Proof.
  unfold sumQ. induction a as [| x a IH]; cbn [app fold_right].
  - ring.
  - rewrite IH. ring.
Qed.

Lemma sumQ_repeat (x : Q) (n : nat) : sumQ (repeat x n) == x * inject_Z (Z.of_nat n).
Proof.
  unfold sumQ. induction n as [| n IH].
  - cbn. ring.
  - cbn [repeat fold_right]. rewrite IH.
    rewrite Nat2Z.inj_succ. unfold Z.succ. rewrite inject_Z_plus. change (inject_Z 1) with 1. ring.
Qed.

(** The moves of the calls of one hover. *)
Lemma moves_hoverCalls (start target : Point.t) (steps jitter dwell : Q) :
  moves (allResolved (hoverCalls start target steps jitter dwell))
  = map (fun i => coords (stepTowards start target i steps)) (range 1 (stepCount steps))
    ++ [coords target]
    ++ (if Qle_bool jitter 0 then []
        else [(Point.x target + jitter, Point.y target); coords target]).
Proof.
  unfold hoverCalls. rewrite !allResolved_app, !moves_app, moves_stepping.
  f_equal. f_equal. destruct (Qle_bool jitter 0), (Qle_bool dwell 0); reflexivity.
Qed.

Lemma pauses_hoverCalls (start target : Point.t) (steps jitter dwell : Q) :
  sumQ (pauses (allResolved (hoverCalls start target steps jitter dwell)))
  == hoverTime steps jitter dwell.
Proof.
  unfold hoverCalls, hoverTime.
  rewrite !allResolved_app, !pauses_app, pauses_stepping, range_length, !sumQ_app, sumQ_repeat.
  destruct (Qle_bool jitter 0), (Qle_bool dwell 0); cbn; ring.
Qed.

(** X1.  A [hoverCell] that resolves has asked the page for the box of the
    canvas and for the stored pointer position, and has then moved the
    mouse along the steps [start + (target - start) * i / moveSteps] from
    that position (the origin when none was stored or the read rejected)
    towards the centre the cell has in that box, [floor moveSteps] of
    them when [moveSteps > 1] and none otherwise, then to the centre
    itself and, with a positive jitter, aside by the jitter and back: its
    last move is always to the centre.  Each step is followed by a pause
    of 10 ms; with the 50 ms of the jitter and the dwell time the pauses
    add up to 130 ms with the default options.  The last call stores the
    centre as the new pointer position. *)
Theorem hoverCell_path (grid : Grid) (col row : Z) (options : option HoverParams.t)
    (t : traced W) :
  exists r seg w',
    hoverCell deps grid col row options t = (r, mkTraced w' (trace t ++ seg)) /\
    (r = Ok tt ->
       exists box w1 target stored,
         boundingBox deps (page t) = (Ok (Some box), w1) /\
         MouseInteractions.getCellCenter (Some box) grid col row = Ok target /\
         let start := startFrom (fst (mousePos deps w1)) in
         seg = [(CanvasBoundingBox, true); (ReadMousePos, resolved (fst (mousePos deps w1)))]
               ++ allResolved (hoverCalls start target (stepsOf options) (jitterOf options)
                                 (dwellOf options))
               ++ [(StoreMousePos (Point.x target) (Point.y target), stored)] /\
         moves seg
         = map (fun i => coords (stepTowards start target i (stepsOf options)))
               (range 1 (stepCount (stepsOf options)))
           ++ [coords target]
           ++ (if Qle_bool (jitterOf options) 0 then []
               else [(Point.x target + jitterOf options, Point.y target); coords target]) /\
         List.last (moves seg) (0, 0) = coords target /\
         sumQ (pauses seg) == hoverTime (stepsOf options) (jitterOf options) (dwellOf options)) /\
    hoverTime (stepsOf None) (jitterOf None) (dwellOf None) == 130.
Proof.
  destruct (hoverCell_run deps grid col row options t) as (r & seg & w' & Hrun & Hok & _).
  exists r, seg, w'. split; [exact Hrun |]. split; [| reflexivity].
  intros Hr. destruct (Hok Hr) as (box & w1 & target & stored & Hbox & Hc & ->).
  exists box, w1, target, stored. split; [exact Hbox |]. split; [exact Hc |]. cbv zeta.
  set (start := startFrom (fst (mousePos deps w1))).
  set (read := resolved (fst (mousePos deps w1))).
  assert (Hmoves : moves ([(CanvasBoundingBox, true); (ReadMousePos, read)]
                          ++ allResolved (hoverCalls start target (stepsOf options)
                                            (jitterOf options) (dwellOf options))
                          ++ [(StoreMousePos (Point.x target) (Point.y target), stored)])
                   = map (fun i => coords (stepTowards start target i (stepsOf options)))
                         (range 1 (stepCount (stepsOf options)))
                     ++ [coords target]
                     ++ (if Qle_bool (jitterOf options) 0 then []
                         else [(Point.x target + jitterOf options, Point.y target);
                               coords target])).
  { rewrite !moves_app, moves_hoverCalls. cbn [moves flat_map fst app]. now rewrite app_nil_r. }
  split; [reflexivity |]. split; [exact Hmoves |]. split.
  - rewrite Hmoves. destruct (Qle_bool (jitterOf options) 0).
    + rewrite app_nil_r. apply List.last_last.
    + change ([coords target] ++ [(Point.x target + jitterOf options, Point.y target);
                                  coords target])
        with ([coords target; (Point.x target + jitterOf options, Point.y target)]
              ++ [coords target]).
      rewrite app_assoc. apply List.last_last.
  - rewrite !pauses_app, !sumQ_app, pauses_hoverCalls. cbn. ring.
Qed.

(** X2.  [hoverCell] rejects only when the canvas has no box (with the
    message [no canvas bbox], before anything is asked of the mouse) or
    when asking for the box, a move of the mouse or a pause rejects, and
    that call is then the last one it made.  Reading and storing the
    pointer position may reject without [hoverCell] rejecting: whenever
    the canvas has a box and the mouse and the timer do what they are
    asked, [hoverCell] resolves. *)
Theorem hoverCell_failures (grid : Grid) (col row : Z) (options : option HoverParams.t)
    (t : traced W) :
  exists r seg w',
    hoverCell deps grid col row options t = (r, mkTraced w' (trace t ++ seg)) /\
    (r = Ok tt ->
       forall c, In (c, false) seg -> c = ReadMousePos \/ exists x y, c = StoreMousePos x y) /\
    (forall e, r = Throw e ->
       (seg = [(CanvasBoundingBox, true)] /\ e = "no canvas bbox"%string) \/
       exists pre c, seg = pre ++ [(c, false)] /\
                     (c = CanvasBoundingBox \/ (exists x y, c = MouseMove x y) \/
                      exists ms, c = WaitForTimeout ms)) /\
    (forall w1, boundingBox deps (page t) = (Ok None, w1) ->
       r = Throw "no canvas bbox" /\ moves seg = [] /\ pauses seg = []) /\
    (pointerResolves deps ->
     (exists box w1, boundingBox deps (page t) = (Ok (Some box), w1)) -> r = Ok tt).
Proof.
  destruct (hoverCell_run deps grid col row options t)
    as (r & seg & w' & Hrun & Hok & Hthrow & Hcalm & Hnone).
  exists r, seg, w'. split; [exact Hrun |]. split; [| split; [| split; [| exact Hcalm]]].
  - intros Hr c Hin.
    destruct (Hok Hr) as (box & w1 & target & stored & _ & _ & ->).
    apply in_app_or in Hin as [[Hin | [Hin | []]] | Hin]; try congruence.
    + left. congruence.
    + apply in_app_or in Hin as [Hin | [Hin | []]].
      * unfold allResolved in Hin. apply in_map_iff in Hin as (c' & Hc' & _). discriminate Hc'.
      * right. injection Hin as <- _. eauto.
  - intros e He.
    destruct (Hthrow e He)
      as [H | [-> | (box & target & start & read & pre & c & post & _ & Hcalls & ->)]].
    + now left.
    + right. exists [], CanvasBoundingBox. split; [reflexivity | now left].
    + right. exists ([(CanvasBoundingBox, true); (ReadMousePos, read)] ++ allResolved pre), c.
      split; [now rewrite <- app_assoc |]. right.
      assert (Hin : In c (hoverCalls start target (stepsOf options) (jitterOf options)
                            (dwellOf options))).
      { rewrite Hcalls. apply in_or_app. right. now left. }
      unfold hoverCalls in Hin.
      repeat (apply in_app_or in Hin as [Hin | Hin]).
      * apply in_flat_map in Hin as (i & _ & [<- | [<- | []]]); eauto.
      * destruct Hin as [<- | []]. eauto.
      * destruct (Qle_bool (jitterOf options) 0); [destruct Hin |].
        destruct Hin as [<- | [<- | [<- | [<- | []]]]]; eauto.
      * destruct (Qle_bool (dwellOf options) 0); [destruct Hin |].
        destruct Hin as [<- | []]. eauto.
  - intros w1 H. destruct (Hnone w1 H) as [-> ->]. now repeat split.
Qed.

End HoverCellProperties.
Section Drag.

Import Page MouseActions.

Context {W : Type} (deps : Deps W).

Local Open Scope Q_scope.

Lemma playback_cons (c : event) (l : list event) (t : traced W) :
  playback deps (c :: l) t = seq (perform c (exec deps c)) (fun _ => playback deps l) t.
Proof.
  unfold playback. cbn [foldT]. unfold seq.
  destruct (perform c (exec deps c) t) as [[[] | e] t']; reflexivity.
Qed.

(** [dragFromCellToCell] in stages: the two centres, then the calls on the
    mouse and the timer. *)
Lemma dragFromCellToCell_stages (grid : Grid) (fromCol fromRow toCol toRow : Z)
    (t : traced W) :
  dragFromCellToCell deps grid fromCol fromRow toCol toRow t
  = (let+ fromCenter := getCellCenter deps grid fromCol fromRow in
     let+ toCenter := getCellCenter deps grid toCol toRow in
     playback deps (dragCalls fromCenter toCenter)) t.
Proof.
  unfold dragFromCellToCell. cbv zeta.
  apply seq_cong; [reflexivity |]. intros fromCenter t1.
  apply seq_cong; [reflexivity |]. intros toCenter t2.
  unfold dragCalls. cbn [app].
  do 4 (rewrite playback_cons; apply seq_cong; [reflexivity |]; intros _ ?).
  rewrite playback_app. apply seq_cong.
  { intros tl. change (Z.to_nat 5) with (Z.to_nat (Qfloor (inject_Z 5))).
    now rewrite stepping_playback. }
  intros _ ?.
  do 2 (rewrite playback_cons; apply seq_cong; [reflexivity |]; intros _ ?).
  now rewrite playback_one.
Qed.

Lemma exec_dragCalls (fromCenter toCenter : Point.t) :
  pointerResolves deps -> buttonResolves deps ->
  forall c w, In c (dragCalls fromCenter toCenter) -> exists w1, exec deps c w = (Ok tt, w1).
Proof.
  intros [Hm Hw] [Hd Hu] c w Hin. unfold dragCalls in Hin. cbn in Hin.
  repeat (destruct Hin as [<- | Hin]; [cbn [exec]; auto |]). destruct Hin.
Qed.

(** Everything a drag does, read off its trace. *)
Lemma dragFromCellToCell_run (grid : Grid) (fromCol fromRow toCol toRow : Z) (t : traced W) :
  exists r seg w',
    dragFromCellToCell deps grid fromCol fromRow toCol toRow t
    = (r, mkTraced w' (trace t ++ seg)) /\
    (r = Ok tt ->
       exists box1 w1 box2 w2 fromCenter toCenter,
         boundingBox deps (page t) = (Ok (Some box1), w1) /\
         boundingBox deps w1 = (Ok (Some box2), w2) /\
         MouseInteractions.getCellCenter (Some box1) grid fromCol fromRow = Ok fromCenter /\
         MouseInteractions.getCellCenter (Some box2) grid toCol toRow = Ok toCenter /\
         seg = [(CanvasBoundingBox, true); (CanvasBoundingBox, true)]
               ++ allResolved (dragCalls fromCenter toCenter)) /\
    (forall e, r = Throw e ->
       (exists b, seg = [(CanvasBoundingBox, b)]) \/
       (exists b, seg = [(CanvasBoundingBox, true); (CanvasBoundingBox, b)]) \/
       (exists fromCenter toCenter pre c post,
          dragCalls fromCenter toCenter = pre ++ c :: post /\
          seg = [(CanvasBoundingBox, true); (CanvasBoundingBox, true)]
                ++ allResolved pre ++ [(c, false)])) /\
    (pointerResolves deps -> buttonResolves deps ->
     (forall w, exists box w1, boundingBox deps w = (Ok (Some box), w1)) -> r = Ok tt).
Proof.
  rewrite dragFromCellToCell_stages. unfold seq at 1.
  destruct (getCellCenter_run deps grid fromCol fromRow t)
    as (r1 & b1 & w1 & -> & [(box1 & fromCenter & Hbox1 & Hc1 & -> & ->) | Hfail]).
  2:{ assert (Hr1 : exists e, r1 = Throw e /\ boundingBox deps (page t) <> (Ok (Some (BoundingBox.mk 0 0 0 0)), w1)
                     /\ forall box w2, boundingBox deps (page t) <> (Ok (Some box), w2)).
      { destruct Hfail as [(Hb & -> & _) | (e & Hb & -> & _)]; eexists; (split; [reflexivity |]);
          split; try congruence; intros box w2; congruence. }
      destruct Hr1 as (e & -> & _ & Hno).
      exists (Throw e), [(CanvasBoundingBox, b1)], w1.
      split; [reflexivity |]. split; [discriminate |]. split.
      - intros e' _. left. now exists b1.
      - intros _ _ Hall. destruct (Hall (page t)) as (box & w2 & H). now apply Hno in H. }
  unfold seq at 1.
  destruct (getCellCenter_run deps grid toCol toRow
              (mkTraced w1 (trace t ++ [(CanvasBoundingBox, true)])))
    as (r2 & b2 & w2 & -> & [(box2 & toCenter & Hbox2 & Hc2 & -> & ->) | Hfail]); cbn [trace page] in *.
  2:{ assert (Hr2 : exists e, r2 = Throw e /\ forall box w3, boundingBox deps w1 <> (Ok (Some box), w3)).
      { destruct Hfail as [(Hb & -> & _) | (e & Hb & -> & _)]; eexists; (split; [reflexivity |]);
          intros box w3; congruence. }
      destruct Hr2 as (e & -> & Hno).
      exists (Throw e), [(CanvasBoundingBox, true); (CanvasBoundingBox, b2)], w2.
      split; [now rewrite <- app_assoc |]. split; [discriminate |]. split.
      - intros e' _. right. left. now exists b2.
      - intros _ _ Hall. destruct (Hall w1) as (box & w3 & H). now apply Hno in H. }
  destruct (playback_spec deps (dragCalls fromCenter toCenter)
              (mkTraced w2 ((trace t ++ [(CanvasBoundingBox, true)]) ++ [(CanvasBoundingBox, true)])))
    as (r3 & seg3 & w3 & -> & Hok & Hthrow & Hcalm). cbn [trace].
  exists r3, ([(CanvasBoundingBox, true); (CanvasBoundingBox, true)] ++ seg3), w3.
  split; [now rewrite <- !app_assoc |]. split; [| split].
  - intros Hr. exists box1, w1, box2, w2, fromCenter, toCenter. now rewrite (Hok Hr).
  - intros e He. right. right. destruct (Hthrow e He) as (pre & c & post & Hcalls & -> & _).
    now exists fromCenter, toCenter, pre, c, post.
  - intros Hp Hb _. apply Hcalm. now apply exec_dragCalls.
Qed.

(** An element that only occurs at the end of a list is in no proper
    prefix of it. *)
Lemma not_in_prefix {A : Type} (l pre post init : list A) (c x : A) :
  l = pre ++ c :: post -> l = init ++ [x] -> ~ In x init -> ~ In x pre.
Proof.
  intros Hl Hi Hx Hin. rewrite Hl in Hi. apply app_eq_app in Hi as (l' & [[-> H] | [-> H]]).
  - destruct l' as [| y l']; [| destruct l'; discriminate H].
    rewrite app_nil_r in Hin. contradiction.
  - apply Hx. apply in_or_app. now left.
Qed.

(** What a drag does when the page has no box for the canvas, at the
    first or at the second time it asks. *)
Lemma drag_without_box (grid : Grid) (fromCol fromRow toCol toRow : Z) (t : traced W)
    (r : outcome unit) (seg : list (event * bool)) (w' : W) :
  dragFromCellToCell deps grid fromCol fromRow toCol toRow t
  = (r, mkTraced w' (trace t ++ seg)) ->
  (forall w1, boundingBox deps (page t) = (Ok None, w1) ->
     r = Throw "no canvas bbox" /\ seg = [(CanvasBoundingBox, true)]) /\
  (forall e w1, boundingBox deps (page t) = (Throw e, w1) ->
     r = Throw e /\ seg = [(CanvasBoundingBox, false)]) /\
  (forall box w1 w2,
     boundingBox deps (page t) = (Ok (Some box), w1) ->
     boundingBox deps w1 = (Ok None, w2) ->
     r = Throw "no canvas bbox" /\
     seg = [(CanvasBoundingBox, true); (CanvasBoundingBox, true)]) /\
  (forall box w1 e w2,
     boundingBox deps (page t) = (Ok (Some box), w1) ->
     boundingBox deps w1 = (Throw e, w2) ->
     r = Throw e /\ seg = [(CanvasBoundingBox, true); (CanvasBoundingBox, false)]).
Proof.
  intros Hrun. rewrite dragFromCellToCell_stages in Hrun. unfold seq at 1 in Hrun.
  destruct (getCellCenter_run deps grid fromCol fromRow t)
    as (r1 & b1 & w1 & Hg1 & H1). rewrite Hg1 in Hrun.
  destruct H1 as [(box1 & fromCenter & Hb1 & _ & -> & ->) | [(Hb1 & -> & ->) | (e1 & Hb1 & -> & ->)]].
  2:{ injection Hrun as <- _ Hseg. apply app_inv_head in Hseg. subst seg.
      repeat split; intros; congruence. }
  2:{ injection Hrun as <- _ Hseg. apply app_inv_head in Hseg. subst seg.
      repeat split; intros; congruence. }
  unfold seq at 1 in Hrun.
  destruct (getCellCenter_run deps grid toCol toRow
              (mkTraced w1 (trace t ++ [(CanvasBoundingBox, true)])))
    as (r2 & b2 & w2 & Hg2 & H2). rewrite Hg2 in Hrun. cbn [trace page] in *.
  destruct H2 as [(box2 & toCenter & Hb2 & _ & -> & ->) | [(Hb2 & -> & ->) | (e2 & Hb2 & -> & ->)]].
  - split; [intros; congruence |]. split; [intros; congruence |].
    split.
    + intros ? ? ? Ha Hb. rewrite Hb1 in Ha. injection Ha as <- <-. congruence.
    + intros ? ? ? ? Ha Hb. rewrite Hb1 in Ha. injection Ha as <- <-. congruence.
  - injection Hrun as <- _ Hseg. rewrite <- app_assoc in Hseg. apply app_inv_head in Hseg.
    subst seg. split; [intros; congruence |]. split; [intros; congruence |].
    split.
    + intros; now split.
    + intros ? ? ? ? Ha Hb. rewrite Hb1 in Ha. injection Ha as <- <-. congruence.
  - injection Hrun as <- _ Hseg. rewrite <- app_assoc in Hseg. apply app_inv_head in Hseg.
    subst seg. split; [intros; congruence |]. split; [intros; congruence |].
    split.
    + intros ? ? ? Ha Hb. rewrite Hb1 in Ha. injection Ha as <- <-. congruence.
    + intros ? ? ? ? Ha Hb. rewrite Hb1 in Ha. injection Ha as <- <-.
      rewrite Hb2 in Hb. injection Hb as <- <-. now split.
Qed.

(** X3.  A drag that resolves has asked the page for the box of the canvas
    twice, and has then moved the mouse to the centre the first cell has
    in the first box, pressed the button there, moved in five steps along
    the line to the centre the second cell has in the second box, moved
    to that centre and released the button there: the button went down
    once and up once, and the release is the last call.  Its pauses add
    up to 450 ms. *)
Theorem drag_path (grid : Grid) (fromCol fromRow toCol toRow : Z) (t : traced W) :
  exists r seg w',
    dragFromCellToCell deps grid fromCol fromRow toCol toRow t
    = (r, mkTraced w' (trace t ++ seg)) /\
    (r = Ok tt ->
       exists box1 w1 box2 w2 fromCenter toCenter,
         boundingBox deps (page t) = (Ok (Some box1), w1) /\
         boundingBox deps w1 = (Ok (Some box2), w2) /\
         MouseInteractions.getCellCenter (Some box1) grid fromCol fromRow = Ok fromCenter /\
         MouseInteractions.getCellCenter (Some box2) grid toCol toRow = Ok toCenter /\
         seg = [(CanvasBoundingBox, true); (CanvasBoundingBox, true)]
               ++ allResolved (dragCalls fromCenter toCenter) /\
         moves seg
         = [coords fromCenter]
           ++ map (fun i => coords (stepTowards fromCenter toCenter i 5)) (range 1 5)
           ++ [coords toCenter] /\
         buttons seg = [(MouseDown, true); (MouseUp, true)] /\
         List.last seg (CanvasBoundingBox, false) = (MouseUp, true) /\
         sumQ (pauses seg) == 450).
Proof.
  destruct (dragFromCellToCell_run grid fromCol fromRow toCol toRow t)
    as (r & seg & w' & Hrun & Hok & _).
  exists r, seg, w'. split; [exact Hrun |]. intros Hr.
  destruct (Hok Hr) as (box1 & w1 & box2 & w2 & fromCenter & toCenter & Hb1 & Hb2 & Hc1 & Hc2 & ->).
  exists box1, w1, box2, w2, fromCenter, toCenter.
  split; [exact Hb1 |]. split; [exact Hb2 |]. split; [exact Hc1 |]. split; [exact Hc2 |].
  split; [reflexivity |]. split; [reflexivity |]. split; [reflexivity |].
  split; reflexivity.
Qed.

(** X4.  A drag asks for both boxes before it touches the mouse: when the
    page has no box for the canvas, at the first or at the second time it
    is asked, the drag rejects with [no canvas bbox], and when asking
    rejects the drag rejects with that error, in both cases without a
    move, a press or a pause.  A drag that rejects has never released the
    button, also when it had pressed it.  When the canvas has a box and
    the mouse and the timer do what they are asked, the drag resolves. *)
Theorem drag_failures (grid : Grid) (fromCol fromRow toCol toRow : Z) (t : traced W) :
  exists r seg w',
    dragFromCellToCell deps grid fromCol fromRow toCol toRow t
    = (r, mkTraced w' (trace t ++ seg)) /\
    (forall w1, boundingBox deps (page t) = (Ok None, w1) ->
       r = Throw "no canvas bbox" /\ seg = [(CanvasBoundingBox, true)]) /\
    (forall e w1, boundingBox deps (page t) = (Throw e, w1) ->
       r = Throw e /\ seg = [(CanvasBoundingBox, false)]) /\
    (forall box w1 w2,
       boundingBox deps (page t) = (Ok (Some box), w1) ->
       boundingBox deps w1 = (Ok None, w2) ->
       r = Throw "no canvas bbox" /\
       seg = [(CanvasBoundingBox, true); (CanvasBoundingBox, true)]) /\
    (forall box w1 e w2,
       boundingBox deps (page t) = (Ok (Some box), w1) ->
       boundingBox deps w1 = (Throw e, w2) ->
       r = Throw e /\ seg = [(CanvasBoundingBox, true); (CanvasBoundingBox, false)]) /\
    (forall e, r = Throw e -> ~ In (MouseUp, true) seg) /\
    (forall e, r = Throw e ->
       (moves seg = [] /\ buttons seg = [] /\ pauses seg = []) \/
       exists rest, seg = (CanvasBoundingBox, true) :: (CanvasBoundingBox, true) :: rest) /\
    (forall e, r = Throw e -> exists pre c b, seg = pre ++ [(c, b)] /\
       (b = false \/ (c = CanvasBoundingBox /\ e = "no canvas bbox"%string))) /\
    (pointerResolves deps -> buttonResolves deps ->
     (forall w, exists box w1, boundingBox deps w = (Ok (Some box), w1)) -> r = Ok tt).
Proof.
  assert (Hstages := dragFromCellToCell_stages grid fromCol fromRow toCol toRow t).
  destruct (dragFromCellToCell_run grid fromCol fromRow toCol toRow t)
    as (r & seg & w' & Hrun & _ & Hthrow & Hcalm).
  exists r, seg, w'. split; [exact Hrun |].
  destruct (drag_without_box grid fromCol fromRow toCol toRow t r seg w' Hrun)
    as (Hn1 & Hn2 & Hn3 & Hn4).
  split; [exact Hn1 |]. split; [exact Hn2 |]. split; [exact Hn3 |]. split; [exact Hn4 |].
  clear Hn1 Hn2 Hn3 Hn4.
  split; [| split; [| split; [| exact Hcalm]]].
  - intros e He Hin.
    destruct (Hthrow e He)
      as [(b & ->) | [(b & ->) | (fromCenter & toCenter & pre & c & post & Hcalls & ->)]].
    + destruct Hin as [Hin | []]. discriminate Hin.
    + destruct Hin as [Hin | [Hin | []]]; discriminate Hin.
    + apply in_app_or in Hin as [[Hin | [Hin | []]] | Hin]; try discriminate Hin.
      apply in_app_or in Hin as [Hin | [Hin | []]]; [| discriminate Hin].
      unfold allResolved in Hin. apply in_map_iff in Hin as (c' & Hc' & Hin).
      injection Hc' as ->.
      revert Hin. eapply (not_in_prefix _ pre post _ c MouseUp Hcalls).
      * unfold dragCalls.
        change [ MouseMove (Point.x toCenter) (Point.y toCenter); WaitForTimeout 100; MouseUp ]
          with ([ MouseMove (Point.x toCenter) (Point.y toCenter); WaitForTimeout 100 ]
                ++ [MouseUp]).
        rewrite !app_assoc. reflexivity.
      * cbn. intuition discriminate.
  - intros e He.
    destruct (Hthrow e He)
      as [(b & ->) | [(b & ->) | (fromCenter & toCenter & pre & c & post & Hcalls & ->)]].
    + left. now repeat split.
    + left. now repeat split.
    + right. eexists. reflexivity.
  - intros e He. rewrite Hstages in Hrun. clear Hstages Hthrow Hcalm.
    unfold seq at 1 in Hrun.
    destruct (getCellCenter_run deps grid fromCol fromRow t)
      as (r1 & b1 & w1 & Hg1 & H1). rewrite Hg1 in Hrun.
    destruct H1 as [(box1 & fromCenter & _ & _ & -> & ->) | H1].
    2:{ destruct H1 as [(_ & -> & ->) | (e1 & _ & -> & ->)]; injection Hrun as <- Hw Hseg;
          apply app_inv_head in Hseg; subst seg.
        - exists [], CanvasBoundingBox, true. split; [reflexivity |]. right.
          injection He as <-. now split.
        - exists [], CanvasBoundingBox, false. split; [reflexivity | now left]. }
    unfold seq at 1 in Hrun.
    destruct (getCellCenter_run deps grid toCol toRow
                (mkTraced w1 (trace t ++ [(CanvasBoundingBox, true)])))
      as (r2 & b2 & w2 & Hg2 & H2). rewrite Hg2 in Hrun. cbn [trace page] in *.
    destruct H2 as [(box2 & toCenter & _ & _ & -> & ->) | H2].
    2:{ destruct H2 as [(_ & -> & ->) | (e1 & _ & -> & ->)]; injection Hrun as <- Hw Hseg;
          rewrite <- app_assoc in Hseg; apply app_inv_head in Hseg; subst seg.
        - exists [(CanvasBoundingBox, true)], CanvasBoundingBox, true. split; [reflexivity |].
          right. injection He as <-. now split.
        - exists [(CanvasBoundingBox, true)], CanvasBoundingBox, false.
          split; [reflexivity | now left]. }
    destruct (playback_spec deps (dragCalls fromCenter toCenter)
                (mkTraced w2 ((trace t ++ [(CanvasBoundingBox, true)])
                              ++ [(CanvasBoundingBox, true)])))
      as (r3 & seg3 & w3 & Hp & _ & Hthrow & _). rewrite Hp in Hrun. cbn [trace] in Hrun.
    injection Hrun as <- Hw Hseg. rewrite <- !app_assoc in Hseg. apply app_inv_head in Hseg.
    subst seg. destruct (Hthrow e He) as (pre & c & post & _ & -> & _).
    exists ([(CanvasBoundingBox, true); (CanvasBoundingBox, true)] ++ allResolved pre), c, false.
    split; [now rewrite <- app_assoc | now left].
Qed.

End Drag.
Section Clicks.

Import Page MouseActions.

Context {W : Type} (deps : Deps W).

Local Open Scope Q_scope.

Lemma click_run (ev : Q -> Q -> event) (op : Q -> Q -> W -> outcome unit * W)
    (grid : Grid) (col row : Z) (t : traced W) :
  landsAtCenter deps
    (let+ p := getCellCenter deps grid col row in
     perform (ev (Point.x p) (Point.y p)) (op (Point.x p) (Point.y p)))
    ev grid col row t.
Proof.
  unfold landsAtCenter, seq.
  destruct (getCellCenter_run deps grid col row t)
    as (r1 & b1 & w1 & -> & [(box & p & Hbox & Hc & -> & ->) | [(Hbox & -> & ->) | (e & Hbox & -> & ->)]]).
  - unfold perform. cbn [page trace].
    destruct (op (Point.x p) (Point.y p) w1) as [r w2].
    exists r, [(CanvasBoundingBox, true); (ev (Point.x p) (Point.y p), resolved r)], w2.
    split; [now rewrite <- app_assoc |]. split; [| split].
    + intros box' w3 H. rewrite Hbox in H. injection H as <- <-.
      exists p, (resolved r). now repeat split.
    + intros w3 H. congruence.
    + intros e w3 H. congruence.
  - exists (Throw "no canvas bbox"), [(CanvasBoundingBox, true)], w1.
    split; [reflexivity |]. split; [| split].
    + intros box w3 H. congruence.
    + intros w3 _. now split.
    + intros e w3 H. congruence.
  - exists (Throw e), [(CanvasBoundingBox, false)], w1.
    split; [reflexivity |]. split; [| split].
    + intros box w3 H. congruence.
    + intros w3 H. congruence.
    + intros e' w3 H. rewrite Hbox in H. injection H as <- <-. now split.
Qed.

(** X5.  [clickCell], [doubleClickCell] and [rightClickCell] ask the page
    for the box of the canvas and then make one call on the mouse, a
    click with the default button, a double click and a click with the
    right button, at the centre the cell has in the box the page
    answered, and they resolve exactly when that call does; without a box
    they reject with [no canvas bbox], when asking for the box rejects
    they reject with that error, and in both cases the mouse is not
    touched. *)
Theorem clicks_at_center (grid : Grid) (col row : Z) (t : traced W) :
  landsAtCenter deps (clickCell deps grid col row)
    (fun x y => MouseClick x y LeftButton) grid col row t /\
  landsAtCenter deps (doubleClickCell deps grid col row) MouseDblclick grid col row t /\
  landsAtCenter deps (rightClickCell deps grid col row)
    (fun x y => MouseClick x y RightButton) grid col row t.
Proof.
  split; [| split].
  - apply (click_run (fun x y => MouseClick x y LeftButton)
             (fun x y => mouse_click deps x y LeftButton)).
  - apply (click_run MouseDblclick (mouse_dblclick deps)).
  - apply (click_run (fun x y => MouseClick x y RightButton)
             (fun x y => mouse_click deps x y RightButton)).
Qed.

End Clicks.
Section TracedLoopsLt.

Import Page.

Context {W : Type}.

(** A [for] loop below [hi] ends by its own test. *)
Lemma for_lt_enough {A : Type} (budget : nat) (i hi : Z)
    (body : Z -> A -> T W A) (acc : A) (t : traced W) :
  hi - i <= Z.of_nat budget ->
  for_lt budget i hi body acc t = foldT body (range i (Z.to_nat (hi - i))) acc t.
Proof.
  revert i acc t. induction budget as [| budget IH]; intros i acc t Hb.
  - cbn [for_lt]. replace (Z.to_nat (hi - i)) with 0%nat by lia. reflexivity.
  - cbn [for_lt]. destruct (Z.ltb_spec i hi) as [H | H].
    + replace (Z.to_nat (hi - i)) with (S (Z.to_nat (hi - (i + 1)))) by lia.
      cbn [range foldT]. unfold seq. destruct (body i acc t) as [[a | e] t']; [| reflexivity].
      apply IH. lia.
    + replace (Z.to_nat (hi - i)) with 0%nat by lia. reflexivity.
Qed.

End TracedLoopsLt.

Section GetVisibleTooltips.

Import Page TooltipQueries.

Context {W Png : Type} (deps : Deps W Png).

Lemma or_undefined_nonempty (v : option string) : or_undefined v <> Some ""%string.
Proof. destruct v as [[| a s] |]; cbn; congruence. Qed.

Lemma clean_app (a b : list (event * bool)) : clean a -> clean b -> clean (a ++ b).
Proof. unfold clean. intros Ha Hb. apply List.Forall_app. now split. Qed.

Lemma stops_cons (c : event) (seg : list (event * bool)) :
  stopsAtRejection seg -> stopsAtRejection ((c, true) :: seg).
Proof.
  intros [H | (pre & c' & -> & H)].
  - left. now constructor.
  - right. exists ((c, true) :: pre), c'. split; [reflexivity | now constructor].
Qed.

Lemma stops_app (a b : list (event * bool)) :
  clean a -> stopsAtRejection b -> stopsAtRejection (a ++ b).
Proof.
  intros Ha [H | (pre & c' & -> & H)].
  - left. now apply clean_app.
  - right. exists (a ++ pre), c'. split; [now rewrite app_assoc | now apply clean_app].
Qed.

Lemma boxesRead_app (a b : list (event * bool)) :
  boxesRead (a ++ b) = boxesRead a ++ boxesRead b.
Proof. apply flat_map_app. Qed.

(** One element: it is pushed exactly when it is visible and all its
    reads resolved. *)
Lemma pushIfVisible_run (sel : string) (i : Z) (w : W) (ts : list Tooltip)
    (tr : list (event * bool)) :
  exists r seg w' new,
    pushIfVisible deps sel i (mkTraced (w, ts) tr) = (r, mkTraced (w', ts ++ new) (tr ++ seg)) /\
    ((new = [] /\ boxesRead seg = []) \/
     exists tip,
       new = [tip] /\ boxesRead seg = [i] /\ selector tip = sel /\ index tip = i /\
       text tip <> Some ""%string /\ readFrom deps sel tip /\
       In (IsVisible sel (Nth i), true) seg /\ In (ElementBoundingBox sel (Nth i), true) seg) /\
    visited seg = [i] /\
    (r = Ok tt -> clean seg) /\
    (forall e, r = Throw e -> new = [] /\ exists pre c, seg = pre ++ [(c, false)] /\ clean pre).
Proof.
  unfold pushIfVisible, seq, perform, onPage, getLocal, setLocal, result. cbn [page trace fst snd].
  destruct (isVisible deps sel (Nth i) w) as [[[] | e] w1] eqn:E0;
    cbn [resolved page trace fst snd].
  2:{ exists (Ok tt), [(IsVisible sel (Nth i), true)], w1, []. rewrite app_nil_r.
      split; [reflexivity |]. split; [left; now split |]. split; [reflexivity |]. split; [| discriminate].
      intros _. repeat constructor. }
  2:{ exists (Throw e), [(IsVisible sel (Nth i), false)], w1, []. rewrite app_nil_r.
      split; [reflexivity |]. split; [left; now split |]. split; [reflexivity |]. split; [discriminate |].
      intros e' _. split; [reflexivity |]. exists [], (IsVisible sel (Nth i)).
      split; [reflexivity | constructor]. }
  destruct (textContent deps sel (Nth i) w1) as [[txt | e] w2] eqn:E1;
    cbn [resolved page trace fst snd].
  2:{ exists (Throw e), [(IsVisible sel (Nth i), true); (TextContent sel (Nth i), false)], w2, [].
      rewrite app_nil_r, <- app_assoc.
      split; [reflexivity |]. split; [left; now split |]. split; [reflexivity |]. split; [discriminate |].
      intros e' _. split; [reflexivity |]. exists [(IsVisible sel (Nth i), true)], (TextContent sel (Nth i)).
      split; [reflexivity | repeat constructor]. }
  destruct (innerHTML deps sel (Nth i) w2) as [[htm | e] w3] eqn:E2;
    cbn [resolved page trace fst snd].
  2:{ exists (Throw e), [(IsVisible sel (Nth i), true); (TextContent sel (Nth i), true);
                         (InnerHTML sel (Nth i), false)], w3, [].
      rewrite app_nil_r, <- !app_assoc.
      split; [reflexivity |]. split; [left; now split |]. split; [reflexivity |]. split; [discriminate |].
      intros e' _. split; [reflexivity |].
      exists [(IsVisible sel (Nth i), true); (TextContent sel (Nth i), true)], (InnerHTML sel (Nth i)).
      split; [reflexivity | repeat constructor]. }
  destruct (locatorBoundingBox deps sel (Nth i) w3) as [[bx | e] w4] eqn:E3;
    cbn [resolved page trace fst snd].
  2:{ exists (Throw e), [(IsVisible sel (Nth i), true); (TextContent sel (Nth i), true);
                         (InnerHTML sel (Nth i), true); (ElementBoundingBox sel (Nth i), false)],
             w4, [].
      rewrite app_nil_r, <- !app_assoc.
      split; [reflexivity |]. split; [left; now split |]. split; [reflexivity |]. split; [discriminate |].
      intros e' _. split; [reflexivity |].
      exists [(IsVisible sel (Nth i), true); (TextContent sel (Nth i), true);
              (InnerHTML sel (Nth i), true)], (ElementBoundingBox sel (Nth i)).
      split; [reflexivity | repeat constructor]. }
  exists (Ok tt), [(IsVisible sel (Nth i), true); (TextContent sel (Nth i), true);
                   (InnerHTML sel (Nth i), true); (ElementBoundingBox sel (Nth i), true)],
         w4, [mkTooltip sel i (or_undefined txt) htm bx].
  rewrite <- !app_assoc. split; [reflexivity |]. split; [| split; [reflexivity | split; [| discriminate]]].
  - right. exists (mkTooltip sel i (or_undefined txt) htm bx).
    split; [reflexivity |]. split; [reflexivity |]. split; [reflexivity |].
    split; [reflexivity |]. split; [apply or_undefined_nonempty |].
    split; [now exists w, w1, txt, w2, w3, w4 |]. cbn. intuition.
  - intros _. repeat constructor.
Qed.

(** The elements of one selector, from the index [i] on. *)
Lemma pushLoop_run (sel : string) (l : list Z) (w : W) (ts : list Tooltip)
    (tr : list (event * bool)) :
  Sorted.StronglySorted Z.lt l -> Forall (fun i => 0 <= i) l ->
  exists r seg w' new,
    foldT (fun i _ => pushIfVisible deps sel i) l tt (mkTraced (w, ts) tr)
    = (r, mkTraced (w', ts ++ new) (tr ++ seg)) /\
    fromSelector deps sel seg new /\
    Forall (fun tip => In (index tip) l) new /\
    stopsAtRejection seg /\
    (exists later, l = visited seg ++ later) /\
    (clean seg -> visited seg = l).
Proof.
  revert w ts tr. induction l as [| i l IH]; intros w ts tr Hs Hpos.
  - exists (Ok tt), [], w, []. rewrite !app_nil_r. split; [reflexivity |].
    split; [split; [constructor | split; [reflexivity | constructor]] |].
    split; [constructor |]. split; [left; constructor |].
    split; [now exists [] | reflexivity].
  - cbn [foldT]. unfold seq.
    destruct (pushIfVisible_run sel i w ts tr)
      as (r & seg & w1 & new & -> & Hnew & Hvis & Hok & Hthrow).
    apply Sorted.StronglySorted_inv in Hs as [Hs Hi].
    apply List.Forall_cons_iff in Hpos as [Hi0 Hpos].
    destruct r as [[] | e].
    + destruct (IH w1 (ts ++ new) (tr ++ seg) Hs Hpos)
        as (r2 & seg2 & w2 & new2 & -> & (Hfrom & Hmap & Hsorted) & Hin & Hstop & Hlater & Hall).
      exists r2, (seg ++ seg2), w2, (new ++ new2). rewrite <- !app_assoc.
      split; [reflexivity |].
      assert (Hwalk : (exists later, i :: l = visited (seg ++ seg2) ++ later) /\
                      (clean (seg ++ seg2) -> visited (seg ++ seg2) = i :: l)).
      { unfold visited in *. rewrite flat_map_app, Hvis. cbn [app]. split.
        - destruct Hlater as [later Hl]. exists later. now rewrite Hl at 1.
        - intros Hc. apply List.Forall_app in Hc as [_ Hc]. now rewrite (Hall Hc). }
      assert (Hfrom2 : Forall (fun tip =>
                selector tip = sel /\ 0 <= index tip /\ text tip <> Some ""%string /\
                readFrom deps sel tip /\
                In (IsVisible sel (Nth (index tip)), true) (seg ++ seg2) /\
                In (ElementBoundingBox sel (Nth (index tip)), true) (seg ++ seg2)) new2).
      { eapply List.Forall_impl; [| exact Hfrom]. cbn beta.
        intros tip (H1 & H2 & H3 & H4 & H5 & H6). repeat split; try assumption;
          apply in_or_app; now right. }
      destruct Hnew as [[-> Hb] | (tip & -> & Hb & Hsel & Hidx & Htxt & Hread & Hv & Hbx)].
      * cbn [app]. split; [split; [exact Hfrom2 | split; [| exact Hsorted]] |].
        -- now rewrite boxesRead_app, Hb.
        -- split; [| split; [| exact Hwalk]].
           ++ eapply List.Forall_impl; [| exact Hin]. intros tip H. now right.
           ++ apply stops_app; [now apply Hok | exact Hstop].
      * split; [split; [| split] |]; [| | | split; [| split; [| exact Hwalk]]].
        -- constructor; [| exact Hfrom2].
           split; [exact Hsel |]. split; [rewrite Hidx; exact Hi0 |]. split; [exact Htxt |].
           split; [exact Hread |]. rewrite Hidx. split; apply in_or_app; now left.
        -- cbn [app map]. now rewrite boxesRead_app, Hb, Hidx, Hmap.
        -- cbn [app map]. rewrite Hidx. constructor; [exact Hsorted |].
           rewrite List.Forall_forall in *. intros j Hj.
           apply in_map_iff in Hj as (tip' & <- & Htip). apply Hi. now apply Hin.
        -- constructor; [left; now rewrite Hidx |].
           eapply List.Forall_impl; [| exact Hin]. intros tip' H. now right.
        -- apply stops_app; [now apply Hok | exact Hstop].
    + destruct (Hthrow e eq_refl) as (-> & pre & c & -> & Hpre).
      destruct Hnew as [[_ Hb] | (tip & Hnil & _)]; [| discriminate Hnil].
      exists (Throw e), (pre ++ [(c, false)]), w1, []. split; [reflexivity |].
      split; [split; [constructor | split; [now rewrite Hb | constructor]] |].
      split; [constructor |].
      split; [right; now exists pre, c |]. split.
      * exists l. now rewrite Hvis.
      * intros Hc. apply List.Forall_app in Hc as [_ Hc].
        apply List.Forall_cons_iff in Hc as [Hc _]. discriminate Hc.
Qed.

(** One selector: the query never rejects, and what it pushed is kept. *)
Lemma collectVisible_run (sel : string) (w : W) (ts : list Tooltip) (tr : list (event * bool)) :
  exists b seg w' new,
    collectVisible deps sel (mkTraced (w, ts) tr)
    = (Ok tt, mkTraced (w', ts ++ new) (tr ++ (Count sel, b) :: seg)) /\
    fromSelector deps sel seg new /\
    stopsAtRejection ((Count sel, b) :: seg) /\
    queried deps sel b seg.
Proof.
  unfold collectVisible, catch, seq. unfold perform at 1. unfold onPage at 1.
  cbn [page trace fst snd].
  destruct (count deps sel w) as [[n | e] w1] eqn:Ec; cbn [resolved].
  2:{ exists false, [], w1, []. rewrite app_nil_r. split; [reflexivity |].
      split; [split; [constructor | split; [reflexivity | constructor]] |].
      split; [| reflexivity].
      right. exists [], (Count sel). split; [reflexivity | constructor]. }
  rewrite for_lt_enough by lia. rewrite Z.sub_0_r.
  destruct (pushLoop_run sel (range 0 (Z.to_nat n)) w1 ts (tr ++ [(Count sel, true)]))
    as (r & seg & w2 & new & -> & Hfrom & _ & Hstop & Hlater & Hall).
  { apply range_sorted. }
  { apply List.Forall_forall. intros i Hi. apply in_range in Hi. lia. }
  exists true, seg, w2, new. rewrite <- app_assoc. cbn [app].
  split; [destruct r as [[] | e]; reflexivity |]. split; [exact Hfrom |].
  split; [now apply stops_cons |].
  exists w, n, w1. split; [exact Ec |]. split; assumption.
Qed.

End GetVisibleTooltips.
Section GetVisibleTooltipsClaims.

Import Page TooltipQueries.

Context {W Png : Type} (deps : Deps W Png).

(** The selectors one after the other. *)
Lemma collectAll_run (sels : list string) (w : W) (ts : list Tooltip)
    (tr : list (event * bool)) :
  exists w' chunks,
    foldT (fun sel _ => collectVisible deps sel) sels tt (mkTraced (w, ts) tr)
    = (Ok tt, mkTraced (w', ts ++ concat (map fst chunks)) (tr ++ concat (map snd chunks))) /\
    Forall2 (fun sel chunk =>
               exists b rest, snd chunk = (Count sel, b) :: rest /\
                              fromSelector deps sel rest (fst chunk) /\
                              stopsAtRejection (snd chunk) /\
                              queried deps sel b rest)
            sels chunks.
Proof.
  revert w ts tr. induction sels as [| sel sels IH]; intros w ts tr.
  - exists w, []. cbn. rewrite !app_nil_r. split; [reflexivity | constructor].
  - cbn [foldT]. unfold seq.
    destruct (collectVisible_run deps sel w ts tr)
      as (b & seg & w1 & new & -> & Hfrom & Hstop & Hq).
    destruct (IH w1 (ts ++ new) (tr ++ (Count sel, b) :: seg)) as (w2 & chunks & -> & Hall).
    exists w2, ((new, (Count sel, b) :: seg) :: chunks). cbn [map concat fst snd].
    rewrite <- !app_assoc. split; [reflexivity |].
    constructor; [| exact Hall]. now exists b, seg.
Qed.

(** X6.  [getVisibleTooltips] never rejects, whatever the locators do: a
    call that rejects ends the query of its selector and the next
    selector is queried.  For each selector it asks for the number of
    elements and then goes through them from the first one on, all of
    them unless a call rejects.  What it returns is made of one part for
    each selector, in the order of the selectors.  The part of a selector
    holds one tooltip for each element of that selector whose reads went
    through (its [boundingBox()], the last of them, resolved), in the
    order of the calls and by increasing index, also those read before a
    later call on that selector rejected; every tooltip holds what the
    page answered for its element, which was visible, and none has an
    empty text.  With an empty array of selectors nothing is asked of the
    page. *)
Theorem getVisibleTooltips_collects (tooltipSelectors : option (list string)) (t : traced W) :
  exists tips seg w' chunks,
    getVisibleTooltips deps tooltipSelectors t = (Ok tips, mkTraced w' (trace t ++ seg)) /\
    tips = concat (map fst chunks) /\
    seg = concat (map snd chunks) /\
    Forall2 (fun sel chunk =>
               exists b rest, snd chunk = (Count sel, b) :: rest /\
                              fromSelector deps sel rest (fst chunk) /\
                              stopsAtRejection (snd chunk) /\
                              queried deps sel b rest)
            match tooltipSelectors with
            | Some l => l
            | None => TooltipDetector.defaultSelectors
            end
            chunks /\
    (tooltipSelectors = Some [] -> tips = [] /\ seg = []).
Proof.
  unfold getVisibleTooltips, seq, withLocal, result.
  set (sels := match tooltipSelectors with
               | Some l => l
               | None => TooltipDetector.defaultSelectors
               end).
  destruct t as [w tr]. cbn [page trace].
  destruct (collectAll_run sels w [] tr) as (w' & chunks & -> & Hall). cbn [page trace fst snd app].
  exists (concat (map fst chunks)), (concat (map snd chunks)), w', chunks.
  split; [reflexivity |]. split; [reflexivity |]. split; [reflexivity |]. split; [exact Hall |].
  intros ->. subst sels. inversion Hall. now split.
Qed.

End GetVisibleTooltipsClaims.

Section GetVisibleTooltipsStatic.

Import Page TooltipQueries.

Variable dom : string -> list Dom.element.

Lemma pushIfVisible_static (sel : string) (i : Z) (e : Dom.element) (ts : list Tooltip)
    (tr : list (event * bool)) :
  0 <= i -> nth_error (dom sel) (Z.to_nat i) = Some e ->
  exists seg,
    pushIfVisible (staticPage dom) sel i (mkTraced (tt, ts) tr)
    = (Ok tt, mkTraced (tt, ts ++ visibleFrom sel i [e]) (tr ++ seg)) /\
    clean seg.
Proof.
  intros Hi He.
  unfold pushIfVisible, seq, perform, onPage, getLocal, setLocal, result, staticPage.
  cbn [page trace fst snd isVisible textContent innerHTML locatorBoundingBox elementAt].
  destruct (Z.ltb_spec i 0) as [H | _]; [lia |]. rewrite He.
  cbn [visibleFrom]. destruct (Dom.visible e); cbn [resolved page trace fst snd app].
  - eexists. rewrite <- !app_assoc. split; [reflexivity |]. repeat constructor.
  - eexists. rewrite app_nil_r. split; [reflexivity |]. repeat constructor.
Qed.

Lemma visibleFrom_app (sel : string) (i : Z) (a b : list Dom.element) :
  visibleFrom sel i (a ++ b)
  = visibleFrom sel i a ++ visibleFrom sel (i + Z.of_nat (length a)) b.
Proof.
  revert i. induction a as [| e a IH]; intros i; cbn [app visibleFrom length].
  - now rewrite Z.add_0_r.
  - rewrite IH, <- app_assoc. do 3 f_equal. lia.
Qed.

Lemma pushLoop_static (sel : string) (pre els : list Dom.element) (ts : list Tooltip)
    (tr : list (event * bool)) :
  dom sel = pre ++ els ->
  exists seg,
    foldT (fun i _ => pushIfVisible (staticPage dom) sel i)
      (range (Z.of_nat (length pre)) (length els)) tt (mkTraced (tt, ts) tr)
    = (Ok tt, mkTraced (tt, ts ++ visibleFrom sel (Z.of_nat (length pre)) els) (tr ++ seg)) /\
    clean seg.
Proof.
  revert pre ts tr. induction els as [| e els IH]; intros pre ts tr Hdom.
  - exists []. cbn. rewrite !app_nil_r. split; [reflexivity | constructor].
  - cbn [length range foldT]. unfold seq.
    destruct (pushIfVisible_static sel (Z.of_nat (length pre)) e ts tr) as (seg & -> & Hseg).
    { lia. }
    { rewrite Nat2Z.id, Hdom, nth_error_app2, Nat.sub_diag by lia. reflexivity. }
    destruct (IH (pre ++ [e]) (ts ++ visibleFrom sel (Z.of_nat (length pre)) [e]) (tr ++ seg))
      as (seg2 & Hrun & Hseg2).
    { now rewrite <- app_assoc. }
    rewrite length_app, Nat2Z.inj_add in Hrun. cbn [length] in Hrun.
    change (Z.of_nat 1) with 1 in Hrun. rewrite Hrun.
    exists (seg ++ seg2). rewrite <- !app_assoc. split; [| now apply clean_app].
    change (e :: els) with ([e] ++ els). rewrite (visibleFrom_app sel _ [e] els).
    reflexivity.
Qed.

Lemma collectVisible_static (sel : string) (ts : list Tooltip) (tr : list (event * bool)) :
  exists seg,
    collectVisible (staticPage dom) sel (mkTraced (tt, ts) tr)
    = (Ok tt, mkTraced (tt, ts ++ visibleFrom sel 0 (dom sel)) (tr ++ seg)) /\
    clean seg.
Proof.
  unfold collectVisible, catch, seq. unfold perform at 1. unfold onPage at 1.
  cbn [page trace fst snd].
  change (count (staticPage dom) sel tt) with (Ok (Z.of_nat (length (dom sel))), tt).
  cbn [resolved].
  rewrite for_lt_enough by lia. rewrite Z.sub_0_r, Nat2Z.id.
  destruct (pushLoop_static sel [] (dom sel) ts (tr ++ [(Count sel, true)]) eq_refl)
    as (seg & Hrun & Hseg).
  cbn [length] in Hrun. change (Z.of_nat 0) with 0 in Hrun. rewrite Hrun.
  exists ((Count sel, true) :: seg). rewrite <- app_assoc. split; [reflexivity |].
  now constructor.
Qed.

Lemma collectAll_static (sels : list string) (ts : list Tooltip) (tr : list (event * bool)) :
  exists seg,
    foldT (fun sel _ => collectVisible (staticPage dom) sel) sels tt (mkTraced (tt, ts) tr)
    = (Ok tt,
       mkTraced (tt, ts ++ flat_map (fun sel => visibleFrom sel 0 (dom sel)) sels) (tr ++ seg)) /\
    clean seg.
Proof.
  revert ts tr. induction sels as [| sel sels IH]; intros ts tr.
  - exists []. cbn. rewrite !app_nil_r. split; [reflexivity | constructor].
  - cbn [foldT flat_map]. unfold seq.
    destruct (collectVisible_static sel ts tr) as (seg & -> & Hseg).
    destruct (IH (ts ++ visibleFrom sel 0 (dom sel)) (tr ++ seg)) as (seg2 & -> & Hseg2).
    exists (seg ++ seg2). rewrite <- !app_assoc. split; [reflexivity | now apply clean_app].
Qed.

(** X7.  On a page that does not change while it is queried,
    [getVisibleTooltips] returns exactly the visible elements of the
    selectors: selector by selector in the order given, within a selector
    in the order of the elements, each with its selector, its index among
    all elements of the selector (visible or not), its text (none when
    empty), its markup and its box.  An element that several selectors
    match is returned once for each of them.  No call rejects and the
    page is left as it was. *)
Theorem getVisibleTooltips_static (tooltipSelectors : option (list string))
    (t : traced unit) :
  exists seg,
    getVisibleTooltips (staticPage dom) tooltipSelectors t
    = (Ok (flat_map (fun sel => visibleFrom sel 0 (dom sel))
                    match tooltipSelectors with
                    | Some l => l
                    | None => TooltipDetector.defaultSelectors
                    end),
       mkTraced (page t) (trace t ++ seg)) /\
    clean seg.
Proof.
  unfold getVisibleTooltips, seq, withLocal, result.
  destruct t as [[] tr]. cbn [page trace].
  destruct (collectAll_static match tooltipSelectors with
                              | Some l => l
                              | None => TooltipDetector.defaultSelectors
                              end [] tr) as (seg & -> & Hseg).
  exists seg. cbn [page trace fst snd app]. now split.
Qed.

End GetVisibleTooltipsStatic.
Section CaptureTooltip.

Import Page TooltipQueries.

Context {W Png : Type} (deps : Deps W Png).

Lemma locatorOnly_app (a b : list (event * bool)) :
  locatorOnly a -> locatorOnly b -> locatorOnly (a ++ b).
Proof. unfold locatorOnly. intros Ha Hb. apply List.Forall_app. now split. Qed.

Lemma wellFormed_notVisible (selectors : list string) : wellFormed selectors notVisible.
Proof.
  unfold wellFormed, notVisible. cbn. repeat split; try discriminate.
  intros [s Hs]. discriminate Hs.
Qed.

(** The [try] block of one selector keeps [tooltipInfo] well formed at
    every point where it can be left. *)
Lemma captureFrom_run (selectors : list string) (sel : string) (w : W) (info : Captured.t)
    (tr : list (event * bool)) :
  In sel selectors -> wellFormed selectors info ->
  exists r seg w' info',
    captureFrom deps sel (mkTraced (w, info) tr) = (r, mkTraced (w', info') (tr ++ seg)) /\
    wellFormed selectors info' /\
    Captured.screenshot info' = Captured.screenshot info /\
    locatorOnly seg /\
    (r = Ok false -> info' = info) /\
    (r = Ok true -> Captured.visible info' = true /\ Captured.selector info' = Some sel).
Proof.
  intros Hsel (Hvis & Hin & Hnone & Htext & Hhtml).
  assert (Hwf : wellFormed selectors info) by (repeat split; tauto).
  unfold captureFrom, seq, perform, onPage, getLocal, setLocal, result.
  cbn [page trace fst snd].
  destruct (count deps sel w) as [[n | e] w1]; cbn [resolved page trace fst snd].
  2:{ exists (Throw e), [(Count sel, false)], w1, info. split; [reflexivity |].
      split; [exact Hwf |]. split; [reflexivity |]. split; [repeat constructor |].
      split; discriminate. }
  destruct (0 <? n); cbn [page trace fst snd].
  2:{ exists (Ok false), [(Count sel, true)], w1, info. split; [reflexivity |].
      split; [exact Hwf |]. split; [reflexivity |]. split; [repeat constructor |].
      split; [reflexivity | discriminate]. }
  destruct (isVisible deps sel First w1) as [[[] | e] w2]; cbn [resolved page trace fst snd].
  2:{ exists (Ok false), [(Count sel, true); (IsVisible sel First, true)], w2, info.
      rewrite <- app_assoc. split; [reflexivity |].
      split; [exact Hwf |]. split; [reflexivity |]. split; [repeat constructor |].
      split; [reflexivity | discriminate]. }
  2:{ exists (Throw e), [(Count sel, true); (IsVisible sel First, false)], w2, info.
      rewrite <- app_assoc. split; [reflexivity |].
      split; [exact Hwf |]. split; [reflexivity |]. split; [repeat constructor |].
      split; discriminate. }
  cbn [Captured.text Captured.html Captured.selector Captured.visible Captured.screenshot].
  destruct (textContent deps sel First w2) as [[txt | e] w3]; cbn [resolved page trace fst snd].
  2:{ eexists (Throw e), [(Count sel, true); (IsVisible sel First, true);
                          (TextContent sel First, false)], w3, _.
      rewrite <- !app_assoc. split; [reflexivity |].
      split; [| split; [reflexivity | split; [repeat constructor | split; discriminate]]].
      unfold wellFormed. cbn. repeat split; try assumption; try discriminate; eauto.
      intros s Hs. injection Hs as <-. exact Hsel. }
  cbn [Captured.text Captured.html Captured.selector Captured.visible Captured.screenshot].
  destruct (innerHTML deps sel First w3) as [[htm | e] w4]; cbn [resolved page trace fst snd].
  2:{ eexists (Throw e), [(Count sel, true); (IsVisible sel First, true);
                          (TextContent sel First, true); (InnerHTML sel First, false)], w4, _.
      rewrite <- !app_assoc. split; [reflexivity |].
      split; [| split; [reflexivity | split; [repeat constructor | split; discriminate]]].
      unfold wellFormed. cbn [Captured.text Captured.html Captured.selector Captured.visible].
      repeat split; try assumption; try discriminate; eauto.
      - intros s Hs. injection Hs as <-. exact Hsel.
      - apply or_undefined_nonempty. }
  cbn [Captured.text Captured.html Captured.selector Captured.visible Captured.screenshot].
  eexists (Ok true), [(Count sel, true); (IsVisible sel First, true);
                      (TextContent sel First, true); (InnerHTML sel First, true)], w4, _.
  rewrite <- !app_assoc. split; [reflexivity |].
  split; [| split; [reflexivity | split; [repeat constructor | split; [discriminate |]]]].
  - unfold wellFormed. cbn [Captured.text Captured.html Captured.selector Captured.visible].
    repeat split; try discriminate; eauto.
    + intros s Hs. injection Hs as <-. exact Hsel.
    + apply or_undefined_nonempty.
    + apply or_undefined_nonempty.
  - intros _. now split.
Qed.

(** The loop over the selectors never rejects and keeps [tooltipInfo]
    well formed. *)
Lemma captureFirst_run (selectors rest : list string) (w : W) (info : Captured.t)
    (tr : list (event * bool)) :
  (forall s, In s rest -> In s selectors) -> wellFormed selectors info ->
  exists seg w' info',
    captureFirst deps rest (mkTraced (w, info) tr) = (Ok tt, mkTraced (w', info') (tr ++ seg)) /\
    wellFormed selectors info' /\
    Captured.screenshot info' = Captured.screenshot info /\
    locatorOnly seg.
Proof.
  revert w info tr. induction rest as [| sel rest IH]; intros w info tr Hsub Hwf.
  - exists [], w, info. rewrite app_nil_r. split; [reflexivity |].
    split; [exact Hwf |]. split; [reflexivity | constructor].
  - cbn [captureFirst]. unfold seq, catch.
    destruct (captureFrom_run selectors sel w info tr) as
      (r & seg & w1 & info1 & -> & Hwf1 & Hshot1 & Hloc1 & _); [apply Hsub; now left | exact Hwf |].
    assert (Hnext : exists seg2 w2 info2,
               captureFirst deps rest (mkTraced (w1, info1) (tr ++ seg))
               = (Ok tt, mkTraced (w2, info2) ((tr ++ seg) ++ seg2)) /\
               wellFormed selectors info2 /\
               Captured.screenshot info2 = Captured.screenshot info1 /\ locatorOnly seg2).
    { apply IH; [| exact Hwf1]. intros s Hs. apply Hsub. now right. }
    destruct Hnext as (seg2 & w2 & info2 & Hrun2 & Hwf2 & Hshot2 & Hloc2).
    destruct r as [[] | e]; unfold result.
    + exists seg, w1, info1. split; [reflexivity |]. split; [exact Hwf1 |].
      split; [exact Hshot1 | exact Hloc1].
    + rewrite Hrun2. exists (seg ++ seg2), w2, info2. rewrite <- app_assoc.
      split; [reflexivity |]. split; [exact Hwf2 |]. split; [congruence |].
      now apply locatorOnly_app.
    + rewrite Hrun2. exists (seg ++ seg2), w2, info2. rewrite <- app_assoc.
      split; [reflexivity |]. split; [exact Hwf2 |]. split; [congruence |].
      now apply locatorOnly_app.
Qed.

(** X8.  [hoverCellAndCaptureTooltip] hovers the cell once, with the
    profile of three steps, a jitter of 2 and a dwell of 30 ms, waits
    [waitTime] (500 ms by default) and then questions the locators.  It
    rejects only when the hover, the wait or the capture of the page
    rejects; what the locators do never makes it reject.  What it returns
    names a selector exactly when it is visible, the selector is one of
    those asked for, text and markup are only there when it is visible and
    are never empty, and a capture of the page is there exactly when it
    was asked for and a tooltip is visible. *)
Theorem capture_ends (hoverFn : Z -> Z -> HoverOptions -> W -> outcome unit * W)
    (col row : Z) (options : option CaptureOptions.t) (t : traced W) :
  let hover := Hover col row captureHover in
  let wait := WaitForTimeout (waitTimeOf options) in
  exists r seg w',
    hoverCellAndCaptureTooltip deps hoverFn col row options t
    = (r, mkTraced w' (trace t ++ seg)) /\
    ((seg = [(hover, false)] /\ exists e, r = Throw e) \/
     (seg = [(hover, true); (wait, false)] /\ exists e, r = Throw e) \/
     exists loc, locatorOnly loc /\
       ((seg = [(hover, true); (wait, true)] ++ loc /\
         exists info, r = Ok info /\ wellFormed (captureSelectorsOf options) info /\
                      Captured.screenshot info = None /\
                      (captureScreenshotOf options = false \/ Captured.visible info = false)) \/
        (seg = [(hover, true); (wait, true)] ++ loc ++ [(Screenshot, true)] /\
         exists info shot, r = Ok info /\ wellFormed (captureSelectorsOf options) info /\
                           Captured.screenshot info = Some shot /\
                           captureScreenshotOf options = true /\
                           Captured.visible info = true) \/
        (seg = [(hover, true); (wait, true)] ++ loc ++ [(Screenshot, false)] /\
         captureScreenshotOf options = true /\ exists e, r = Throw e))).
Proof.
  intros hover wait. unfold hoverCellAndCaptureTooltip. cbv zeta.
  fold (waitTimeOf options) (captureSelectorsOf options) (captureScreenshotOf options).
  fold hover wait. unfold seq at 1. unfold perform at 1.
  destruct (hoverFn col row captureHover (page t)) as [[[] | e] w1]; cbn [resolved].
  2:{ exists (Throw e), [(hover, false)], w1. split; [reflexivity |]. left. eauto. }
  unfold seq at 1. unfold perform at 1. cbn [page trace].
  destruct (waitForTimeout deps (waitTimeOf options) w1) as [[[] | e] w2]; cbn [resolved].
  2:{ exists (Throw e), [(hover, true); (wait, false)], w2.
      rewrite <- app_assoc. split; [reflexivity |]. right. left. eauto. }
  unfold seq at 1. unfold withLocal. cbn [page trace].
  destruct (captureFirst_run (captureSelectorsOf options) (captureSelectorsOf options) w2
              notVisible ((trace t ++ [(hover, true)]) ++ [(wait, true)]))
    as (loc & w3 & info & -> & Hwf & Hshot & Hloc);
    [auto | apply wellFormed_notVisible |].
  cbn [page trace fst snd]. cbn [notVisible Captured.screenshot] in Hshot.
  destruct (captureScreenshotOf options) eqn:Hcap; cbn [andb].
  2:{ exists (Ok info), ([(hover, true); (wait, true)] ++ loc), w3. rewrite <- !app_assoc.
      split; [reflexivity |]. right. right. exists loc. split; [exact Hloc |]. left.
      split; [reflexivity |]. exists info. repeat split; try apply Hwf; auto. }
  destruct (Captured.visible info) eqn:Hv.
  2:{ exists (Ok info), ([(hover, true); (wait, true)] ++ loc), w3. rewrite <- !app_assoc.
      split; [reflexivity |]. right. right. exists loc. split; [exact Hloc |]. left.
      split; [reflexivity |]. exists info. repeat split; try apply Hwf; auto. }
  unfold seq, perform, result. cbn [page trace].
  destruct (screenshot deps w3) as [[png | e] w4]; cbn [resolved].
  - eexists (Ok _), ([(hover, true); (wait, true)] ++ loc ++ [(Screenshot, true)]), w4.
    rewrite <- !app_assoc. split; [reflexivity |]. right. right. exists loc.
    split; [exact Hloc |]. right. left. split; [reflexivity |].
    eexists _, (toBase64 deps png). split; [reflexivity |].
    split; [| now repeat split].
    destruct Hwf as (H1 & H2 & H3 & H4 & H5). unfold wellFormed.
    cbn [Captured.text Captured.html Captured.selector Captured.visible]. rewrite Hv in *.
    repeat split; try assumption; try apply H1; try discriminate.
  - exists (Throw e), ([(hover, true); (wait, true)] ++ loc ++ [(Screenshot, false)]), w4.
    rewrite <- !app_assoc. split; [reflexivity |]. right. right. exists loc.
    split; [exact Hloc |]. right. right. split; [reflexivity |]. split; [reflexivity |]. eauto.
Qed.

End CaptureTooltip.
Section CaptureStatic.

Import Page TooltipQueries.

Variable dom : string -> list Dom.element.

Lemma captureFrom_static (sel : string) (info : Captured.t) (tr : list (event * bool)) :
  exists seg,
    captureFrom (staticPage dom) sel (mkTraced (tt, info) tr)
    = (match dom sel with
       | e :: _ => if Dom.visible e
                   then (Ok true, mkTraced (tt, assigned sel e info) (tr ++ seg))
                   else (Ok false, mkTraced (tt, info) (tr ++ seg))
       | [] => (Ok false, mkTraced (tt, info) (tr ++ seg))
       end).
Proof.
  unfold captureFrom, seq, perform, onPage, getLocal, setLocal, result, staticPage.
  cbn [page trace fst snd count isVisible textContent innerHTML elementAt resolved].
  destruct (dom sel) as [| e rest]; cbn [length nth_error].
  - change (0 <? Z.of_nat 0) with false. cbn [page trace fst snd]. eexists. reflexivity.
  - assert (Hpos : (0 <? Z.of_nat (S (length rest))) = true) by (apply Z.ltb_lt; lia).
    rewrite Hpos. cbn [page trace fst snd resolved].
    destruct (Dom.visible e); cbn [page trace fst snd resolved Captured.text Captured.html
                                   Captured.selector Captured.visible Captured.screenshot].
    + eexists. rewrite <- !app_assoc. reflexivity.
    + eexists. rewrite <- !app_assoc. reflexivity.
Qed.

Lemma captureFirst_static (sels : list string) (info : Captured.t) (tr : list (event * bool)) :
  exists seg,
    captureFirst (staticPage dom) sels (mkTraced (tt, info) tr)
    = (Ok tt,
       mkTraced (tt, match firstVisible dom sels with
                     | Some (sel, e) => assigned sel e info
                     | None => info
                     end) (tr ++ seg)).
Proof.
  revert tr. induction sels as [| sel sels IH]; intros tr.
  - exists []. cbn. now rewrite app_nil_r.
  - cbn [captureFirst firstVisible]. unfold seq, catch.
    destruct (captureFrom_static sel info tr) as (seg & ->).
    destruct (dom sel) as [| e rest].
    + destruct (IH (tr ++ seg)) as (seg2 & ->). exists (seg ++ seg2). now rewrite <- app_assoc.
    + destruct (Dom.visible e).
      * exists seg. reflexivity.
      * destruct (IH (tr ++ seg)) as (seg2 & ->). exists (seg ++ seg2). now rewrite <- app_assoc.
Qed.

(** X9.  On a page that does not change while it is queried,
    [hoverCellAndCaptureTooltip] whose hover resolves reports the first
    selector, in the order given, whose first element is visible, with
    the text and the markup of that element (none when empty); of every
    selector only the first element is looked at, so a selector whose
    first element is hidden is passed over; when no selector has a
    visible first element it reports [visible: false] and nothing else.
    The capture of the page is added when it was asked for and a tooltip
    is visible.  When the hover rejects, so does the method. *)
Theorem capture_first_visible (hoverFn : Z -> Z -> HoverOptions -> unit -> outcome unit * unit)
    (col row : Z) (options : option CaptureOptions.t) (t : traced unit) :
  exists seg,
    hoverCellAndCaptureTooltip (staticPage dom) hoverFn col row options t
    = (match fst (hoverFn col row captureHover (page t)) with
       | Ok _ =>
           Ok (let info := capturedFrom (firstVisible dom (captureSelectorsOf options)) in
               if captureScreenshotOf options && Captured.visible info
               then withScreenshot info (toBase64 (staticPage dom) tt)
               else info)
       | Throw e => Throw e
       end,
       mkTraced tt (trace t ++ seg)).
Proof.
  unfold hoverCellAndCaptureTooltip. cbv zeta.
  fold (waitTimeOf options) (captureSelectorsOf options) (captureScreenshotOf options).
  unfold seq at 1. unfold perform at 1.
  destruct (hoverFn col row captureHover (page t)) as [[[] | e] []]; cbn [resolved fst];
    [| eexists; reflexivity].
  unfold seq at 1. unfold perform at 1. cbn [page trace].
  change (waitForTimeout (staticPage dom) (waitTimeOf options) tt) with (Ok tt, tt).
  cbn [resolved]. unfold seq at 1. unfold withLocal. cbn [page trace].
  destruct (captureFirst_static (captureSelectorsOf options) notVisible
              ((trace t ++ [(Hover col row captureHover, true)])
               ++ [(WaitForTimeout (waitTimeOf options), true)])) as (seg & ->).
  cbn [page trace fst snd].
  assert (Hinfo : match firstVisible dom (captureSelectorsOf options) with
                  | Some (sel, e) => assigned sel e notVisible
                  | None => notVisible
                  end = capturedFrom (firstVisible dom (captureSelectorsOf options))).
  { destruct (firstVisible dom (captureSelectorsOf options)) as [[sel e] |]; reflexivity. }
  rewrite Hinfo.
  destruct (captureScreenshotOf options
            && Captured.visible (capturedFrom (firstVisible dom (captureSelectorsOf options)))).
  - unfold seq, perform, result. cbn [page trace].
    change (screenshot (staticPage dom) tt) with (@Ok unit tt, tt). cbn [resolved].
    eexists. rewrite <- !app_assoc. reflexivity.
  - unfold result. eexists. rewrite <- !app_assoc. reflexivity.
Qed.

End CaptureStatic.
(** * Further properties: the extraction of text *)

Section TracedNested.

Import Page.

Context {W : Type}.

Lemma foldT_map {A I K : Type} (g : I -> K) (h : K -> A -> T W A) (l : list I) (acc : A)
    (t : traced W) :
  foldT (fun i acc => h (g i) acc) l acc t = foldT h (map g l) acc t.
Proof.
  revert acc t. induction l as [| i l IH]; intros acc t; cbn [foldT map].
  - reflexivity.
  - unfold seq. destruct (h (g i) acc t) as [[a | e] t']; [apply IH | reflexivity].
Qed.

Lemma foldT_nested {A I J K : Type} (g : I -> J -> K) (h : K -> A -> T W A)
    (outer : list I) (inner : list J) (acc : A) (t : traced W) :
  foldT (fun i acc => foldT (fun j acc => h (g i j) acc) inner acc) outer acc t
  = foldT h (flat_map (fun i => map (g i) inner) outer) acc t.
Proof.
  revert acc t. induction outer as [| i outer IH]; intros acc t; cbn [foldT flat_map].
  - reflexivity.
  - rewrite foldT_app. unfold seq. rewrite (foldT_map (g i) h).
    destruct (foldT h (map (g i) inner) acc t) as [[a | e] t']; [apply IH | reflexivity].
Qed.

End TracedNested.

Section ExtractCells.

Import Page TextExtraction.

Context {W : Type} (deps : Deps W).

Lemma captures_app (a b : list (event * bool)) : captures (a ++ b) = captures a ++ captures b.
Proof. apply flat_map_app. Qed.

Lemma truthy_withCoordinates (col row : Z) (text : string) :
  truthy_string (Some (withCoordinates col row text)) = true.
Proof. reflexivity. Qed.

(** One cell: an entry is pushed whatever the capture does; only the
    pause after it can make the extraction reject. *)
Lemma extractCell_run (options : SelectOptions.t) (row col : Z) (acc : Acc) (t : traced W) :
  exists r seg w',
    extractCell deps (selectDelayOf options) (selectSelectorsOf options)
      (coordinatesOf options) row col acc t
    = (r, mkTraced w' (trace t ++ seg)) /\
    ((exists cell,
        r = Ok {| acc_textContent := acc_textContent acc ++ [cell];
                  acc_cellsWithText :=
                    acc_cellsWithText acc + (if fromTooltip cell then 1 else 0) |} /\
        cellOf cell = (col, row) /\ cellExtracted options cell seg) \/
     (exists e pre, r = Throw e /\ seg = pre ++ [(WaitForTimeout 50, false)] /\
                    captures pre = [(col, row)])).
Proof.
  unfold extractCell, seq, catch, log, result. unfold perform at 1.
  destruct (hoverCellAndCaptureTooltip deps col row (selectDelayOf options)
              (selectSelectorsOf options) (page t)) as [[info | e] w1]; cbn [resolved page trace].
  - set (found := TooltipQueries.Captured.visible info
                  && truthy_string (TooltipQueries.Captured.text info)).
    cbn [fst snd].
    match goal with |- context [acc_textContent acc ++ [?c]] => set (cell := c) end.
    assert (Hcell : cellOf cell = (col, row) /\
                    fromTooltip cell = found /\
                    (CellText.source cell = SourceTooltip ->
                     truthy_string (CellText.text cell) = true) /\
                    (CellText.source cell = SourceNone ->
                     CellText.text cell = None /\ CellText.html cell = None) /\
                    (coordinatesOf options = true -> CellText.source cell = SourceTooltip ->
                     exists text, CellText.text cell
                                  = Some (withCoordinates (CellText.col cell)
                                            (CellText.row cell) text))).
    { subst cell. destruct found eqn:Hfound; cbn [CellText.text].
      - subst found. apply andb_true_iff in Hfound as [_ Htext].
        unfold truthy_string in Htext.
        destruct (or_undefined (TooltipQueries.Captured.text info)) as [text |] eqn:Ht;
          [| discriminate Htext].
        destruct (coordinatesOf options); cbn.
        + repeat split; try discriminate. intros _ _. now exists text.
        + repeat split; try discriminate. unfold truthy_string. now rewrite Ht.
      - cbn. repeat split; discriminate. }
    clearbody cell. destruct Hcell as (Hof & Hfrom & Htrue & Hnone & Hcoord).
    cbn [fst snd]. unfold perform.  cbn [page trace].
    destruct (waitForTimeout deps 50 w1) as [[[] | e] w2]; cbn [resolved].
    + exists (Ok {| acc_textContent := acc_textContent acc ++ [cell];
                    acc_cellsWithText := if found then acc_cellsWithText acc + 1
                                         else acc_cellsWithText acc |}),
             [(CaptureTooltip col row (selectDelayOf options) (selectSelectorsOf options), true);
              (WaitForTimeout 50, true)], w2.
      rewrite <- app_assoc. split; [reflexivity |]. left. exists cell.
      split; [| split; [exact Hof |]].
      * rewrite Hfrom. destruct found; [reflexivity | now rewrite Z.add_0_r].
      * unfold cellExtracted. split; [| split; [exact Htrue | split; [exact Hnone | exact Hcoord]]].
        unfold cellOf in Hof. injection Hof as Hc Hr. rewrite Hc, Hr.
        exists true. split; [reflexivity | discriminate].
    + exists (Throw e),
             [(CaptureTooltip col row (selectDelayOf options) (selectSelectorsOf options), true);
              (WaitForTimeout 50, false)], w2.
      rewrite <- app_assoc. split; [reflexivity |]. right.
      now exists e, [(CaptureTooltip col row (selectDelayOf options)
                        (selectSelectorsOf options), true)].
  - cbn [fst snd]. unfold perform. cbn [page trace].
    destruct (waitForTimeout deps 50 w1) as [[[] | e'] w2]; cbn [resolved].
    + eexists (Ok _),
             [(CaptureTooltip col row (selectDelayOf options) (selectSelectorsOf options), false);
              (ConsoleWarn col row, true); (WaitForTimeout 50, true)], w2.
      rewrite <- !app_assoc. split; [reflexivity |]. left.
      exists {| CellText.col := col; CellText.row := row; CellText.text := None;
                CellText.html := None; CellText.source := SourceNone |}.
      cbn [fromTooltip CellText.source]. rewrite Z.add_0_r.
      split; [reflexivity |]. split; [reflexivity |]. unfold cellExtracted. cbn.
      split; [| repeat split; discriminate]. exists false. now split.
    + exists (Throw e'),
             [(CaptureTooltip col row (selectDelayOf options) (selectSelectorsOf options), false);
              (ConsoleWarn col row, true); (WaitForTimeout 50, false)], w2.
      rewrite <- !app_assoc. split; [reflexivity |]. right.
      now exists e', [(CaptureTooltip col row (selectDelayOf options)
                         (selectSelectorsOf options), false); (ConsoleWarn col row, true)].
Qed.

(** The cells one after the other. *)
Lemma extractCells_run (options : SelectOptions.t) (cells : list (Z * Z)) (acc : Acc)
    (t : traced W) :
  exists r seg w',
    foldT (fun cell acc =>
             extractCell deps (selectDelayOf options) (selectSelectorsOf options)
               (coordinatesOf options) (snd cell) (fst cell) acc) cells acc t
    = (r, mkTraced w' (trace t ++ seg)) /\
    ((exists visits,
        r = Ok {| acc_textContent := acc_textContent acc ++ map fst visits;
                  acc_cellsWithText :=
                    acc_cellsWithText acc
                    + Z.of_nat (length (List.filter fromTooltip (map fst visits))) |} /\
        map (fun v => cellOf (fst v)) visits = cells /\
        seg = concat (map snd visits) /\
        Forall (fun v => cellExtracted options (fst v) (snd v)) visits) \/
     (exists e pre rest, r = Throw e /\ seg = pre ++ [(WaitForTimeout 50, false)] /\
                         cells = captures pre ++ rest /\ captures pre <> [])).
Proof.
  revert acc t. induction cells as [| [col row] cells IH]; intros acc t.
  - exists (Ok acc), [], (page t). cbn [foldT]. unfold result. rewrite app_nil_r.
    split; [now destruct t |]. left. exists []. cbn. rewrite app_nil_r, Z.add_0_r.
    split; [now destruct acc |]. repeat split. constructor.
  - cbn [foldT fst snd]. unfold seq.
    destruct (extractCell_run options row col acc t)
      as (r & seg & w1 & -> & [(cell & -> & Hof & Hcell) | (e & pre & -> & -> & Hcap)]).
    + destruct (IH {| acc_textContent := acc_textContent acc ++ [cell];
                      acc_cellsWithText :=
                        acc_cellsWithText acc + (if fromTooltip cell then 1 else 0) |}
                   (mkTraced w1 (trace t ++ seg)))
        as (r2 & seg2 & w2 & -> & [(visits & -> & Hcells & -> & Hall)
                                  | (e & pre & rest & -> & -> & Hrest & Hcap)]);
        cbn [trace acc_textContent acc_cellsWithText].
      * eexists (Ok _), (seg ++ concat (map snd visits)), w2. rewrite <- (app_assoc (trace t)).
        split; [reflexivity |]. left. exists ((cell, seg) :: visits).
        cbn [map fst snd concat List.filter]. split; [| split; [| split]].
        -- rewrite <- app_assoc. f_equal. f_equal.
           destruct (fromTooltip cell); cbn [length]; lia.
        -- now rewrite Hof, Hcells.
        -- reflexivity.
        -- now constructor.
      * exists (Throw e), (seg ++ pre ++ [(WaitForTimeout 50, false)]), w2.
        rewrite <- app_assoc. split; [reflexivity |]. right. exists e, (seg ++ pre), rest.
        split; [reflexivity |]. split; [now rewrite app_assoc |].
        assert (Hseg : captures seg = [(col, row)]).
        { destruct Hcell as ((b & -> & _) & _). rewrite <- Hof. now destruct b. }
        rewrite captures_app, Hseg. split; [now rewrite Hrest | discriminate].
    + exists (Throw e), (pre ++ [(WaitForTimeout 50, false)]), w1.
      split; [reflexivity |]. right. exists e, pre, cells. split; [reflexivity |].
      split; [reflexivity |]. rewrite Hcap. split; [reflexivity | discriminate].
Qed.

Lemma captures_visits (options : SelectOptions.t) (visits : list (CellText.t * list (event * bool))) :
  Forall (fun v => cellExtracted options (fst v) (snd v)) visits ->
  captures (concat (map snd visits)) = map (fun v => cellOf (fst v)) visits.
Proof.
  induction 1 as [| [cell seg] visits ((b & Hseg & _) & _) _ IH]; [reflexivity |].
  cbn [map concat fst snd] in *. rewrite captures_app, IH. subst seg.
  destruct b; reflexivity.
Qed.

Lemma flat_map_length_const {A B : Type} (f : A -> list B) (l : list A) (n : nat) :
  (forall a, length (f a) = n) -> length (flat_map f l) = (n * length l)%nat.
Proof.
  intros Hf. induction l as [| a l IH]; cbn [flat_map].
  - cbn [length]. symmetry. apply Nat.mul_0_r.
  - rewrite List.length_app, Hf, IH. cbn [length]. symmetry. rewrite Nat.mul_succ_r. lia.
Qed.

Lemma regionCells_length (r : GridScanner.Region) :
  length (GridScanner.regionCells r)
  = (Z.to_nat (GridScanner.endCol r - GridScanner.startCol r + 1)
     * Z.to_nat (GridScanner.endRow r - GridScanner.startRow r + 1))%nat.
Proof.
  unfold GridScanner.regionCells.
  rewrite (flat_map_length_const _ _
             (Z.to_nat (GridScanner.endCol r - GridScanner.startCol r + 1))).
  - now rewrite range_length.
  - intros row. now rewrite List.length_map, range_length.
Qed.

End ExtractCells.
Section SelectCells.

Import Page TextExtraction.

Context {W : Type} (deps : Deps W).

(** The two loops of [selectCellsAndExtractText] go through the cells of
    the region. *)
Lemma select_loops (r : GridScanner.Region) (body : Z -> Z -> Acc -> T W Acc) (acc : Acc)
    (t : traced W) :
  for_le (Z.to_nat (GridScanner.endRow r - GridScanner.startRow r + 1))
    (GridScanner.startRow r) (inject_Z (GridScanner.endRow r))
    (fun row acc =>
       for_le (Z.to_nat (GridScanner.endCol r - GridScanner.startCol r + 1))
         (GridScanner.startCol r) (inject_Z (GridScanner.endCol r))
         (fun col acc => body row col acc) acc)
    acc t
  = foldT (fun cell acc => body (snd cell) (fst cell) acc) (GridScanner.regionCells r) acc t.
Proof.
  rewrite for_le_budget by (rewrite Qfloor_Z; lia). rewrite Qfloor_Z.
  unfold GridScanner.regionCells.
  rewrite <- (foldT_nested (fun row col => (col, row))
                (fun cell acc => body (snd cell) (fst cell) acc)).
  apply foldT_ext. intros row a t0. cbn [fst snd].
  rewrite for_le_budget by (rewrite Qfloor_Z; lia). now rewrite Qfloor_Z.
Qed.

(** Moving the mouse away never makes the extraction reject. *)
Lemma select_move_away (t : traced W) :
  exists away w',
    catch (let+ _ := perform (MouseMove 0 0) (mouse_move deps 0 0) in
           perform (WaitForTimeout 100) (waitForTimeout deps 100))
          (fun _ => result tt) t
    = (Ok tt, mkTraced w' (trace t ++ away)) /\
    (away = [(MouseMove 0 0, false)] \/
     exists b, away = [(MouseMove 0 0, true); (WaitForTimeout 100, b)]).
Proof.
  unfold catch, seq, perform, result.
  destruct (mouse_move deps 0 0 (page t)) as [[[] | e] w1]; cbn [resolved page trace].
  - destruct (waitForTimeout deps 100 w1) as [[[] | e] w2]; cbn [resolved].
    + exists [(MouseMove 0 0, true); (WaitForTimeout 100, true)], w2.
      rewrite <- app_assoc. split; [reflexivity |]. right. now exists true.
    + exists [(MouseMove 0 0, true); (WaitForTimeout 100, false)], w2.
      rewrite <- app_assoc. split; [reflexivity |]. right. now exists false.
  - exists [(MouseMove 0 0, false)], w1. split; [reflexivity | now left].
Qed.

(** Everything [selectCellsAndExtractText] does, read off its trace. *)
Lemma select_run (grid : Grid) (options : SelectOptions.t) (t : traced W) :
  exists r seg w',
    selectCellsAndExtractText deps grid options t = (r, mkTraced w' (trace t ++ seg)) /\
    ((exists visits away,
        r = Ok {| Selection.region := regionOf grid options;
                  Selection.totalCells := GridScanner.regionTotalCells (regionOf grid options);
                  Selection.cellsWithText :=
                    Z.of_nat (length (List.filter fromTooltip (map fst visits)));
                  Selection.textContent := map fst visits;
                  Selection.combinedText := combine (map fst visits) |} /\
        map (fun v => cellOf (fst v)) visits = GridScanner.regionCells (regionOf grid options) /\
        seg = concat (map snd visits) ++ away /\
        Forall (fun v => cellExtracted options (fst v) (snd v)) visits /\
        (away = [(MouseMove 0 0, false)] \/
         exists b, away = [(MouseMove 0 0, true); (WaitForTimeout 100, b)])) \/
     (exists e pre rest, r = Throw e /\ seg = pre ++ [(WaitForTimeout 50, false)] /\
                         GridScanner.regionCells (regionOf grid options) = captures pre ++ rest /\
                         captures pre <> [])).
Proof.
  unfold selectCellsAndExtractText. cbv zeta.
  fold (selectDelayOf options) (selectSelectorsOf options) (coordinatesOf options)
       (regionOf grid options).
  unfold seq at 1.
  rewrite (select_loops (regionOf grid options)
             (fun row col acc =>
                extractCell deps (selectDelayOf options) (selectSelectorsOf options)
                  (coordinatesOf options) row col acc)).
  destruct (extractCells_run deps options (GridScanner.regionCells (regionOf grid options))
              {| acc_textContent := []; acc_cellsWithText := 0 |} t)
    as (r & seg & w1 & -> & [(visits & -> & Hcells & -> & Hall)
                            | (e & pre & rest & -> & -> & Hrest & Hcap)]).
  - cbn [acc_textContent acc_cellsWithText app]. unfold seq at 1.
    destruct (select_move_away (mkTraced w1 (trace t ++ concat (map snd visits))))
      as (away & w2 & -> & Haway). cbn [trace]. unfold result.
    eexists (Ok _), (concat (map snd visits) ++ away), w2. rewrite <- app_assoc.
    split; [reflexivity |]. left. exists visits, away.
    split; [reflexivity |]. now repeat split.
  - exists (Throw e), (pre ++ [(WaitForTimeout 50, false)]), w1.
    split; [reflexivity |]. right. now exists e, pre, rest.
Qed.

End SelectCells.
Section SelectionProperties.

Import Page TextExtraction.

Context {W : Type} (deps : Deps W).

Lemma captures_away (away : list (event * bool)) :
  (away = [(MouseMove 0 0, false)] \/
   exists b, away = [(MouseMove 0 0, true); (WaitForTimeout 100, b)]) ->
  captures away = [].
Proof. intros [-> | [b ->]]; reflexivity. Qed.

(** X10.  [selectCellsAndExtractText] rejects only when the pause of
    50 ms after a cell rejects; the cells captured until then are the
    first cells of the region.  When it resolves, [textContent] has one
    entry for each cell of the region it returns, row by row and within a
    row by increasing column, and each of these cells was captured once,
    in that order, with the delay and the selectors of the options.  A
    capture that rejects is followed by a warning and leaves its entry
    without text; the next cell is captured all the same.  An entry has a
    text exactly when its source is the tooltip; the text is then not
    empty and, with [includeCoordinates], starts with the coordinates of
    its cell. *)
Theorem select_entries (grid : Grid) (options : SelectOptions.t) (t : traced W) :
  exists r seg w',
    selectCellsAndExtractText deps grid options t = (r, mkTraced w' (trace t ++ seg)) /\
    (forall sel, r = Ok sel ->
       exists visits away,
         Selection.textContent sel = map fst visits /\
         seg = concat (map snd visits) ++ away /\
         Forall (fun v => cellExtracted options (fst v) (snd v)) visits /\
         captures away = [] /\
         Selection.region sel = regionOf grid options /\
         map cellOf (Selection.textContent sel)
         = GridScanner.regionCells (Selection.region sel) /\
         captures seg = GridScanner.regionCells (Selection.region sel)) /\
    (forall e, r = Throw e ->
       exists pre rest,
         seg = pre ++ [(WaitForTimeout 50, false)] /\
         GridScanner.regionCells (regionOf grid options) = captures pre ++ rest /\
         captures pre <> []).
Proof.
  destruct (select_run deps grid options t)
    as (r & seg & w' & Hrun & [(visits & away & -> & Hcells & -> & Hall & Haway)
                              | (e & pre & rest & -> & -> & Hrest & Hcap)]).
  - eexists (Ok _), (concat (map snd visits) ++ away), w'. split; [exact Hrun |].
    split; [| discriminate].
    intros sel Hsel. injection Hsel as <-. cbn [Selection.textContent Selection.region].
    exists visits, away. split; [reflexivity |]. split; [reflexivity |].
    split; [exact Hall |]. split; [now apply captures_away |]. split; [reflexivity |].
    split; [now rewrite List.map_map |].
    rewrite captures_app, (captures_visits options visits Hall), (captures_away away Haway).
    now rewrite app_nil_r.
  - exists (Throw e), (pre ++ [(WaitForTimeout 50, false)]), w'. split; [exact Hrun |].
    split; [discriminate |]. intros e' _. now exists pre, rest.
Qed.

Lemma hasText_truthy (cell : CellText.t) :
  hasText cell = true -> truthy_string (CellText.text cell) = true.
Proof.
  unfold hasText, truthy_string. now destruct (or_undefined (CellText.text cell)).
Qed.

Lemma hasText_trimmed (cell : CellText.t) :
  hasText cell = true -> negb (String.length (trimmedText cell) =? 0)%nat = true.
Proof.
  unfold hasText, trimmedText.
  destruct (CellText.text cell) as [[| a s] |]; cbn [or_undefined]; try discriminate.
  destruct (JsString.trim (String a s)) as [| b s']; [discriminate | reflexivity].
Qed.

(** The last filter of the pipeline of [combinedText] removes nothing. *)
Lemma combine_texts (textContent : list CellText.t) :
  combine textContent
  = match List.filter hasText textContent with
    | [] => None
    | cells => Some (String.concat " | " (map trimmedText cells))
    end.
Proof.
  unfold combine. fold trimmedText.
  assert (Hid : forall l, Forall (fun c => hasText c = true) l ->
                  List.filter (fun text => negb (String.length text =? 0)%nat)
                    (map (fun cell => JsString.trim match CellText.text cell with
                                                    | Some text => text
                                                    | None => ""%string
                                                    end) l)
                  = map trimmedText l).
  { induction 1 as [| c l Hc _ IH]; [reflexivity |].
    cbn [map List.filter]. fold (trimmedText c). rewrite (hasText_trimmed c Hc), IH.
    reflexivity. }
  rewrite Hid.
  - destruct (List.filter hasText textContent); reflexivity.
  - apply List.Forall_forall. intros c Hc. now apply List.filter_In in Hc.
Qed.

Lemma filter_length_le {A : Type} (f : A -> bool) (l : list A) :
  (length (List.filter f l) <= length l)%nat.
Proof.
  induction l as [| a l IH]; cbn [List.filter length]; [lia |].
  destruct (f a); cbn [length]; lia.
Qed.

(** X11.  In what [selectCellsAndExtractText] returns, [cellsWithText] is
    the number of entries whose source is the tooltip, at most the number
    of entries; [totalCells] is the product of the extents of the region,
    which is the number of entries whenever the region is not empty on
    either axis; [combinedText] is the texts of the entries that have one
    with something else than white space, each trimmed, in the order of
    the entries and joined by [" | "], and is left out when there is no
    such entry: it is only there when [cellsWithText] is positive. *)
Theorem select_counts (grid : Grid) (options : SelectOptions.t) (t : traced W) :
  exists r seg w',
    selectCellsAndExtractText deps grid options t = (r, mkTraced w' (trace t ++ seg)) /\
    (forall sel, r = Ok sel ->
       let region := Selection.region sel in
       Selection.cellsWithText sel
       = Z.of_nat (length (List.filter fromTooltip (Selection.textContent sel))) /\
       Selection.cellsWithText sel <= Z.of_nat (length (Selection.textContent sel)) /\
       Selection.totalCells sel = GridScanner.regionTotalCells region /\
       (GridScanner.startCol region <= GridScanner.endCol region ->
        GridScanner.startRow region <= GridScanner.endRow region ->
        Selection.totalCells sel = Z.of_nat (length (Selection.textContent sel))) /\
       Selection.combinedText sel
       = match List.filter hasText (Selection.textContent sel) with
         | [] => None
         | cells => Some (String.concat " | " (map trimmedText cells))
         end /\
       (Selection.combinedText sel <> None -> 0 < Selection.cellsWithText sel) /\
       (Selection.cellsWithText sel = 0 ->
        Forall (fun cell => CellText.text cell = None) (Selection.textContent sel))).
Proof.
  destruct (select_run deps grid options t)
    as (r & seg & w' & Hrun & [(visits & away & -> & Hcells & -> & Hall & Haway)
                              | (e & pre & rest & -> & -> & Hrest & Hcap)]).
  2:{ exists (Throw e), (pre ++ [(WaitForTimeout 50, false)]), w'. split; [exact Hrun |].
      discriminate. }
  eexists (Ok _), (concat (map snd visits) ++ away), w'. split; [exact Hrun |].
  intros sel Hsel. injection Hsel as <-. cbv zeta.
  cbn [Selection.textContent Selection.region Selection.cellsWithText Selection.totalCells
       Selection.combinedText].
  assert (Hentries : Forall (fun cell =>
                               (fromTooltip cell = false -> CellText.text cell = None) /\
                               (hasText cell = true -> fromTooltip cell = true))
                            (map fst visits)).
  { apply List.Forall_forall. intros cell Hin. apply in_map_iff in Hin as ([c vseg] & <- & Hin).
    rewrite List.Forall_forall in Hall. destruct (Hall _ Hin) as (_ & Htrue & Hnone & _).
    cbn [fst snd] in *. unfold fromTooltip.
    destruct (CellText.source c); split; try discriminate; try reflexivity.
    - intros _. now apply Hnone.
    - intros H. apply hasText_truthy in H. destruct (Hnone eq_refl) as [Ht _].
      rewrite Ht in H. discriminate H. }
  split; [reflexivity |]. split; [| split; [reflexivity | split; [| split; [| split]]]].
  - apply inj_le. apply filter_length_le.
  - intros Hc Hr. unfold GridScanner.regionTotalCells.
    assert (Hlen : length (map fst visits)
                   = length (GridScanner.regionCells (regionOf grid options))).
    { rewrite <- Hcells. now rewrite !List.length_map. }
    rewrite Hlen, regionCells_length, Nat2Z.inj_mul, !Z2Nat.id by lia. reflexivity.
  - apply combine_texts.
  - rewrite combine_texts. intros Hsome.
    destruct (List.filter hasText (map fst visits)) as [| cell rest] eqn:Hf; [contradiction |].
    assert (Hin : In cell (List.filter hasText (map fst visits))) by (rewrite Hf; now left).
    apply List.filter_In in Hin as [Hin Hhas].
    rewrite List.Forall_forall in Hentries. destruct (Hentries cell Hin) as [_ Hfrom].
    assert (Hin2 : In cell (List.filter fromTooltip (map fst visits))).
    { apply List.filter_In. split; [exact Hin | now apply Hfrom]. }
    destruct (List.filter fromTooltip (map fst visits)); [destruct Hin2 | cbn [length]; lia].
  - intros Hzero. apply List.Forall_forall. intros cell Hin.
    rewrite List.Forall_forall in Hentries. destruct (Hentries cell Hin) as [Hnone _].
    apply Hnone. destruct (fromTooltip cell) eqn:Hfrom; [| reflexivity].
    assert (Hin2 : In cell (List.filter fromTooltip (map fst visits))).
    { apply List.filter_In. now split. }
    destruct (List.filter fromTooltip (map fst visits)); [destruct Hin2 | cbn [length] in Hzero; lia].
Qed.

End SelectionProperties.
(** * Further properties: single cells, rows and columns *)

Section Lines.

Import Page TextExtraction.

Context {W : Type} (deps : Deps W).

Lemma flat_map_nil_inner {A B : Type} (l : list A) : flat_map (fun _ : A => @nil B) l = [].
Proof. induction l as [| a l IH]; [reflexivity | exact IH]. Qed.

(** One index along an axis of [n] cells: itself, or nothing when it is
    not an index of the grid. *)
Lemma axis_single (n i : Z) :
  range (Z.max 0 (Z.min i i)) (Z.to_nat (Z.min (n - 1) (Z.max i i) - Z.max 0 (Z.min i i) + 1))
  = if (0 <=? i) && (i <? n) then [i] else [].
Proof.
  destruct (Z.leb_spec 0 i), (Z.ltb_spec i n); cbn [andb].
  - replace (Z.to_nat (Z.min (n - 1) (Z.max i i) - Z.max 0 (Z.min i i) + 1)) with 1%nat by lia.
    replace (Z.max 0 (Z.min i i)) with i by lia. reflexivity.
  - now replace (Z.to_nat (Z.min (n - 1) (Z.max i i) - Z.max 0 (Z.min i i) + 1))
      with 0%nat by lia.
  - now replace (Z.to_nat (Z.min (n - 1) (Z.max i i) - Z.max 0 (Z.min i i) + 1))
      with 0%nat by lia.
  - now replace (Z.to_nat (Z.min (n - 1) (Z.max i i) - Z.max 0 (Z.min i i) + 1))
      with 0%nat by lia.
Qed.

(** From the first to the last index of an axis of [n] cells: all of
    them. *)
Lemma axis_full (n : Z) :
  range (Z.max 0 (Z.min 0 (n - 1)))
        (Z.to_nat (Z.min (n - 1) (Z.max 0 (n - 1)) - Z.max 0 (Z.min 0 (n - 1)) + 1))
  = range 0 (Z.to_nat n).
Proof.
  replace (Z.max 0 (Z.min 0 (n - 1))) with 0 by lia.
  now replace (Z.to_nat (Z.min (n - 1) (Z.max 0 (n - 1)) - 0 + 1)) with (Z.to_nat n) by lia.
Qed.

Lemma region_cell (grid : Grid) (col row : Z) :
  GridScanner.regionCells (GridScanner.normalizeRegion grid col row col row)
  = if colInGrid grid col && rowInGrid grid row then [(col, row)] else [].
Proof.
  unfold GridScanner.regionCells, GridScanner.normalizeRegion, colInGrid, rowInGrid.
  cbn [GridScanner.startCol GridScanner.endCol GridScanner.startRow GridScanner.endRow].
  rewrite !axis_single.
  destruct ((0 <=? col) && (col <? cols grid)), ((0 <=? row) && (row <? rows grid)); reflexivity.
Qed.

Lemma region_row (grid : Grid) (row : Z) :
  GridScanner.regionCells (GridScanner.normalizeRegion grid 0 row (cols grid - 1) row)
  = rowCells grid row.
Proof.
  unfold GridScanner.regionCells, GridScanner.normalizeRegion, rowCells, rowInGrid.
  cbn [GridScanner.startCol GridScanner.endCol GridScanner.startRow GridScanner.endRow].
  rewrite axis_single, axis_full.
  destruct ((0 <=? row) && (row <? rows grid)); cbn [flat_map]; [apply app_nil_r | reflexivity].
Qed.

Lemma region_column (grid : Grid) (col : Z) :
  GridScanner.regionCells (GridScanner.normalizeRegion grid col 0 col (rows grid - 1))
  = columnCells grid col.
Proof.
  unfold GridScanner.regionCells, GridScanner.normalizeRegion, columnCells, colInGrid.
  cbn [GridScanner.startCol GridScanner.endCol GridScanner.startRow GridScanner.endRow].
  rewrite axis_single, axis_full.
  destruct ((0 <=? col) && (col <? cols grid)).
  - induction (range 0 (Z.to_nat (rows grid))) as [| row l IH]; [reflexivity |].
    cbn [flat_map map app]. now f_equal.
  - apply flat_map_nil_inner.
Qed.

(** A selection over a region without cells resolves. *)
Lemma select_nothing (grid : Grid) (options : SelectOptions.t) (t : traced W) :
  GridScanner.regionCells (regionOf grid options) = [] ->
  exists sel seg w',
    selectCellsAndExtractText deps grid options t = (Ok sel, mkTraced w' (trace t ++ seg)) /\
    Selection.textContent sel = [] /\ Selection.combinedText sel = None /\
    Selection.cellsWithText sel = 0 /\ captures seg = [].
Proof.
  intros Hempty.
  destruct (select_run deps grid options t)
    as (r & seg & w' & Hrun & [(visits & away & -> & Hcells & -> & Hall & Haway)
                              | (e & pre & rest & -> & -> & Hrest & Hcap)]).
  - rewrite Hempty in Hcells. apply map_eq_nil in Hcells. subst visits.
    eexists _, _, w'. split; [exact Hrun |]. cbn. repeat split.
    now apply captures_away.
  - rewrite Hempty in Hrest. symmetry in Hrest. apply app_eq_nil in Hrest as [Hpre _].
    contradiction.
Qed.

(** X12.  [extractCellText] on a cell that is not one of the grid resolves
    to [null] and captures nothing.  On a cell of the grid it captures
    that cell and no other, once, with the delay of the options (300 ms
    by default) and their selectors; it rejects only when the pause after
    the capture rejects, and what it resolves to is never the empty
    string: it is [null] unless the capture resolved with a text. *)
Theorem extractCellText_cell (grid : Grid) (col row : Z) (options : option ExtractOptions.t)
    (t : traced W) :
  exists r seg w',
    extractCellText deps grid col row options t = (r, mkTraced w' (trace t ++ seg)) /\
    (colInGrid grid col && rowInGrid grid row = false -> r = Ok None /\ captures seg = []) /\
    (colInGrid grid col && rowInGrid grid row = true -> captures seg = [(col, row)]) /\
    (forall text, r = Ok (Some text) ->
       text <> ""%string /\
       In (CaptureTooltip col row (extractDelayOf options) (extractSelectorsOf options), true)
          seg) /\
    (forall e, r = Throw e -> exists pre, seg = pre ++ [(WaitForTimeout 50, false)]).
Proof.
  unfold extractCellText. cbv zeta.
  set (opts := {| SelectOptions.startCol := col; SelectOptions.startRow := row;
                  SelectOptions.endCol := col; SelectOptions.endRow := row;
                  SelectOptions.hoverDelay := _;
                  SelectOptions.tooltipSelectors := _;
                  SelectOptions.includeCoordinates := None |}).
  assert (Hregion : GridScanner.regionCells (regionOf grid opts)
                    = if colInGrid grid col && rowInGrid grid row then [(col, row)] else [])
    by apply region_cell.
  unfold seq.
  destruct (select_run deps grid opts t)
    as (r & seg & w' & -> & [(visits & away & -> & Hcells & -> & Hall & Haway)
                            | (e & pre & rest & -> & -> & Hrest & Hcap)]).
  - unfold result. cbn [Selection.textContent].
    rewrite Hregion in Hcells.
    assert (Hcap : captures (concat (map snd visits) ++ away)
                   = if colInGrid grid col && rowInGrid grid row then [(col, row)] else []).
    { rewrite captures_app, (captures_visits opts visits Hall), (captures_away away Haway),
        app_nil_r. exact Hcells. }
    eexists (Ok _), (concat (map snd visits) ++ away), w'. split; [reflexivity |].
    split; [| split; [| split; [| discriminate]]].
    + intros Hout. rewrite Hout in *. apply map_eq_nil in Hcells. subst visits.
      now split.
    + intros Hin. now rewrite Hin in Hcap.
    + intros text Htext. injection Htext as Htext.
      destruct visits as [| [cell vseg] visits]; [discriminate Htext |].
      cbn [map fst] in Htext. split.
      * intros ->. now apply or_undefined_nonempty in Htext.
      * apply List.Forall_cons_iff in Hall as [((b & Hseg & Hb) & _ & Hnone & _) _].
        cbn [fst snd] in *.
        assert (Hcell : CellText.col cell = col /\ CellText.row cell = row).
        { destruct (colInGrid grid col && rowInGrid grid row); [| discriminate Hcells].
          cbn [map fst] in Hcells. injection Hcells as Hc Hr _. now split. }
        destruct Hcell as [Hc Hr]. rewrite Hc, Hr in Hseg.
        destruct b.
        -- apply in_or_app. left. cbn [map concat]. apply in_or_app. left.
           rewrite Hseg. now left.
        -- destruct (Hnone (Hb eq_refl)) as [Hno _]. rewrite Hno in Htext. discriminate Htext.
  - exists (Throw e), (pre ++ [(WaitForTimeout 50, false)]), w'. split; [reflexivity |].
    rewrite Hregion in Hrest.
    split; [| split; [| split; [discriminate |]]].
    + intros Hout. rewrite Hout in Hrest. symmetry in Hrest.
      apply app_eq_nil in Hrest as [Hpre _]. contradiction.
    + intros Hin. rewrite Hin in Hrest. rewrite captures_app. cbn [captures flat_map fst].
      rewrite app_nil_r.
      destruct (captures pre) as [| c1 [| c2 l]]; [contradiction | | discriminate Hrest].
      now injection Hrest as ->.
    + intros e' _. now exists pre.
Qed.

(** X13.  [extractRowText] and [extractColumnText] return the row,
    respectively the column, they were asked for.  When they resolve,
    they have captured the cells of that row from the first column to the
    last, respectively of that column from the first row to the last, and
    [cellTexts] holds one entry for each of these cells in that order,
    carrying the column, respectively the row, of its cell.  For a row or
    a column that is not one of the grid they resolve with no entries and
    no combined text, and capture nothing. *)
Theorem extractLine_cells (grid : Grid) (i : Z) (options : option ExtractOptions.t)
    (t : traced W) :
  (exists r seg w',
     extractRowText deps grid i options t = (r, mkTraced w' (trace t ++ seg)) /\
     (forall line, r = Ok line ->
        LineText.index line = i /\
        map (fun c => (fst (fst c), i)) (LineText.cellTexts line) = rowCells grid i /\
        captures seg = rowCells grid i) /\
     (rowInGrid grid i = false ->
      exists line, r = Ok line /\ LineText.cellTexts line = [] /\
                   LineText.combinedText line = None /\ captures seg = [])) /\
  (exists r seg w',
     extractColumnText deps grid i options t = (r, mkTraced w' (trace t ++ seg)) /\
     (forall line, r = Ok line ->
        LineText.index line = i /\
        map (fun c => (i, fst (fst c))) (LineText.cellTexts line) = columnCells grid i /\
        captures seg = columnCells grid i) /\
     (colInGrid grid i = false ->
      exists line, r = Ok line /\ LineText.cellTexts line = [] /\
                   LineText.combinedText line = None /\ captures seg = [])).
Proof.
  split.
  - unfold extractRowText. cbv zeta.
    set (opts := {| SelectOptions.startCol := 0; SelectOptions.startRow := i;
                    SelectOptions.endCol := cols grid - 1; SelectOptions.endRow := i;
                    SelectOptions.hoverDelay := _;
                    SelectOptions.tooltipSelectors := _;
                    SelectOptions.includeCoordinates := _ |}).
    assert (Hregion : GridScanner.regionCells (regionOf grid opts) = rowCells grid i)
      by apply region_row.
    unfold seq.
    destruct (select_run deps grid opts t)
      as (r & seg & w' & -> & [(visits & away & -> & Hcells & -> & Hall & Haway)
                              | (e & pre & rest & -> & -> & Hrest & Hcap)]).
    + unfold result. cbn [Selection.textContent Selection.combinedText].
      rewrite Hregion in Hcells.
      eexists (Ok _), (concat (map snd visits) ++ away), w'. split; [reflexivity |]. split.
      * intros line Hline. injection Hline as <-. cbn [LineText.index LineText.cellTexts].
        split; [reflexivity |].
        assert (Hcap : captures (concat (map snd visits) ++ away) = rowCells grid i).
        { rewrite captures_app, (captures_visits opts visits Hall), (captures_away away Haway),
            app_nil_r. exact Hcells. }
        split; [| exact Hcap]. rewrite !List.map_map. cbn [fst]. rewrite <- Hcells.
        apply map_ext_in. intros [cell vseg] Hin. cbn [fst]. unfold cellOf. f_equal.
        assert (Hcell : In (cellOf cell) (rowCells grid i)).
        { rewrite <- Hcells. apply in_map_iff. now exists (cell, vseg). }
        unfold rowCells in Hcell. destruct (rowInGrid grid i); [| destruct Hcell].
        apply in_map_iff in Hcell as (c & Hc & _). unfold cellOf in Hc. now injection Hc.
      * intros Hout. unfold rowCells in Hcells. rewrite Hout in Hcells.
        apply map_eq_nil in Hcells. subst visits. eexists. split; [reflexivity |].
        cbn. repeat split. now apply captures_away.
    + exists (Throw e), (pre ++ [(WaitForTimeout 50, false)]), w'. split; [reflexivity |]. split.
      * discriminate.
      * intros Hout. rewrite Hregion in Hrest. unfold rowCells in Hrest. rewrite Hout in Hrest.
        symmetry in Hrest. apply app_eq_nil in Hrest as [Hpre _]. contradiction.
  - unfold extractColumnText. cbv zeta.
    set (opts := {| SelectOptions.startCol := i; SelectOptions.startRow := 0;
                    SelectOptions.endCol := i; SelectOptions.endRow := rows grid - 1;
                    SelectOptions.hoverDelay := _;
                    SelectOptions.tooltipSelectors := _;
                    SelectOptions.includeCoordinates := _ |}).
    assert (Hregion : GridScanner.regionCells (regionOf grid opts) = columnCells grid i)
      by apply region_column.
    unfold seq.
    destruct (select_run deps grid opts t)
      as (r & seg & w' & -> & [(visits & away & -> & Hcells & -> & Hall & Haway)
                              | (e & pre & rest & -> & -> & Hrest & Hcap)]).
    + unfold result. cbn [Selection.textContent Selection.combinedText].
      rewrite Hregion in Hcells.
      eexists (Ok _), (concat (map snd visits) ++ away), w'. split; [reflexivity |]. split.
      * intros line Hline. injection Hline as <-. cbn [LineText.index LineText.cellTexts].
        split; [reflexivity |].
        assert (Hcap : captures (concat (map snd visits) ++ away) = columnCells grid i).
        { rewrite captures_app, (captures_visits opts visits Hall), (captures_away away Haway),
            app_nil_r. exact Hcells. }
        split; [| exact Hcap]. rewrite !List.map_map. cbn [fst]. rewrite <- Hcells.
        apply map_ext_in. intros [cell vseg] Hin. cbn [fst]. unfold cellOf. f_equal.
        assert (Hcell : In (cellOf cell) (columnCells grid i)).
        { rewrite <- Hcells. apply in_map_iff. now exists (cell, vseg). }
        unfold columnCells in Hcell. destruct (colInGrid grid i); [| destruct Hcell].
        apply in_map_iff in Hcell as (c & Hc & _). unfold cellOf in Hc. now injection Hc.
      * intros Hout. unfold columnCells in Hcells. rewrite Hout in Hcells.
        apply map_eq_nil in Hcells. subst visits. eexists. split; [reflexivity |].
        cbn. repeat split. now apply captures_away.
    + exists (Throw e), (pre ++ [(WaitForTimeout 50, false)]), w'. split; [reflexivity |]. split.
      * discriminate.
      * intros Hout. rewrite Hregion in Hrest. unfold columnCells in Hrest.
        rewrite Hout in Hrest.
        symmetry in Hrest. apply app_eq_nil in Hrest as [Hpre _]. contradiction.
Qed.

End Lines.
(** * Further properties: the grid of a CanvasGrid *)

Section CanvasGridProperties.

Import Page CanvasGrid.

Context {W : Type} (deps : Deps W).

Local Open Scope Q_scope.

Lemma autoGrid_cases (rect : BoundingBox.t) :
  (maxDim rect < 400 /\ autoGrid rect = mkGrid 6 4) \/
  (400 <= maxDim rect /\ maxDim rect < 900 /\ autoGrid rect = mkGrid 10 8) \/
  (900 <= maxDim rect /\ autoGrid rect = mkGrid 14 10).
Proof.
  unfold autoGrid. fold (maxDim rect).
  destruct (Qle_bool 400 (maxDim rect)) eqn:H4; cbn [negb].
  - apply Qle_bool_iff in H4. destruct (Qle_bool 900 (maxDim rect)) eqn:H9; cbn [negb].
    + apply Qle_bool_iff in H9. right. right. now split.
    + right. left. split; [exact H4 |]. split; [| reflexivity].
      apply Qnot_le_lt. intros H. apply Qle_bool_iff in H. congruence.
  - left. split; [| reflexivity].
    apply Qnot_le_lt. intros H. apply Qle_bool_iff in H. congruence.
Qed.

(** The seven ways [autoGridIfNeeded] ends. *)
Lemma autoGridIfNeeded_run (this : t) (t0 : traced W) :
  exists r seg w',
    autoGridIfNeeded deps this t0 = (r, mkTraced w' (trace t0 ++ seg)) /\
    ((_grid this <> TheDefault /\ r = Ok this /\ seg = [] /\ w' = page t0) \/
     (_grid this = TheDefault /\ _selector this = None /\
      r = Throw "call .locator(selector) first" /\ seg = [] /\ w' = page t0) \/
     (exists sel, _grid this = TheDefault /\ _selector this = Some sel /\
        ((exists e, r = Throw e /\ seg = [(CountNth sel (_nth this), false)]) \/
         (r = Throw (noMatch sel (_nth this)) /\ seg = [(CountNth sel (_nth this), true)]) \/
         (exists e, r = Throw e /\
                    seg = [(CountNth sel (_nth this), true); (CanvasBoundingBox, false)]) \/
         (r = Ok this /\
          seg = [(CountNth sel (_nth this), true); (CanvasBoundingBox, true)]) \/
         (exists rect,
            r = Ok {| _selector := _selector this; _nth := _nth this;
                      _grid := Own (autoGrid rect) |} /\
            seg = [(CountNth sel (_nth this), true); (CanvasBoundingBox, true)])))).
Proof.
  unfold autoGridIfNeeded. destruct (_grid this) as [| g] eqn:Hg.
  2:{ exists (Ok this), [], (page t0). unfold result. rewrite app_nil_r.
      split; [now destruct t0 |]. left. now repeat split. }
  unfold seq, canvas. destruct (_selector this) as [sel |] eqn:Hsel.
  2:{ exists (Throw "call .locator(selector) first"), [], (page t0). unfold raise.
      rewrite app_nil_r. split; [now destruct t0 |]. right. left. now repeat split. }
  unfold seq, perform, raise, result.
  destruct (count deps sel (_nth this) (page t0)) as [[n | e] w1]; cbn [resolved page trace].
  2:{ exists (Throw e), [(CountNth sel (_nth this), false)], w1. split; [reflexivity |].
      right. right. exists sel. repeat split. left. now exists e. }
  destruct (n =? 0)%Z.
  { exists (Throw (noMatch sel (_nth this))), [(CountNth sel (_nth this), true)], w1.
    split; [reflexivity |]. right. right. exists sel. repeat split. right. left. now split. }
  cbn [fst snd page trace].
  destruct (boundingBox deps sel (_nth this) w1) as [[[rect |] | e] w2]; cbn [resolved].
  - eexists (Ok _), [(CountNth sel (_nth this), true); (CanvasBoundingBox, true)], w2.
    rewrite <- app_assoc. split; [reflexivity |]. right. right. exists sel. repeat split.
    right. right. right. right. now exists rect.
  - exists (Ok this), [(CountNth sel (_nth this), true); (CanvasBoundingBox, true)], w2.
    rewrite <- app_assoc. split; [reflexivity |]. right. right. exists sel. repeat split.
    right. right. right. left. now split.
  - exists (Throw e), [(CountNth sel (_nth this), true); (CanvasBoundingBox, false)], w2.
    rewrite <- app_assoc. split; [reflexivity |]. right. right. exists sel. repeat split.
    right. right. left. now exists e.
Qed.

(** An [autoGridIfNeeded] that resolves has changed nothing or has chosen
    the automatic grid for the box of the canvas. *)
Lemma autoGridIfNeeded_result (this this' : t) (t0 t1 : traced W) :
  autoGridIfNeeded deps this t0 = (Ok this', t1) ->
  this' = this \/
  (_grid this = TheDefault /\
   exists rect, this' = {| _selector := _selector this; _nth := _nth this;
                           _grid := Own (autoGrid rect) |}).
Proof.
  intros Hrun.
  destruct (autoGridIfNeeded_run this t0) as (r & seg & w' & Hrun' & Hcases).
  rewrite Hrun in Hrun'. injection Hrun' as <- _.
  destruct Hcases as [(_ & Hr & _) | [(_ & _ & Hr & _) | (sel & Hg & _ & Hcases)]].
  - injection Hr as ->. now left.
  - discriminate Hr.
  - destruct Hcases as [(e & Hr & _) | [(Hr & _) | [(e & Hr & _) | [(Hr & _) | (rect & Hr & _)]]]];
      try discriminate Hr.
    + injection Hr as ->. now left.
    + injection Hr as ->. right. split; [exact Hg |]. now exists rect.
Qed.

(** X14.  A grid given with [gridSize] is never replaced by the automatic
    one, also when it is the grid 8 x 6 of the default: [autoGridIfNeeded]
    then resolves without asking anything of the page.  [gridSize] with a
    0 among its arguments changes nothing.  The automatic grid is chosen
    at most once: after an [autoGridIfNeeded] that has chosen one, a
    second call changes nothing and asks nothing of the page, whatever
    the size of the canvas has become. *)
Theorem grid_chosen_once (this : t) (t0 : traced W) :
  (forall c r, c <> 0%Z -> r <> 0%Z ->
     grid (gridSize c r this) = mkGrid c r /\
     autoGridIfNeeded deps (gridSize c r this) t0 = (Ok (gridSize c r this), t0)) /\
  (forall c r, c = 0%Z \/ r = 0%Z -> gridSize c r this = this) /\
  (forall this' t1,
     autoGridIfNeeded deps this t0 = (Ok this', t1) ->
     (this' = this \/
      (_grid this = TheDefault /\ exists rect, _grid this' = Own (autoGrid rect))) /\
     (_grid this' <> TheDefault ->
      forall t2, autoGridIfNeeded deps this' t2 = (Ok this', t2))).
Proof.
  split; [| split].
  - intros c r Hc Hr. unfold gridSize.
    destruct (Z.eqb_spec c 0) as [H | _]; [contradiction |].
    destruct (Z.eqb_spec r 0) as [H | _]; [contradiction |]. cbn [negb andb].
    split; reflexivity.
  - intros c r [-> | ->]; unfold gridSize; [reflexivity |].
    now rewrite andb_false_r.
  - intros this' t1 Hrun. split.
    + destruct (autoGridIfNeeded_result this this' t0 t1 Hrun) as [-> | (Hg & rect & ->)];
        [now left |].
      right. split; [exact Hg |]. now exists rect.
    + intros Hown t2. unfold autoGridIfNeeded.
      destruct (_grid this'); [contradiction | reflexivity].
Qed.

Lemma divisible_auto (rect : BoundingBox.t) :
  cols (autoGrid rect) <> 0%Z /\ rows (autoGrid rect) <> 0%Z.
Proof.
  destruct (autoGrid_cases rect) as [(_ & ->) | [(_ & _ & ->) | (_ & ->)]]; cbn; lia.
Qed.

(** X15.  In every state a CanvasGrid goes through, from the constructor
    on and through [locator], [nth], [gridSize] and [autoGridIfNeeded],
    both extents of the grid are different from 0; the grid is the one of
    the default, 8 x 6, until one is given or chosen. *)
Theorem grid_never_zero (this : t) :
  built deps this ->
  divisible this /\ (_grid this = TheDefault -> grid this = mkGrid 8 6).
Proof.
  intros Hbuilt. split; [| intros H; unfold grid; now rewrite H].
  induction Hbuilt as [| sel this _ IH | i this _ IH | c r this _ IH | this this' t0 t1 _ IH Hrun].
  - unfold divisible. cbn. lia.
  - exact IH.
  - exact IH.
  - unfold gridSize.
    destruct (Z.eqb_spec c 0) as [H | Hc]; [exact IH |].
    destruct (Z.eqb_spec r 0) as [H | Hr]; [exact IH |]. cbn [negb andb].
    unfold divisible, grid. cbn. now split.
  - destruct (autoGridIfNeeded_result this this' t0 t1 Hrun) as [-> | (_ & rect & ->)];
      [exact IH |].
    unfold divisible, grid. cbn [_grid]. apply divisible_auto.
Qed.

(** The buckets of the automatic grid. *)
Lemma autoGrid_buckets (rect : BoundingBox.t) :
  (maxDim rect < 400 -> autoGrid rect = mkGrid 6 4) /\
  (400 <= maxDim rect -> maxDim rect < 900 -> autoGrid rect = mkGrid 10 8) /\
  (900 <= maxDim rect -> autoGrid rect = mkGrid 14 10) /\
  (forall rect', maxDim rect <= maxDim rect' ->
     (cols (autoGrid rect) <= cols (autoGrid rect'))%Z /\
     (rows (autoGrid rect) <= rows (autoGrid rect'))%Z).
Proof.
  split; [| split; [| split]].
  - intros H. destruct (autoGrid_cases rect) as [(_ & E) | [(H' & _) | (H' & _)]];
      [exact E | lra | lra].
  - intros H1 H2. destruct (autoGrid_cases rect) as [(H' & _) | [(_ & _ & E) | (H' & _)]];
      [lra | exact E | lra].
  - intros H. destruct (autoGrid_cases rect) as [(H' & _) | [(_ & H' & _) | (_ & E)]];
      [lra | lra | exact E].
  - intros rect' Hle.
    destruct (autoGrid_cases rect) as [(H1 & ->) | [(H1 & H2 & ->) | (H1 & ->)]],
             (autoGrid_cases rect') as [(H3 & ->) | [(H3 & H4 & ->) | (H3 & ->)]];
      cbn [cols rows]; try lia; lra.
Qed.

(** X16.  [autoGridIfNeeded] asks nothing of the page when a grid was
    given, and resolves to the CanvasGrid as it is.  With the grid of the
    default it rejects with [call .locator(selector) first] when no
    locator was set.  With a locator it asks the page for the number of
    elements at the index: when that rejects it rejects with the same
    error; when the page answers 0 it rejects with [no elements match
    ...], naming the selector and the index; otherwise it asks the page
    for the box of the canvas, in the state the count has left.  When
    that rejects it rejects with the same error; when the page answers
    no box it resolves and leaves the grid of the default; when the page
    answers a box it resolves to the CanvasGrid with the automatic grid
    of that very box: 6 x 4 when the larger side of the box is below 400
    pixels, 10 x 8 below 900 pixels and 14 x 10 from there on, so that a
    box with a larger side never gets a coarser grid. *)
Theorem autoGrid_ends (this : t) (t0 : traced W) :
  exists r seg w',
    autoGridIfNeeded deps this t0 = (r, mkTraced w' (trace t0 ++ seg)) /\
    (_grid this <> TheDefault -> r = Ok this /\ seg = [] /\ w' = page t0) /\
    (_grid this = TheDefault -> _selector this = None ->
     r = Throw "call .locator(selector) first" /\ seg = [] /\ w' = page t0) /\
    (forall sel, _grid this = TheDefault -> _selector this = Some sel ->
       (forall e w1, count deps sel (_nth this) (page t0) = (Throw e, w1) ->
          r = Throw e /\ seg = [(CountNth sel (_nth this), false)]) /\
       (forall w1, count deps sel (_nth this) (page t0) = (Ok 0%Z, w1) ->
          r = Throw (noMatch sel (_nth this)) /\ seg = [(CountNth sel (_nth this), true)]) /\
       (forall n w1, count deps sel (_nth this) (page t0) = (Ok n, w1) -> n <> 0%Z ->
          (forall e w2, boundingBox deps sel (_nth this) w1 = (Throw e, w2) ->
             r = Throw e /\
             seg = [(CountNth sel (_nth this), true); (CanvasBoundingBox, false)]) /\
          (forall w2, boundingBox deps sel (_nth this) w1 = (Ok None, w2) ->
             r = Ok this /\
             seg = [(CountNth sel (_nth this), true); (CanvasBoundingBox, true)]) /\
          (forall rect w2, boundingBox deps sel (_nth this) w1 = (Ok (Some rect), w2) ->
             r = Ok {| _selector := _selector this; _nth := _nth this;
                       _grid := Own (autoGrid rect) |} /\
             seg = [(CountNth sel (_nth this), true); (CanvasBoundingBox, true)] /\
             isAutoGrid (autoGrid rect)))) /\
    (forall rect,
       (maxDim rect < 400 -> autoGrid rect = mkGrid 6 4) /\
       (400 <= maxDim rect -> maxDim rect < 900 -> autoGrid rect = mkGrid 10 8) /\
       (900 <= maxDim rect -> autoGrid rect = mkGrid 14 10) /\
       (forall rect', maxDim rect <= maxDim rect' ->
          (cols (autoGrid rect) <= cols (autoGrid rect'))%Z /\
          (rows (autoGrid rect) <= rows (autoGrid rect'))%Z)).
Proof.
  cut (exists r seg w',
    autoGridIfNeeded deps this t0 = (r, mkTraced w' (trace t0 ++ seg)) /\
    (_grid this <> TheDefault -> r = Ok this /\ seg = [] /\ w' = page t0) /\
    (_grid this = TheDefault -> _selector this = None ->
     r = Throw "call .locator(selector) first" /\ seg = [] /\ w' = page t0) /\
    (forall sel, _grid this = TheDefault -> _selector this = Some sel ->
       (forall e w1, count deps sel (_nth this) (page t0) = (Throw e, w1) ->
          r = Throw e /\ seg = [(CountNth sel (_nth this), false)]) /\
       (forall w1, count deps sel (_nth this) (page t0) = (Ok 0%Z, w1) ->
          r = Throw (noMatch sel (_nth this)) /\ seg = [(CountNth sel (_nth this), true)]) /\
       (forall n w1, count deps sel (_nth this) (page t0) = (Ok n, w1) -> n <> 0%Z ->
          (forall e w2, boundingBox deps sel (_nth this) w1 = (Throw e, w2) ->
             r = Throw e /\
             seg = [(CountNth sel (_nth this), true); (CanvasBoundingBox, false)]) /\
          (forall w2, boundingBox deps sel (_nth this) w1 = (Ok None, w2) ->
             r = Ok this /\
             seg = [(CountNth sel (_nth this), true); (CanvasBoundingBox, true)]) /\
          (forall rect w2, boundingBox deps sel (_nth this) w1 = (Ok (Some rect), w2) ->
             r = Ok {| _selector := _selector this; _nth := _nth this;
                       _grid := Own (autoGrid rect) |} /\
             seg = [(CountNth sel (_nth this), true); (CanvasBoundingBox, true)] /\
             isAutoGrid (autoGrid rect))))).
  { intros (r & seg & w' & Hrun & Hown & Hnone & Hsel). exists r, seg, w'.
    split; [exact Hrun |]. split; [exact Hown |]. split; [exact Hnone |].
    split; [exact Hsel |]. apply autoGrid_buckets. }
  unfold autoGridIfNeeded. destruct (_grid this) as [| g] eqn:Hg.
  2:{ exists (Ok this), [], (page t0). unfold result. rewrite app_nil_r.
      split; [now destruct t0 |]. split; [now intros _ |].
      split; intros; discriminate. }
  unfold seq, canvas. destruct (_selector this) as [sel |] eqn:Hsel.
  2:{ exists (Throw "call .locator(selector) first"), [], (page t0). unfold raise.
      rewrite app_nil_r. split; [now destruct t0 |]. split; [intros H; contradiction |].
      split; [now intros _ _ |]. intros; discriminate. }
  unfold seq, perform, raise, result.
  destruct (count deps sel (_nth this) (page t0)) as [[n | e] w1] eqn:Ec;
    cbn [resolved page trace].
  2:{ exists (Throw e), [(CountNth sel (_nth this), false)], w1. split; [reflexivity |].
      split; [intros H; contradiction |]. split; [intros; discriminate |].
      intros sel' _ [= <-]. rewrite Ec.
      split; [intros e' w1' [= <- _]; now split |].
      split; [intros; discriminate | intros; discriminate]. }
  destruct (Z.eqb_spec n 0) as [-> | Hn].
  { exists (Throw (noMatch sel (_nth this))), [(CountNth sel (_nth this), true)], w1.
    split; [reflexivity |].
    split; [intros H; contradiction |]. split; [intros; discriminate |].
    intros sel' _ [= <-]. rewrite Ec. split; [intros; discriminate |].
    split; [now intros _ _ |]. intros n w1' [= <- _] H. contradiction. }
  cbn [fst snd page trace].
  destruct (boundingBox deps sel (_nth this) w1) as [[[rect |] | e] w2] eqn:Eb; cbn [resolved].
  - eexists (Ok _), [(CountNth sel (_nth this), true); (CanvasBoundingBox, true)], w2.
    rewrite <- app_assoc. split; [reflexivity |].
    split; [intros H; contradiction |]. split; [intros; discriminate |].
    intros sel' _ [= <-]. rewrite Ec. split; [intros; discriminate |].
    split; [intros w1' [= -> _]; contradiction |].
    intros n' w1' [= <- <-] _. rewrite Eb. split; [intros; discriminate |].
    split; [intros; discriminate |].
    intros rect' w2' [= <- _]. split; [reflexivity |]. split; [reflexivity |].
    unfold isAutoGrid.
    destruct (autoGrid_cases rect) as [(_ & ->) | [(_ & _ & ->) | (_ & ->)]]; auto.
  - exists (Ok this), [(CountNth sel (_nth this), true); (CanvasBoundingBox, true)], w2.
    rewrite <- app_assoc. split; [reflexivity |].
    split; [intros H; contradiction |]. split; [intros; discriminate |].
    intros sel' _ [= <-]. rewrite Ec. split; [intros; discriminate |].
    split; [intros w1' [= -> _]; contradiction |].
    intros n' w1' [= <- <-] _. rewrite Eb. split; [intros; discriminate |].
    split; [now intros _ _ | intros; discriminate].
  - exists (Throw e), [(CountNth sel (_nth this), true); (CanvasBoundingBox, false)], w2.
    rewrite <- app_assoc. split; [reflexivity |].
    split; [intros H; contradiction |]. split; [intros; discriminate |].
    intros sel' _ [= <-]. rewrite Ec. split; [intros; discriminate |].
    split; [intros w1' [= -> _]; contradiction |].
    intros n' w1' [= <- <-] _. rewrite Eb.
    split; [intros e' w2' [= <- _]; now split |].
    split; intros; discriminate.
Qed.

End CanvasGridProperties.

Section CanvasGridExamples.

Import Page CanvasGrid.

(** A page with one canvas of 500 by 300 pixels. *)
Lemma grid_never_zero_witness :
  divisible {| _selector := Some "canvas"%string; _nth := 0; _grid := Own (mkGrid 10 8) |} /\
  (_grid {| _selector := Some "canvas"%string; _nth := 0; _grid := Own (mkGrid 10 8) |}
   = TheDefault ->
   grid {| _selector := Some "canvas"%string; _nth := 0; _grid := Own (mkGrid 10 8) |}
   = mkGrid 8 6).
Proof.
  apply (@grid_never_zero unit
           {| count := fun _ _ w => (Ok 1%Z, w);
              boundingBox := fun _ _ w => (Ok (Some (BoundingBox.mk 0 0 500 300)), w) |}).
  apply (built_auto _ (locator "canvas" create) _ (mkTraced tt []) (mkTraced tt
           [(CountNth "canvas" 0, true); (CanvasBoundingBox, true)])).
  - apply built_locator, built_create.
  - reflexivity.
Defined.

End CanvasGridExamples.
(** * Further properties: colours *)

Section WithinProperties.

Local Open Scope Q_scope.

Lemma within_true_iff (a b : list Q) (t : Q) :
  ColorSampler.within a b t = true <->
  forall k v, nth_error a k = Some v ->
              exists e, nth_error b k = Some e /\ Qabs (v - e) <= t.
Proof.
  unfold ColorSampler.within, Js.every. rewrite every_from_spec. cbn [Nat.add].
  split; intros H k v Hk; specialize (H k v Hk).
  - destruct (nth_error b k) as [e |]; [| discriminate H].
    exists e. split; [reflexivity | now apply Qle_bool_iff].
  - destruct H as (e & -> & He). now apply Qle_bool_iff.
Qed.

Lemma bool_eq_iff (x y : bool) : (x = true <-> y = true) -> x = y.
Proof. destruct x, y; intuition congruence. Qed.

(** X17.  For colours of four channels [within] is symmetric in its two
    colours, keeps holding when the tolerance grows, and composes: a
    colour within [t] of a second one that is within [u] of a third is
    within [t + u] of the third. *)
Theorem within_metric (a b c : RGBA) (t u : Q) :
  is_rgba a -> is_rgba b -> is_rgba c ->
  ColorSampler.within a b t = ColorSampler.within b a t /\
  (t <= u -> ColorSampler.within a b t = true -> ColorSampler.within a b u = true) /\
  (ColorSampler.within a b t = true -> ColorSampler.within b c u = true ->
   ColorSampler.within a c (t + u) = true).
Proof.
  intros Ha Hb Hc. split; [| split].
  - apply bool_eq_iff. rewrite !within_channels by assumption.
    split; intros H i Hi; specialize (H i Hi).
    + now rewrite Qabs_Qminus.
    + now rewrite Qabs_Qminus.
  - intros Htu. rewrite !within_channels by assumption.
    intros H i Hi. apply Qle_trans with t; [now apply H | exact Htu].
  - rewrite !within_channels by assumption. intros Hab Hbc i Hi.
    assert (Hsplit : nth i a 0 - nth i c 0 == (nth i a 0 - nth i b 0) + (nth i b 0 - nth i c 0))
      by ring.
    rewrite Hsplit.
    apply Qle_trans with (Qabs (nth i a 0 - nth i b 0) + Qabs (nth i b 0 - nth i c 0)).
    + apply Qabs_triangle.
    + apply Qplus_le_compat; [now apply Hab | now apply Hbc].
Qed.

Lemma within_metric_witness :
  ColorSampler.within [255; 0; 0; 255] [250; 5; 5; 250] 10
  = ColorSampler.within [250; 5; 5; 250] [255; 0; 0; 255] 10 /\
  (10 <= 12 -> ColorSampler.within [255; 0; 0; 255] [250; 5; 5; 250] 10 = true ->
   ColorSampler.within [255; 0; 0; 255] [250; 5; 5; 250] 12 = true) /\
  (ColorSampler.within [255; 0; 0; 255] [250; 5; 5; 250] 10 = true ->
   ColorSampler.within [250; 5; 5; 250] [240; 0; 0; 255] 12 = true ->
   ColorSampler.within [255; 0; 0; 255] [240; 0; 0; 255] (10 + 12) = true).
Proof.
  apply (within_metric [255; 0; 0; 255] [250; 5; 5; 250] [240; 0; 0; 255] 10 12);
    reflexivity.
Defined.

(** X18.  [within] goes through the channels of its first colour only: it
    holds of the empty array whatever the second colour is, it fails when
    the second colour has fewer channels than the first, and channels of
    the second colour beyond those of the first are not looked at. *)
Theorem within_lengths (a b : list Q) (t : Q) :
  ColorSampler.within [] b t = true /\
  (ColorSampler.within a b t = true -> (length a <= length b)%nat) /\
  ((length b < length a)%nat -> ColorSampler.within a b t = false) /\
  (forall extra, (length a <= length b)%nat ->
     ColorSampler.within a (b ++ extra) t = ColorSampler.within a b t).
Proof.
  assert (Hlen : ColorSampler.within a b t = true -> (length a <= length b)%nat).
  { rewrite within_true_iff. intros H.
    destruct (Nat.le_gt_cases (length a) (length b)) as [Hle | Hgt]; [exact Hle |].
    destruct (nth_error a (length b)) as [v |] eqn:Hv.
    - destruct (H _ _ Hv) as (e & He & _).
      assert (Hnone : nth_error b (length b) = None) by (apply nth_error_None; lia).
      congruence.
    - apply nth_error_None in Hv. lia. }
  split; [reflexivity |]. split; [exact Hlen |]. split.
  - intros Hlt. destruct (ColorSampler.within a b t) eqn:E; [| reflexivity].
    specialize (Hlen eq_refl). lia.
  - intros extra Hle. apply bool_eq_iff. rewrite !within_true_iff.
    split; intros H k v Hk; specialize (H k v Hk); destruct H as (e & He & Hd); exists e;
      (split; [| exact Hd]).
    + assert (Hk' : (k < length a)%nat) by (apply nth_error_Some; congruence).
      rewrite nth_error_app1 in He by lia. exact He.
    + rewrite nth_error_app1; [exact He |]. apply nth_error_Some. congruence.
Qed.

End WithinProperties.
(** * Further properties: the sampler *)

Section SamplerGeometry.

Import ColorSampler.

Local Open Scope Q_scope.

Lemma half_below_clip_side (d : Q) :
  0 <= d -> d * (1 # 2) < Js.Math_max 2 (Js.Math_floor d).
Proof.
  intros Hd. destruct (Qlt_le_dec d 2) as [Hlt | Hge].
  - rewrite (Math_max_floor_lt2 d Hlt). lra.
  - rewrite (Math_max_floor_ge2 d Hge). pose proof (Qlt_floor d) as Hf.
    rewrite inject_Z_plus in Hf. change (inject_Z 1) with 1 in Hf. lra.
Qed.

Lemma cell_side_nonneg (extent : Q) (n : Z) :
  0 <= extent -> (1 <= n)%Z -> 0 <= extent / inject_Z n.
Proof.
  intros He Hn. apply Qle_shift_div_l; [now apply inject_Z_pos | now rewrite Qmult_0_l].
Qed.

(** X19.  The rectangle the capture fallback of [sampleCell] asks for
    holds the point [getCellCenter] gives for the same cell: for a box
    that is not negative and a grid of at least one column and row, the
    centre is at or after the left and top edge of the clip and before its
    right and bottom edge, also where the clip is widened to 2 pixels. *)
Theorem clip_contains_center (box : BoundingBox.t) (grid : Grid) (col row : Z) :
  0 <= BoundingBox.width box -> 0 <= BoundingBox.height box ->
  (1 <= cols grid)%Z -> (1 <= rows grid)%Z ->
  exists p,
    MouseInteractions.getCellCenter (Some box) grid col row = Ok p /\
    Clip.x (cellClip box grid col row) <= Point.x p /\
    Point.x p < clipRight (cellClip box grid col row) /\
    Clip.y (cellClip box grid col row) <= Point.y p /\
    Point.y p < clipBottom (cellClip box grid col row).
Proof.
  intros Hw Hh Hc Hr. eexists. split; [reflexivity |].
  unfold clipRight, clipBottom, cellClip.
  cbn [Point.x Point.y Clip.x Clip.y Clip.width Clip.height].
  pose proof (cell_side_nonneg _ _ Hw Hc) as Hdw.
  pose proof (cell_side_nonneg _ _ Hh Hr) as Hdh.
  pose proof (half_below_clip_side _ Hdw) as Hmw.
  pose proof (half_below_clip_side _ Hdh) as Hmh.
  set (dw := BoundingBox.width box / inject_Z (cols grid)) in *.
  set (dh := BoundingBox.height box / inject_Z (rows grid)) in *.
  set (mw := Js.Math_max 2 (Js.Math_floor dw)) in *.
  set (mh := Js.Math_max 2 (Js.Math_floor dh)) in *.
  clearbody mw mh dw dh.
  repeat split; lra.
Qed.

Lemma clip_contains_center_witness :
  exists p,
    MouseInteractions.getCellCenter (Some (BoundingBox.mk 10 10 3 3)) (mkGrid 3 3) 1 2 = Ok p /\
    Clip.x (cellClip (BoundingBox.mk 10 10 3 3) (mkGrid 3 3) 1 2) <= Point.x p /\
    Point.x p < clipRight (cellClip (BoundingBox.mk 10 10 3 3) (mkGrid 3 3) 1 2) /\
    Clip.y (cellClip (BoundingBox.mk 10 10 3 3) (mkGrid 3 3) 1 2) <= Point.y p /\
    Point.y p < clipBottom (cellClip (BoundingBox.mk 10 10 3 3) (mkGrid 3 3) 1 2).
Proof.
  apply (clip_contains_center (BoundingBox.mk 10 10 3 3) (mkGrid 3 3) 1 2);
    [unfold Qle; simpl; lia | unfold Qle; simpl; lia | simpl; lia | simpl; lia].
Defined.

End SamplerGeometry.

Section SamplerColours.

Import ColorSampler.

Context {Png : Type}.








End SamplerColours.

Section SamplerColourExamples.

Import ColorSampler.


End SamplerColourExamples.

(** * Further properties: the time [waitForTooltip] waits *)

Section WaitBudget.

Import TooltipDetector.

Context {W : Type} (deps : Deps W).

Local Open Scope Q_scope.

Lemma totalWaited_visits (share : Q) (visits : list (string * list (call * bool))) :
  Forall (fun v => waited (snd v) = [(fst v, share)]) visits ->
  totalWaited (concat (map snd visits)) == inject_Z (Z.of_nat (length visits)) * share.
Proof.
  unfold totalWaited. induction 1 as [| v visits Hv _ IH].
  - cbn. ring.
  - cbn [map concat]. rewrite waited_app, Hv. cbn [app map snd].
    unfold sumQ in *. cbn [fold_right]. rewrite IH.
    cbn [length]. rewrite Nat2Z.inj_succ. unfold Z.succ. rewrite inject_Z_plus.
    change (inject_Z 1) with 1. ring.
Qed.

Lemma waited_visits (share : Q) (visits : list (string * list (call * bool))) :
  Forall (fun v => waited (snd v) = [(fst v, share)]) visits ->
  waited (concat (map snd visits)) = map (fun sel => (sel, share)) (map fst visits).
Proof.
  induction 1 as [| v visits Hv _ IH]; [reflexivity |].
  cbn [map concat]. rewrite waited_app, Hv, IH. reflexivity.
Qed.

Lemma whole_share (n : nat) (k : Z) :
  n <> 0%nat -> inject_Z (Z.of_nat n * k) / inject_Z (Z.of_nat n) == inject_Z k.
Proof.
  intros Hn. rewrite inject_Z_mult. field. apply inject_Z_nonzero. lia.
Qed.

(** X21.  [waitForTooltip] waits once for each selector it tries, in the
    order of the selectors and each time with the share
    [timeout / numberOfSelectors]; when it throws it has waited for every
    selector.  When the timeout is a whole number of milliseconds below
    2^53 and a multiple [n * k] of the number [n] of selectors, as for
    the defaults (3000 ms over 8 selectors, 375 ms each), every wait gets
    the whole number [k], the timeouts of the waits add up to [k] times
    the number of selectors tried: at most the timeout of the call, and
    exactly the timeout when it throws.  With an empty list of selectors
    it throws at once and calls nothing. *)
Theorem waitForTooltip_budget (options : option WaitOptions) (s : state W) :
  exists r seg w',
    waitForTooltip deps options s = (r, mkState w' (journal s ++ seg)) /\
    (exists tried later,
       selectorsOf options = tried ++ later /\
       waited seg = map (fun sel => (sel, shareOf options)) tried /\
       (forall e, r = Throw e -> later = []) /\
       (forall k, (0 <= k)%Z -> selectorsOf options <> [] ->
          timeoutOf options = (Z.of_nat (length (selectorsOf options)) * k)%Z ->
          (timeoutOf options < 2 ^ 53)%Z ->
          shareOf options == inject_Z k /\
          totalWaited seg == inject_Z (Z.of_nat (length tried) * k) /\
          (Z.of_nat (length tried) * k <= timeoutOf options)%Z /\
          (forall e, r = Throw e -> (Z.of_nat (length tried) * k = timeoutOf options)%Z))) /\
    (selectorsOf options = [] -> seg = [] /\ exists e, r = Throw e) /\
    (options = None -> shareOf options == 375).
Proof.
  assert (E : waitForTooltip deps options s
              = bind (trySelectors deps (shareOf options) (selectorsOf options))
                  (fun r => match r with
                            | Some info => ret info
                            | None => throw (timeoutMessage (timeoutOf options)
                                               (selectorsOf options))
                            end) s).
  { unfold waitForTooltip, shareOf, selectorsOf, timeoutOf.
    destruct options as [o |]; reflexivity. }
  rewrite E. unfold bind.
  destruct (trySelectors_spec deps (shareOf options) (selectorsOf options) s)
    as (r & visits & w1 & rest & -> & Hsels & Hall & Hsome & Hnone & _).
  pose proof (totalWaited_visits _ _ Hall) as Htotal.
  pose proof (waited_visits _ _ Hall) as Hwaited.
  assert (Hlen : length (selectorsOf options) = (length visits + length rest)%nat).
  { rewrite Hsels, List.length_app, List.length_map. reflexivity. }
  exists (match r with
          | Some info => Ok info
          | None => Throw (timeoutMessage (timeoutOf options) (selectorsOf options))
          end), (concat (map snd visits)), w1.
  split; [destruct r; reflexivity |]. split; [| split].
  - exists (map fst visits), rest. split; [exact Hsels |]. split; [exact Hwaited |].
    assert (Hrest : forall e,
              match r with
              | Some info => Ok info
              | None => Throw (timeoutMessage (timeoutOf options) (selectorsOf options))
              end = Throw e -> rest = []).
    { intros e He. destruct r as [info |]; [discriminate He |]. now destruct (Hnone eq_refl). }
    split; [exact Hrest |].
    intros k Hk Hne Htime _. rewrite List.length_map.
    assert (Hshare : shareOf options == inject_Z k).
    { unfold shareOf. rewrite Htime. apply whole_share.
      intros H0. apply Hne. now apply List.length_zero_iff_nil. }
    split; [exact Hshare |]. split; [| split].
    + rewrite Htotal, Hshare, <- inject_Z_mult. reflexivity.
    + rewrite Htime, Hlen. apply Z.mul_le_mono_nonneg_r; lia.
    + intros e He. rewrite (Hrest e He) in Hlen. cbn [length] in Hlen.
      rewrite Htime, Hlen, Nat.add_0_r. reflexivity.
  - intros Hnil. rewrite Hnil in *. cbn [length] in Hlen.
    assert (visits = []) as -> by (destruct visits; [reflexivity | cbn in Hlen; lia]).
    split; [reflexivity |]. destruct r as [info |]; [| eexists; reflexivity].
    destruct (Hsome info eq_refl) as (pre & w0 & text & html & box & Hv & _).
    destruct pre; discriminate Hv.
  - intros ->. reflexivity.
Qed.

End WaitBudget.

(** * Further properties: the progress of a scan *)

Lemma progressed_app (j1 j2 : list (call * bool)) :
  progressed (j1 ++ j2) = progressed j1 ++ progressed j2.
Proof. apply flat_map_app. Qed.

Section ScanProgress.

Import GridScanner.

Context {W : Type} (deps : Deps W).

Lemma hoverAndDetect_quiet (d : Q) (cr : CellResult) (s : state W) :
  exists res seg w',
    hoverAndDetect deps d cr s = (Ok res, mkState w' (journal s ++ seg)) /\
    progressed seg = [].
Proof.
  unfold hoverAndDetect, try_catch, bind, await, ret.
  destruct (hoverCell deps (col cr) (row cr) scanHover (world s)) as [[[] | e1] w1];
    cbn [world journal resolved].
  2:{ eexists _, _, _. split; reflexivity. }
  destruct (waitForTimeout deps d w1) as [[[] | e2] w2]; cbn [world journal resolved].
  2:{ eexists _, _, _. rewrite <- app_assoc. split; reflexivity. }
  destruct (getVisibleTooltips deps w2) as [[ts | e3] w3]; cbn [world journal resolved].
  2:{ eexists _, _, _. rewrite <- !app_assoc. split; reflexivity. }
  eexists _, _, _. rewrite <- !app_assoc. split; reflexivity.
Qed.

Lemma scanCell_run (d : Q) (callback : option (Z -> Z -> Z -> Z -> W -> outcome unit * W))
    (total row col : Z) (acc : ScanAcc) (s : state W) :
  exists r seg w',
    scanCell deps d false callback total row col acc s = (r, mkState w' (journal s ++ seg)) /\
    (forall acc', r = Ok acc' ->
       processed acc' = processed acc + 1 /\
       progressed seg = match callback with
                        | Some _ => [(processed acc + 1, total, col, row)]
                        | None => []
                        end) /\
    (forall e, r = Throw e -> exists pre c, seg = pre ++ [(c, false)] /\ endsScan total c).
Proof.
  unfold scanCell, baselines. rewrite lookup_empty. cbn [truthy negb andb]. unfold bind at 1.
  assert (Hpre : (exists e w0,
                    callback <> None /\
                    match callback with
                    | Some callback =>
                        await (CallProgress (processed acc + 1) total col row)
                          (callback (processed acc + 1) total col row)
                    | None => ret tt
                    end s
                    = (Throw e, mkState w0 (journal s ++
                         [(CallProgress (processed acc + 1) total col row, false)]))) \/
                 (exists pre w0,
                    match callback with
                    | Some callback =>
                        await (CallProgress (processed acc + 1) total col row)
                          (callback (processed acc + 1) total col row)
                    | None => ret tt
                    end s = (Ok tt, mkState w0 (journal s ++ pre)) /\
                    progressed pre = match callback with
                                     | Some _ => [(processed acc + 1, total, col, row)]
                                     | None => []
                                     end)).
  { destruct callback as [f |].
    - unfold await. destruct (f (processed acc + 1) total col row (world s)) as [[[] | e] w0];
        cbn [resolved].
      + right. eexists _, _. split; reflexivity.
      + left. exists e, w0. split; [discriminate | reflexivity].
    - right. exists [], (world s). unfold ret. rewrite app_nil_r. destruct s.
      split; reflexivity. }
  destruct Hpre as [(e & w0 & _ & ->) | (pre & w0 & -> & Hprog)].
  { eexists (Throw e), _, w0. split; [reflexivity |]. split; [discriminate |].
    intros e' _. exists [], (CallProgress (processed acc + 1) total col row).
    split; [reflexivity |]. right. now eexists _, _, _. }
  unfold bind at 1.
  destruct (hoverAndDetect_quiet d
              {| GridScanner.col := col; GridScanner.row := row; hasTooltip := false;
                 tooltipText := None; baseline := None; colorTestingDisabled := None |}
              (mkState w0 (journal s ++ pre)))
    as (res & seg & w1 & -> & Hquiet).
  cbn [journal]. unfold bind, await, ret. cbn [world journal].
  destruct (waitForTimeout deps 10 w1) as [[[] | e] w2]; cbn [resolved].
  - eexists (Ok _), (pre ++ seg ++ [(CallWaitForTimeout 10, true)]), w2.
    rewrite <- !app_assoc. split; [reflexivity |]. split; [| discriminate].
    intros acc' H. injection H as <-. cbn [processed]. split; [reflexivity |].
    rewrite !progressed_app, Hprog, Hquiet. cbn [progressed flat_map fst app].
    now rewrite app_nil_r.
  - eexists (Throw e), (pre ++ seg ++ [(CallWaitForTimeout 10, false)]), w2.
    rewrite <- !app_assoc. split; [reflexivity |]. split; [discriminate |].
    intros e' _. exists (pre ++ seg), (CallWaitForTimeout 10).
    rewrite <- app_assoc. split; [reflexivity | now left].
Qed.

Lemma scanCells_run (d : Q) (callback : option (Z -> Z -> Z -> Z -> W -> outcome unit * W))
    (total : Z) (cells : list (Z * Z)) (acc : ScanAcc) (s : state W) :
  exists r seg w',
    foldM (fun p acc => scanCell deps d false callback total (snd p) (fst p) acc) cells acc s
    = (r, mkState w' (journal s ++ seg)) /\
    (forall acc', r = Ok acc' ->
       processed acc' = processed acc + Z.of_nat (length cells) /\
       progressed seg = match callback with
                        | Some _ => numbered (processed acc + 1) total cells
                        | None => []
                        end) /\
    (forall e, r = Throw e -> exists pre c, seg = pre ++ [(c, false)] /\ endsScan total c).
Proof.
  revert acc s. induction cells as [| [c r0] cells IH]; intros acc s.
  - exists (Ok acc), [], (world s). cbn [foldM]. unfold ret. rewrite app_nil_r.
    destruct s. split; [reflexivity |]. split; [| discriminate].
    intros acc' H. injection H as <-. cbn [length numbered]. rewrite Z.add_0_r.
    split; [reflexivity | now destruct callback].
  - cbn [foldM fst snd]. unfold bind.
    destruct (scanCell_run d callback total r0 c acc s) as (r1 & seg1 & w1 & -> & Hok1 & Hthrow1).
    destruct r1 as [acc1 | e1].
    + destruct (Hok1 acc1 eq_refl) as [Hp1 Hprog1].
      destruct (IH acc1 (mkState w1 (journal s ++ seg1))) as (r2 & seg2 & w2 & -> & Hok2 & Hthrow2).
      cbn [journal]. exists r2, (seg1 ++ seg2), w2. rewrite <- app_assoc.
      split; [reflexivity |]. split.
      * intros acc' H. destruct (Hok2 acc' H) as [Hp2 Hprog2]. split.
        -- rewrite Hp2, Hp1. cbn [length]. lia.
        -- rewrite progressed_app, Hprog1, Hprog2, Hp1.
           destruct callback; reflexivity.
      * intros e H. destruct (Hthrow2 e H) as (pre & c' & -> & Hends).
        exists (seg1 ++ pre), c'. now rewrite <- app_assoc.
    + exists (Throw e1), seg1, w1. split; [reflexivity |]. split; [discriminate |].
      intros e _. now apply (Hthrow1 e1).
Qed.

Lemma scan_move_away_quiet (s : state W) :
  exists tail w',
    try_catch
      (bind (await (CallMouseMove 0 0) (mouse_move deps 0 0))
         (fun _ => await (CallWaitForTimeout 100) (waitForTimeout deps 100)))
      (fun _ => ret tt) s
    = (Ok tt, mkState w' (journal s ++ tail)) /\
    progressed tail = [].
Proof.
  unfold try_catch, bind, await, ret.
  destruct (mouse_move deps 0 0 (world s)) as [[[] | e1] w1]; cbn [world journal resolved].
  - destruct (waitForTimeout deps 100 w1) as [[[] | e2] w2]; cbn [resolved];
      eexists _, _; rewrite <- app_assoc; split; reflexivity.
  - eexists _, _. split; reflexivity.
Qed.

(** X22.  [scanAllCellsForTooltips] rejects only through what is outside
    the [try] of a cell: the last call is then the pause of 10 ms between
    two cells or the progress callback, it has rejected, and cells are
    not being skipped.  When the scan returns, [totalCells] counts every
    cell of the grid, and the callback was called once per cell in
    row-major order with [current] running from 1 to [total] =
    [cols * rows] (not at all when the cells are skipped).
    [scanWithTextExtraction] is the same scan. *)
Theorem scan_progress (grid : Grid) (options : option (ScanOptions W)) (s : state W) :
  exists r seg w',
    scanAllCellsForTooltips deps grid options s = (r, mkState w' (journal s ++ seg)) /\
    (forall rep, r = Ok rep ->
       ScanReport.totalCells rep = Z.of_nat (length (rowMajor grid)) /\
       (0 <= cols grid -> 0 <= rows grid ->
        ScanReport.totalCells rep = cols grid * rows grid) /\
       progressed seg = match callbackOf options with
                        | Some _ => if skipOf options then []
                                    else numbered 1 (cols grid * rows grid) (rowMajor grid)
                        | None => []
                        end) /\
    (forall e, r = Throw e ->
       skipOf options = false /\
       exists pre c, seg = pre ++ [(c, false)] /\ endsScan (cols grid * rows grid) c) /\
    scanWithTextExtraction deps grid options s = scanAllCellsForTooltips deps grid options s.
Proof.
  assert (Hsame : scanWithTextExtraction deps grid options s
                  = scanAllCellsForTooltips deps grid options s).
  { unfold scanWithTextExtraction. destruct options; reflexivity. }
  cut (exists r seg w',
         scanAllCellsForTooltips deps grid options s = (r, mkState w' (journal s ++ seg)) /\
         (forall rep, r = Ok rep ->
            ScanReport.totalCells rep = Z.of_nat (length (rowMajor grid)) /\
            progressed seg = match callbackOf options with
                             | Some _ => if skipOf options then []
                                         else numbered 1 (cols grid * rows grid) (rowMajor grid)
                             | None => []
                             end) /\
         (forall e, r = Throw e ->
            skipOf options = false /\
            exists pre c, seg = pre ++ [(c, false)] /\ endsScan (cols grid * rows grid) c)).
  { intros (r & seg & w' & E & Hok & Hthrow). exists r, seg, w'.
    split; [exact E |]. split; [| split; [exact Hthrow | exact Hsame]].
    intros rep Hrep. destruct (Hok rep Hrep) as [Htotal Hprog].
    split; [exact Htotal |]. split; [| exact Hprog].
    intros Hc Hr. rewrite Htotal. now apply rowMajor_length. }
  rewrite scan_unfold. unfold bind at 1.
  destruct (skipOf options) eqn:Hskip.
  - rewrite scanCells_skip. unfold bind at 1.
    destruct (scan_move_away_quiet s) as (tail & w' & -> & Hquiet). unfold ret.
    eexists (Ok _), tail, w'. split; [reflexivity |]. split; [| discriminate].
    intros rep H. injection H as <-. cbn [ScanReport.totalCells report processed].
    rewrite Z.add_0_l. split; [reflexivity |].
    rewrite Hquiet. now destruct (callbackOf options).
  - destruct (scanCells_run (hoverDelayOf options) (callbackOf options)
                (cols grid * rows grid) (rowMajor grid)
                {| acc_results := []; processed := 0 |} s)
      as (r & seg & w1 & -> & Hok & Hthrow).
    destruct r as [acc | e].
    + destruct (Hok acc eq_refl) as [Hp Hprog]. unfold bind at 1.
      destruct (scan_move_away_quiet (mkState w1 (journal s ++ seg)))
        as (tail & w' & -> & Hquiet).
      unfold ret. cbn [journal].
      eexists (Ok _), (seg ++ tail), w'. rewrite <- app_assoc.
      split; [reflexivity |]. split; [| discriminate].
      intros rep H. injection H as <-. cbn [ScanReport.totalCells report].
      cbn [processed] in Hp. rewrite Hp, Z.add_0_l. split; [reflexivity |].
      rewrite progressed_app, Hquiet, app_nil_r, Hprog. reflexivity.
    + exists (Throw e), seg, w1. split; [reflexivity |]. split; [discriminate |].
      intros e' _. split; [reflexivity |]. now apply (Hthrow e).
Qed.

End ScanProgress.

(** * Further properties: the steps of [sampleCell] and the region *)

Section SampleCellSteps.

Import ColorSampler.

Context {Png : Type}.

(** X23.  [sampleCell] asks for the handle first and goes on step by
    step.  Only the direct read can leave a call that never returns, and
    nothing is asked of the page after it.  The page is captured at most
    once, only after the direct read was rejected, and with the clip of
    the cell in the box the canvas then has.  A colour comes either from
    the direct read, after two steps, or from the capture, after all
    five. *)
Theorem sampleCell_steps (env : Env Png) (grid : Grid) (col row : Z) :
  let r := fst (sampleCell env grid col row) in
  let steps := snd (sampleCell env grid col row) in
  (exists rest, steps = StepElementHandle :: rest) /\
  (r = Pending -> steps = [StepElementHandle; StepDirectRead]) /\
  (forall clip, In (StepScreenshot clip) steps ->
     exists handle box rest,
       elementHandle env = Ok (Some handle) /\
       directReadFailed env handle grid col row /\
       boundingBox env = Ok (Some box) /\
       clip = cellClip box grid col row /\
       steps = [StepElementHandle; StepDirectRead; StepBoundingBox; StepScreenshot clip] ++ rest /\
       (rest = [] \/ rest = [StepCaptureRead])) /\
  (forall rgba, r = Resolved rgba ->
     (steps = [StepElementHandle; StepDirectRead] /\
      exists handle, elementHandle env = Ok (Some handle) /\
                     directRead handle grid col row = Resolved rgba) \/
     (exists box png,
        steps = [StepElementHandle; StepDirectRead; StepBoundingBox;
                 StepScreenshot (cellClip box grid col row); StepCaptureRead] /\
        screenshot env (cellClip box grid col row) = Ok png /\
        captureRead env png = Resolved rgba)).
Proof.
  cbv zeta. unfold sampleCell, directReadFailed.
  destruct (elementHandle env) as [[handle |] | e0]; cbn [fst snd].
  2:{ split; [now eexists |]. split; [discriminate |]. split; [| discriminate].
      intros clip [H | []]. discriminate H. }
  2:{ split; [now eexists |]. split; [discriminate |]. split; [| discriminate].
      intros clip [H | []]. discriminate H. }
  destruct (evaluate (directReadRuns env) (directRead handle grid col row))
    as [c | e1 |] eqn:E1; cbn [catch_null fst snd].
  - split; [now eexists |]. split; [discriminate |]. split.
    + intros clip [H | [H | []]]; discriminate H.
    + intros rgba H. injection H as <-. left. split; [reflexivity |].
      exists handle. split; [reflexivity |]. unfold evaluate in E1.
      destruct (directReadRuns env); [exact E1 | discriminate E1].
  - destruct (boundingBox env) as [[box |] | e2]; cbn [fst snd].
    2:{ split; [now eexists |]. split; [discriminate |]. split; [| discriminate].
        intros clip [H | [H | [H | []]]]; discriminate H. }
    2:{ split; [now eexists |]. split; [discriminate |]. split; [| discriminate].
        intros clip [H | [H | [H | []]]]; discriminate H. }
    destruct (screenshot env (cellClip box grid col row)) as [png | e3] eqn:E3; cbn [fst snd].
    + split; [now eexists |]. split.
      { intros H. exfalso. revert H. apply captureRead_settles. }
      split.
      * intros clip [H | [H | [H | [H | [H | []]]]]]; try discriminate H.
        injection H as <-. exists handle, box, [StepCaptureRead].
        split; [reflexivity |]. split; [now exists e1 |]. split; [reflexivity |].
        split; [reflexivity |]. split; [reflexivity | now right].
      * intros rgba H. right. exists box, png. split; [reflexivity |].
        split; [exact E3 |]. unfold evaluate in H.
        destruct (captureReadRuns env); [exact H | discriminate H].
    + split; [now eexists |]. split; [discriminate |]. split; [| discriminate].
      intros clip [H | [H | [H | [H | []]]]]; try discriminate H.
      injection H as <-. exists handle, box, [].
      split; [reflexivity |]. split; [now exists e1 |]. split; [reflexivity |].
      split; [reflexivity |]. split; [reflexivity | now left].
  - split; [now eexists |]. split; [reflexivity |]. split; [| discriminate].
    intros clip [H | [H | []]]; discriminate H.
Qed.

End SampleCellSteps.

Section RegionInGrid.

Import GridScanner.

Lemma in_regionCells (r : Region) (col row : Z) :
  In (col, row) (regionCells r) <->
  (startCol r <= col <= endCol r) /\ (startRow r <= row <= endRow r).
Proof.
  unfold regionCells. rewrite in_flat_map. split.
  - intros (row' & Hrow & Hin). apply in_map_iff in Hin as (col' & Heq & Hcol).
    injection Heq as -> ->. apply in_range in Hrow. apply in_range in Hcol. lia.
  - intros [Hc Hr]. exists row. split; [apply in_range; lia |].
    apply in_map_iff. exists col. split; [reflexivity | apply in_range; lia].
Qed.

(** X24.  When the rectangle asked of [selectCellsAndExtractText] meets
    the grid on both axes (a grid of at least one column and one row), the region it goes through is that rectangle
    cut to the grid, whichever two opposite corners were given and in
    whichever order: its cells are the cells of the grid that lie in the
    rectangle, there is at least one, and [totalCells] is their number.  A
    rectangle inside the grid is gone through as it is. *)
Theorem region_is_intersection (grid : Grid) (sc sr ec er : Z) :
  1 <= cols grid -> 1 <= rows grid ->
  0 <= Z.max sc ec -> Z.min sc ec <= cols grid - 1 ->
  0 <= Z.max sr er -> Z.min sr er <= rows grid - 1 ->
  let r := normalizeRegion grid sc sr ec er in
  (forall col row,
     In (col, row) (regionCells r) <->
     inGrid grid col row /\
     Z.min sc ec <= col <= Z.max sc ec /\ Z.min sr er <= row <= Z.max sr er) /\
  0 < regionTotalCells r /\
  regionTotalCells r = Z.of_nat (length (regionCells r)) /\
  normalizeRegion grid ec er sc sr = r /\
  normalizeRegion grid sc er ec sr = r /\
  (inGrid grid sc sr -> inGrid grid ec er -> sc <= ec -> sr <= er ->
   r = mkRegion sc sr ec er).
Proof.
  intros Hc Hr Hc1 Hc2 Hr1 Hr2 r. split; [| split; [| split; [| split; [| split]]]].
  - intros col row. rewrite in_regionCells. unfold r, normalizeRegion, inGrid.
    cbn [startCol endCol startRow endRow]. lia.
  - unfold r, normalizeRegion, regionTotalCells. cbn [startCol endCol startRow endRow].
    apply Z.mul_pos_pos; lia.
  - rewrite regionCells_length. unfold r, normalizeRegion, regionTotalCells.
    cbn [startCol endCol startRow endRow].
    rewrite Nat2Z.inj_mul, !Z2Nat.id by lia. reflexivity.
  - apply normalizeRegion_swap.
  - unfold r, normalizeRegion. f_equal; lia.
  - unfold inGrid. intros [Hsc Hsr] [Hec Her] Hco Hro. unfold r, normalizeRegion. f_equal; lia.
Qed.

Lemma region_is_intersection_witness :
  let r := normalizeRegion (mkGrid 3 2) (-1) 1 1 5 in
  (forall col row,
     In (col, row) (regionCells r) <->
     inGrid (mkGrid 3 2) col row /\
     Z.min (-1) 1 <= col <= Z.max (-1) 1 /\ Z.min 1 5 <= row <= Z.max 1 5) /\
  0 < regionTotalCells r /\
  regionTotalCells r = Z.of_nat (length (regionCells r)) /\
  normalizeRegion (mkGrid 3 2) 1 5 (-1) 1 = r /\
  normalizeRegion (mkGrid 3 2) (-1) 5 1 1 = r /\
  (inGrid (mkGrid 3 2) (-1) 1 -> inGrid (mkGrid 3 2) 1 5 -> -1 <= 1 -> 1 <= 5 ->
   r = mkRegion (-1) 1 1 5).
Proof.
  apply (region_is_intersection (mkGrid 3 2) (-1) 1 1 5); simpl; lia.
Defined.

End RegionInGrid.
